(** * Location resolution and metric ranking of the census ACS server

    A shallow embedding of [dist/tools/lookup.js] (searchLocations,
    listGeographies, resolveLocation, getSummaryLevel, lookupLocation) and of
    the rankings module (rankAreasByMetric), together with the relational
    operators of the SQL text they send to the embedded store.

    Modelling conventions.
    - The four tables are lists of records (bags, in storage order).
    - Text is ASCII: [string] is a list of one-byte characters, LENGTH counts
      them, ILIKE folds the letters A-Z, trim strips the ASCII white space.
    - BIGINT columns are [Z]; a SQL NULL is [None]. A DOUBLE of the engine
      and a number of JavaScript are binary64 numbers ([Double]): the rate
      and the land area are computed in that arithmetic, rounding to nearest
      at every step as the code does, and carried as the exact rational they
      denote. Stored percentiles are the rationals they denote.
    - ORDER BY is a stable insertion sort over the storage order, LIMIT keeps a
      prefix ([firstn]); the limit is a natural number. Among rows that tie
      on the sort keys the engine is free: what is stated of a page holds of
      every such choice, or assumes that the rows concerned do not tie.
    - A query that the engine refuses is a thrown outcome. A quote in a value
      spliced into the text of a query changes the query that is sent; what
      the engine answers to it is not followed here ([AlteredQuery]). What is
      stated of the rows and the count of a ranking by its filters is stated
      for requests whose spliced values hold no quote. *)

From Stdlib Require Import String Ascii List ZArith QArith Qround Lia Bool DecimalString.
From Stdlib Require Import Sorting.Sorted Sorting.Permutation.
From Stdlib Require Import Qabs.
From Stdlib Require Import SpecFloat.
Import ListNotations.
Local Open Scope string_scope.

(** ** Text: the string primitives of JavaScript and SQL used by the tools *)
Module Text.

Definition is_digit (c : ascii) : bool :=
  let n := nat_of_ascii c in (48 <=? n)%nat && (n <=? 57)%nat.

(** White space removed by [String.prototype.trim] (ASCII part). *)
Definition is_space (c : ascii) : bool :=
  let n := nat_of_ascii c in
  ((9 <=? n)%nat && (n <=? 13)%nat) || (n =? 32)%nat.

Fixpoint trim_left (s : string) : string :=
  match s with
  | String c s' => if is_space c then trim_left s' else s
  | EmptyString => EmptyString
  end.

(** Drops the trailing white space: a character is kept when something that
    is kept follows it, or when it is not white space itself. *)
Fixpoint trim_right (s : string) : string :=
  match s with
  | EmptyString => EmptyString
  | String c s' =>
      match trim_right s' with
      | EmptyString => if is_space c then EmptyString else String c EmptyString
      | r => String c r
      end
  end.

Definition trim (s : string) : string := trim_right (trim_left s).

Fixpoint all_digits (s : string) : bool :=
  match s with
  | EmptyString => true
  | String c s' => is_digit c && all_digits s'
  end.

(** [/^\d/.test(s)] *)
Definition starts_with_digit (s : string) : bool :=
  match s with
  | String c _ => is_digit c
  | EmptyString => false
  end.

(** [/^\d{5}$/.test(s)] *)
Definition five_digits (s : string) : bool :=
  (String.length s =? 5)%nat && all_digits s.

(** [s.includes(t)] *)
Fixpoint includes (t s : string) : bool :=
  prefix t s ||
  match s with
  | EmptyString => false
  | String _ s' => includes t s'
  end.

(** [s.slice(-n)]: the last [n] characters, the whole string when shorter. *)
Definition slice_last (n : nat) (s : string) : string :=
  substring (String.length s - n) n s.

(** [s.split(' ')[0]]: the text before the first space. *)
Fixpoint first_word (s : string) : string :=
  match s with
  | EmptyString => EmptyString
  | String c s' => if (c =? " ")%char then EmptyString else String c (first_word s')
  end.

Definition lower_char (c : ascii) : ascii :=
  let n := nat_of_ascii c in
  if (65 <=? n)%nat && (n <=? 90)%nat then ascii_of_nat (n + 32) else c.

Fixpoint lower (s : string) : string :=
  match s with
  | EmptyString => EmptyString
  | String c s' => String (lower_char c) (lower s')
  end.

(** SQL [s LIKE p] with no escape character: [%] matches any run of
    characters, [_] exactly one, anything else itself. *)
Fixpoint like (p : string) : string -> bool :=
  match p with
  | EmptyString => fun s => match s with EmptyString => true | _ => false end
  | String c p' =>
      if (c =? "%")%char then
        fix star (s : string) : bool :=
          like p' s || match s with
                       | EmptyString => false
                       | String _ s' => star s'
                       end
      else if (c =? "_")%char then
        fun s => match s with
                 | EmptyString => false
                 | String _ s' => like p' s'
                 end
      else
        fun s => match s with
                 | EmptyString => false
                 | String d s' => (c =? d)%char && like p' s'
                 end
  end.

(** SQL [s ILIKE p]. *)
Definition ilike (p s : string) : bool := like (lower p) (lower s).

Definition is_wildcard (c : ascii) : bool := (c =? "%")%char || (c =? "_")%char.

Fixpoint wildcard_free (s : string) : bool :=
  match s with
  | EmptyString => true
  | String c s' => negb (is_wildcard c) && wildcard_free s'
  end.

(** A quote ends a SQL string literal: a value spliced between quotes keeps
    the query's shape only when it has none. *)
Fixpoint quote_free (s : string) : bool :=
  match s with
  | EmptyString => true
  | String c s' => negb (c =? "'")%char && quote_free s'
  end.

(** geo_id format: summary level (3) + group code (4) + "US" + FIPS, e.g.
    "0400000US06" = state (040) + total (0000) + California (06).
    The group code is [SUBSTRING(geo_id, 4, 4)]. *)
Definition group_segment (g : string) : string := substring 3 4 g.

(** The literal marker sits right after the group code. *)
Definition well_formed_key (g : string) : bool := (substring 7 2 g =? "US")%string.

(** JavaScript truthiness of a string: the empty string is falsy. *)
Definition truthy (s : string) : bool :=
  match s with EmptyString => false | _ => true end.

(** Truthiness of an optional string argument ([undefined] is falsy). *)
Definition given (o : option string) : option string :=
  match o with
  | Some s => if truthy s then Some s else None
  | None => None
  end.

End Text.

(** ** Binary64 numbers: the DOUBLE of the engine, the number of JavaScript *)
Module Double.

Definition double : Type := spec_float.

(** The nearest double of an integer (ties to even): a BIGINT or HUGEINT cast
    to DOUBLE, [Number(bigint)]. Exact up to 2^53 in size. *)
Definition of_Z (z : Z) : double := binary_normalize 53 1024 z 0 false.

(** [x * y] and [x / y], rounded to nearest. *)
Definition mul (x y : double) : double := SFmul 53 1024 x y.
Definition div (x y : double) : double := SFdiv 53 1024 x y.

Definition is_finite (x : double) : bool :=
  match x with
  | S754_finite _ _ _ | S754_zero _ => true
  | _ => false
  end.

(** The rational a finite double denotes, in lowest terms (0 for what is not
    a finite number). *)
Definition to_Q (x : double) : Q :=
  match x with
  | S754_finite s m e =>
      let n := if s then Zneg m else Zpos m in
      match e with
      | Z0 => inject_Z n
      | Zpos k => inject_Z (n * 2 ^ Zpos k)
      | Zneg k => Qred (n # (2 ^ k))
      end
  | _ => 0
  end.

(** [Math.round]: the nearest integer, halves upwards; the sign of a zero
    result is that of the argument. *)
Definition Math_round (x : double) : double :=
  match x with
  | S754_finite s _ _ => binary_normalize 53 1024 (Qfloor (to_Q x + (1 # 2))) 0 s
  | _ => x
  end.

(** [k / 100] for an integer [k]: the double nearest to k hundredths, as the
    rational it denotes. *)
Definition hundredths (k : Z) : Q := to_Q (div (of_Z k) (of_Z 100)).

End Double.

(** ** Outcomes of an asynchronous call, as far as they are followed: a value,
    or none. [SyntaxError] and [JsonParseError] are rejected promises.
    [AlteredQuery] is no exception of the code: the query that is sent is not
    the query that is written, and the answer to it is not followed. *)
Inductive error : Type :=
| SyntaxError      (* the engine refuses the query text, e.g. [IN ()] *)
| AlteredQuery     (* a quote in a spliced value changes the query text *)
| JsonParseError.  (* [JSON.parse] throws *)

Inductive outcome (A : Type) : Type :=
| Ok (a : A)
| Throw (e : error).
Arguments Ok {A} a.
Arguments Throw {A} e.

Definition bind {A B : Type} (m : outcome A) (k : A -> outcome B) : outcome B :=
  match m with
  | Ok a => k a
  | Throw e => Throw e
  end.

Notation "'await' x <- m ; k" := (bind m (fun x => k))
  (at level 10, x name, m at level 100, k at level 200).

(** ** The relational operators of the queries *)
Module Sql.
Import Double.

Section Order.
Context {A : Type}.
Variable leb : A -> A -> bool.

Fixpoint insert_row (x : A) (l : list A) : list A :=
  match l with
  | [] => [x]
  | y :: l' => if leb x y then x :: l else y :: insert_row x l'
  end.

(** ORDER BY: rows that compare equal keep their storage order (one of the
    orders the engine may choose). *)
Fixpoint order_by (l : list A) : list A :=
  match l with
  | [] => []
  | x :: l' => insert_row x (order_by l')
  end.

End Order.

(** LIMIT n *)
Definition limit {A : Type} (n : nat) (l : list A) : list A := firstn n l.

(** Lexicographic ORDER BY k1, k2 on natural-number keys. *)
Definition lex2 (a1 a2 b1 b2 : nat) : bool :=
  (a1 <? b1)%nat || ((a1 =? b1)%nat && (a2 <=? b2)%nat).

Section Distinct.
Context {A : Type}.
Variable eqb : A -> A -> bool.

Definition mem (x : A) (l : list A) : bool := existsb (eqb x) l.

(** SELECT DISTINCT / COUNT(DISTINCT ..): first occurrences, in order. *)
Fixpoint distinct_from (seen : list A) (l : list A) : list A :=
  match l with
  | [] => []
  | x :: l' =>
      if mem x seen then distinct_from seen l'
      else x :: distinct_from (x :: seen) l'
  end.

Definition distinct (l : list A) : list A := distinct_from [] l.

End Distinct.

(** SUM(v) over the rows of one group. *)
Definition sum_over {A : Type} (p : A -> bool) (v : A -> Z) (l : list A) : Z :=
  fold_right (fun r acc => (v r + acc)%Z) 0%Z (filter p l).

(** [SELECT k, SUM(v) ... GROUP BY k]: one row per distinct key. *)
Definition group_sum {A K : Type} (eqb : K -> K -> bool)
    (k : A -> K) (v : A -> Z) (l : list A) : list (K * Z) :=
  map (fun g => (g, sum_over (fun r => eqb (k r) g) v l))
      (distinct eqb (map k l)).

(** Comparison of a nullable numeric column, NULLS LAST in both directions. *)
Definition value_leb (desc : bool) (a b : option Q) : bool :=
  match a, b with
  | _, None => true
  | None, Some _ => false
  | Some x, Some y => if desc then Qle_bool y x else Qle_bool x y
  end.

(** The nearest integer of a number, halves away from zero. *)
Definition round_half_away (x : Q) : Z :=
  if Qle_bool 0 x then Qfloor (x + (1 # 2)) else Qceiling (x - (1 # 2)).

(** ROUND(x, 2) on a DOUBLE, as the engine computes it: [x * 100] in binary64,
    rounded to an integer with halves away from zero, over 100 in binary64;
    [x] itself when the product is not finite. *)
Definition round2 (x : double) : double :=
  let y := mul x (of_Z 100) in
  if is_finite y then div (of_Z (round_half_away (to_Q y))) (of_Z 100) else x.


End Sql.

(** ** The store: the four tables the tools read *)

(** A point is (longitude, latitude); a boundary is modelled by the set of
    points it contains, which is all [ST_Contains] asks of it. *)
Definition point : Type := (Q * Q)%type.
Definition geometry : Type := point -> bool.

(** json_db.tiger_geometries *)
Record tiger_row : Type := {
  t_geo_id : string;
  t_name : string;
  t_geom : geometry
}.

(** json_db.geo_lookup; [g_labels_data] is the JSON text as stored. *)
Record geo_lookup_row : Type := {
  g_geo_id : string;
  g_title : string;
  g_universe : string;
  g_labels_data : string
}.

(** pct_db.acs_with_percentiles *)
Record acs_row : Type := {
  uid : string;
  a_geo_id : string;
  estimate : Z;
  summary_level : string;
  state_fips : string;
  national_percentile : Q
}.

(** pct_db.table_metadata *)
Record metadata_row : Type := {
  m_table_id : string;
  unique_id : string;
  m_label : string;
  m_title : string
}.

Record database : Type := {
  tiger_geometries : list tiger_row;
  geo_lookup : list geo_lookup_row;
  acs_with_percentiles : list acs_row;
  table_metadata : list metadata_row
}.

(** ** types.js *)
Module Types.

Definition SUMMARY_LEVELS : list (string * string) :=
  [("040", "state"); ("050", "county"); ("140", "tract");
   ("150", "block_group"); ("310", "metro"); ("860", "zip")].

Definition SUMMARY_LEVEL_NAMES : list (string * string) :=
  [("state", "040"); ("county", "050"); ("tract", "140");
   ("block_group", "150"); ("metro", "310"); ("zip", "860")].

(** [table[key]], own properties only. *)
Fixpoint lookup (key : string) (table : list (string * string)) : option string :=
  match table with
  | [] => None
  | (k, v) :: rest => if (k =? key)%string then Some v else lookup key rest
  end.

(** [table[key] || dflt] *)
Definition lookup_or (table : list (string * string)) (key dflt : string) : string :=
  match lookup key table with
  | Some v => if Text.truthy v then v else dflt
  | None => dflt
  end.

End Types.

(** ** dist/tools/lookup.js *)
Module Lookup.
Import Text Sql Types.

Record GeoLocation : Type := {
  geo_id : string;
  name : string
}.

Record SearchRow : Type := {
  sr_geo_id : string;
  sr_name : string;
  sr_summary_level : string;
  sr_summary_level_name : string
}.

Record SearchLocationsResult : Type := {
  query : string;
  results : list SearchRow;
  total_matches : nat
}.

Record ListGeographiesResult : Type := {
  lg_summary_level : string;
  lg_summary_level_name : string;
  lg_parent_geo_id : option string;
  lg_results : list GeoLocation;
  total_count : nat
}.

Record TableData : Type := {
  table_id : string;
  title : string;
  universe : string;
  labels_data : string
}.

Record LookupLocationResult : Type := {
  ll_geo_id : string;
  ll_name : string;
  ll_summary_level : string;
  data : list TableData
}.

Definition getSummaryLevel (geoId : string) : string := substring 0 3 geoId.

(** [SELECT geo_id, name]: the projection every catalog query makes. *)
Definition select_geo (t : tiger_row) : GeoLocation :=
  {| geo_id := t_geo_id t; name := t_name t |}.

(** [WHERE name ILIKE '%' || ? || '%'  AND geo_id LIKE ? || '%'], the second
    conjunct only when a summary level is passed. *)
Definition name_matches (trimmed : string) (summaryLevel : option string)
    (t : tiger_row) : bool :=
  ilike ("%" ++ trimmed ++ "%") (t_name t) &&
  match given summaryLevel with
  | Some sl => like (lookup_or SUMMARY_LEVEL_NAMES sl sl ++ "%") (t_geo_id t)
  | None => true
  end.

(** The CASE of searchLocations' ORDER BY. *)
Definition search_priority (g : string) : nat :=
  if like "040%" g then 1
  else if like "310%" g then 2
  else if like "050%" g then 3
  else if like "860%" g then 4
  else if like "140%" g then 5
  else if like "150%" g then 6
  else 7.

(** [ORDER BY CASE .. END, LENGTH(name), name] *)
Definition search_leb (a b : tiger_row) : bool :=
  let pa := search_priority (t_geo_id a) in
  let pb := search_priority (t_geo_id b) in
  let la := String.length (t_name a) in
  let lb := String.length (t_name b) in
  (pa <? pb)%nat ||
  ((pa =? pb)%nat &&
   ((la <? lb)%nat || ((la =? lb)%nat && String.leb (t_name a) (t_name b)))).

(** The rows of the search before its LIMIT. *)
Definition search_rows (db : database) (trimmed : string)
    (summaryLevel : option string) : list tiger_row :=
  order_by search_leb
    (filter (name_matches trimmed summaryLevel) (tiger_geometries db)).

Definition searchLocations (db : database) (searchQuery : string)
    (summaryLevel : option string) (limit : nat) : SearchLocationsResult :=
  let trimmed := trim searchQuery in
  let rows := Sql.limit limit (search_rows db trimmed summaryLevel) in
  let cnt := length (filter (name_matches trimmed summaryLevel) (tiger_geometries db)) in
  {| query := searchQuery;
     results :=
       map (fun row =>
              let level := getSummaryLevel (t_geo_id row) in
              {| sr_geo_id := t_geo_id row;
                 sr_name := t_name row;
                 sr_summary_level := level;
                 sr_summary_level_name := lookup_or SUMMARY_LEVELS level "unknown" |})
           rows;
     total_matches := cnt |}.

(** [geo_id ~ '^[0-9]{3}0+US[0-9]+$']: after the first zero. *)
Fixpoint zeros_then_US (s : string) : bool :=
  match s with
  | EmptyString => false
  | String c s' =>
      if (c =? "0")%char then zeros_then_US s'
      else if (c =? "U")%char then
        match s' with
        | String d rest =>
            (d =? "S")%char && negb (String.length rest =? 0)%nat && all_digits rest
        | EmptyString => false
        end
      else false
  end.

Definition canonical_geo_id (s : string) : bool :=
  match s with
  | String a (String b (String c (String z rest))) =>
      is_digit a && is_digit b && is_digit c && (z =? "0")%char && zeros_then_US rest
  | _ => false
  end.

(** [WHERE geo_id LIKE ? [AND geo_id LIKE '%US' || ?] AND geo_id ~ ..] *)
Definition list_matches (levelCode : string) (parentGeoId : option string)
    (t : tiger_row) : bool :=
  like (levelCode ++ "%") (t_geo_id t) &&
  match given parentGeoId with
  | Some parent => like ("%US" ++ (slice_last 2 parent ++ "%")) (t_geo_id t)
  | None => true
  end &&
  canonical_geo_id (t_geo_id t).

Definition name_leb (a b : tiger_row) : bool := String.leb (t_name a) (t_name b).

Definition listGeographies (db : database) (summaryLevel : string)
    (parentGeoId : option string) (limit : nat) : ListGeographiesResult :=
  let levelCode := lookup_or SUMMARY_LEVEL_NAMES summaryLevel summaryLevel in
  let levelName := lookup_or SUMMARY_LEVELS levelCode summaryLevel in
  let matching := filter (list_matches levelCode parentGeoId) (tiger_geometries db) in
  let rows := Sql.limit limit (order_by name_leb matching) in
  {| lg_summary_level := levelCode;
     lg_summary_level_name := levelName;
     lg_parent_geo_id := parentGeoId;
     lg_results := map select_geo rows;
     total_count := length matching |}.

(** [SELECT geo_id, name FROM tiger_geometries WHERE geo_id = ?] *)
Definition by_geo_id (db : database) (g : string) : list GeoLocation :=
  map select_geo (filter (fun t => (t_geo_id t =? g)%string) (tiger_geometries db)).

(** The CASE of resolveLocation's ORDER BY. *)
Definition resolve_priority (g : string) : nat :=
  if like "040%" g then 1
  else if like "310%" g then 2
  else if like "050%" g then 3
  else 4.

(** [ORDER BY CASE .. END, LENGTH(name)] *)
Definition resolve_leb (a b : tiger_row) : bool :=
  lex2 (resolve_priority (t_geo_id a)) (String.length (t_name a))
       (resolve_priority (t_geo_id b)) (String.length (t_name b)).

(** The rows of the name search before its LIMIT. *)
Definition resolve_rows (db : database) (trimmed : string)
    (summaryLevel : option string) : list tiger_row :=
  order_by resolve_leb
    (filter (name_matches trimmed summaryLevel) (tiger_geometries db)).

(** The name search of resolveLocation (its last step), [LIMIT 1]. *)
Definition nameResults (db : database) (trimmed : string)
    (summaryLevel : option string) : list GeoLocation :=
  map select_geo (Sql.limit 1 (resolve_rows db trimmed summaryLevel)).

Definition resolveLocation (db : database) (input : string)
    (summaryLevel : option string) : option GeoLocation :=
  let trimmed := trim input in
  match (if starts_with_digit trimmed && includes "US" trimmed
         then by_geo_id db trimmed else []) with
  | r :: _ => Some {| geo_id := geo_id r; name := name r |}
  | [] =>
      let geoId := "860Z200US" ++ trimmed in
      match (if five_digits trimmed then by_geo_id db geoId else []) with
      | _ :: _ => Some {| geo_id := geoId; name := trimmed |}
      | [] =>
          match nameResults db trimmed summaryLevel with
          | r :: _ => Some {| geo_id := geo_id r; name := name r |}
          | [] => None
          end
      end
  end.

(** The CASE of lookupLocation's ORDER BY: most specific first. *)
Definition specificity (g : string) : nat :=
  if like "150%" g then 1
  else if like "140%" g then 2
  else if like "860%" g then 3
  else if like "050%" g then 4
  else if like "310%" g then 5
  else if like "040%" g then 6
  else 7.

Definition specificity_leb (a b : tiger_row) : bool :=
  (specificity (t_geo_id a) <=? specificity (t_geo_id b))%nat.

(** [WHERE ST_Contains(geom, ST_Point(?, ?))] with [longitude, latitude]. *)
Definition containing (db : database) (latitude longitude : Q) : list tiger_row :=
  filter (fun t => t_geom t (longitude, latitude)) (tiger_geometries db).

(** [.. ORDER BY CASE .. END] *)
Definition geoResults (db : database) (latitude longitude : Q) : list GeoLocation :=
  map select_geo (order_by specificity_leb (containing db latitude longitude)).

(** [SELECT DISTINCT title FROM table_metadata WHERE table_id IN (..)] *)
Definition titles_of_tables (db : database) (tables : list string) : list string :=
  distinct String.eqb
    (map m_title
       (filter (fun m => mem String.eqb (m_table_id m) tables) (table_metadata db))).

(** The table filter is spliced only for a non-empty [tables] array. *)
Definition table_filter (db : database) (tables : option (list string))
    (g : geo_lookup_row) : bool :=
  match tables with
  | Some ((_ :: _) as ts) => mem String.eqb (g_title g) (titles_of_tables db ts)
  | _ => true
  end.

Definition data_eqb (a b : string * string * string) : bool :=
  let '(t1, u1, l1) := a in
  let '(t2, u2, l2) := b in
  (t1 =? t2)%string && (u1 =? u2)%string && (l1 =? l2)%string.

(** [SELECT DISTINCT g.title, g.universe, g.labels_data FROM geo_lookup g
     WHERE g.geo_id = ? <tableFilter>], before the LIMIT. *)
Definition data_rows (db : database) (g : string)
    (tables : option (list string)) : list (string * string * string) :=
  distinct data_eqb
    (map (fun r => (g_title r, g_universe r, g_labels_data r))
       (filter (fun r => (g_geo_id r =? g)%string && table_filter db tables r)
          (geo_lookup db))).

(** [.. LIMIT 100] *)
Definition dataResults (db : database) (g : string)
    (tables : option (list string)) : list (string * string * string) :=
  Sql.limit 100 (data_rows db g tables).

Section Json.
(** [JSON.parse] on the stored text: the parsed value is written back as
    its canonical text, [None] when the text is not JSON. *)
Variable JSON_parse : string -> option string.

Fixpoint map_data (rows : list (string * string * string)) : outcome (list TableData) :=
  match rows with
  | [] => Ok []
  | (t, u, l) :: rest =>
      match JSON_parse l with
      | None => Throw JsonParseError
      | Some parsed =>
          await rest' <- map_data rest;
          Ok ({| table_id := (let w := first_word t in if truthy w then w else "UNKNOWN");
                 title := t;
                 universe := u;
                 labels_data := parsed |} :: rest')
      end
  end.

Definition lookupLocation (db : database) (latitude longitude : Q)
    (tables : option (list string)) : outcome (option LookupLocationResult) :=
  match geoResults db latitude longitude with
  | [] => Ok None
  | geo :: _ =>
      let summaryLevel := getSummaryLevel (geo_id geo) in
      await data <- map_data (dataResults db (geo_id geo) tables);
      Ok (Some {| ll_geo_id := geo_id geo;
                  ll_name := name geo;
                  ll_summary_level := summaryLevel;
                  data := data |})
  end.

End Json.

(** What one data row of the answer carries of one stored row. *)
Definition carries (parse : string -> option string)
    (row : string * string * string) (d : TableData) : Prop :=
  let '(t, u, l) := row in
  title d = t /\ universe d = u /\ parse l = Some (labels_data d).

End Lookup.

(** ** The rankings module: rankAreasByMetric *)
Module Rankings.
Import Text Sql.

(** [z.union([z.string(), z.array(z.string())])] *)
Inductive id_arg : Type :=
| One (id : string)
| Many (ids : list string).

Inductive sort_order : Type := desc | asc.

Record params : Type := {
  metric_id : id_arg;
  denominator_id : option id_arg;
  order : sort_order;
  percentile_min : Q;
  percentile_max : Q;
  p_summary_level : option string;
  p_state_fips : option string;
  population_group : string;
  min_population : Q;
  limit : nat
}.

Inductive unit_kind : Type := count | percent.

(** A result row; [r_national_percentile = None] is a row without the
    property. *)
Record RankResult : Type := {
  r_geo_id : string;
  r_name : string;
  r_value : option Q;
  r_unit : unit_kind;
  r_national_percentile : option Q
}.

Record RankAreasResult : Type := {
  metric : option string;
  results : list RankResult;
  total_matches : nat
}.

(** [Array.isArray(metric_id) ? metric_id : [metric_id]] *)
Definition metricIds (p : params) : list string :=
  match metric_id p with
  | One id => [id]
  | Many ids => ids
  end.

(** [denominator_id ? (Array.isArray(..) ? .. : [..]) : null]: an array is
    truthy even when empty, the empty string is not. *)
Definition denominatorIds (p : params) : option (list string) :=
  match denominator_id p with
  | None => None
  | Some (One id) => if truthy id then Some [id] else None
  | Some (Many ids) => Some ids
  end.

Definition isCompound (p : params) : bool :=
  (1 <? length (metricIds p))%nat ||
  match denominatorIds p with
  | Some ds => (1 <? length ds)%nat
  | None => false
  end.

Definition is_desc (o : sort_order) : bool :=
  match o with desc => true | asc => false end.

(** buildPopulationGroupFilter, as a predicate on the geo_id it is applied
    to: [SUBSTRING(geo_id, 4, 4) = '<population_group>'], nothing when the
    group is falsy. *)
Definition population_group_filter (p : params) (g : string) : bool :=
  if truthy (population_group p)
  then (group_segment g =? population_group p)%string
  else true.

(** [AND geo_id LIKE '<summary_level>%'], spliced when the level is truthy. *)
Definition level_prefix_filter (p : params) (g : string) : bool :=
  match given (p_summary_level p) with
  | Some sl => like (sl ++ "%") g
  | None => true
  end.

(** [AND geo_id LIKE '%US<state_fips>%'], spliced when the state is truthy. *)
Definition state_like_filter (p : params) (g : string) : bool :=
  match given (p_state_fips p) with
  | Some st => like ("%US" ++ (st ++ "%")) g
  | None => true
  end.

Definition geo_filters (p : params) (g : string) : bool :=
  population_group_filter p g && level_prefix_filter p g && state_like_filter p g.

Definition opt_quote_free (o : option string) : bool :=
  match o with Some s => quote_free s | None => true end.

(** The values spliced into the text of the rate and sum queries. *)
Definition spliced_ok (p : params) : bool :=
  quote_free (population_group p) &&
  opt_quote_free (p_summary_level p) && opt_quote_free (p_state_fips p).

Definition join_names (ids : list string) : string := String.concat ", " ids.

Definition nat_to_string (n : nat) : string :=
  DecimalString.NilEmpty.string_of_uint (Nat.to_uint n).

(** The label of the response. *)
Definition metricLabel (db : database) (p : params) : option string :=
  let ids := metricIds p in
  if isCompound p then
    Some ("Sum of " ++ nat_to_string (length ids) ++ " metrics (" ++
          join_names (firstn 3 ids) ++
          (if (3 <? length ids)%nat then "..." else "") ++ ")")
  else
    match hd_error ids with
    | None => None
    | Some firstMetricId =>
        match filter (fun m => (unique_id m =? firstMetricId)%string) (table_metadata db) with
        | m :: _ => Some (m_title m ++ ": " ++ m_label m)
        | [] => Some firstMetricId
        end
    end.

(** [uid IN (?, ..)] *)
Definition uid_in (ids : list string) (r : acs_row) : bool :=
  mem String.eqb (uid r) ids.

(** [SELECT geo_id, SUM(estimate) FROM acs_with_percentiles
     WHERE uid IN (..) GROUP BY geo_id] *)
Definition totals (db : database) (ids : list string) : list (string * Z) :=
  group_sum String.eqb a_geo_id estimate
    (filter (uid_in ids) (acs_with_percentiles db)).

(** [FROM numerators n JOIN denominators d ON n.geo_id = d.geo_id] *)
Definition joined (db : database) (nums dens : list string) : list (string * Z * Z) :=
  flat_map (fun n =>
              map (fun d => (fst n, snd n, snd d))
                  (filter (fun d => (fst n =? fst d)%string) (totals db dens)))
           (totals db nums).

(** [LEFT JOIN tiger_geometries t ON <g> = t.geo_id], keeping [t.name]. *)
Definition left_join_name {A : Type} (db : database) (key : A -> string)
    (rows : list A) : list (A * option string) :=
  flat_map (fun r =>
              match filter (fun t => (key r =? t_geo_id t)%string) (tiger_geometries db) with
              | [] => [(r, None)]
              | ts => map (fun t => (r, Some (t_name t))) ts
              end)
           rows.

(** [COALESCE(t.name, geo_id)] *)
Definition coalesce_name (n : option string) (g : string) : string :=
  match n with Some s => s | None => g end.

(** [ROUND(n.num_total * 100.0 / d.denom_total, 2)]: the sums are integers
    (HUGEINT) and the product with the decimal literal is exact; the division
    casts both sides to DOUBLE, and the quotient and its rounding are binary64
    operations. A division by zero gives NULL. *)
Definition rate_value (num den : Z) : option Q :=
  if (den =? 0)%Z then None
  else Some (Double.to_Q
               (round2 (Double.div (Double.of_Z (num * 100)) (Double.of_Z den)))).

(** The WHERE clause of the rate query and of its count. *)
Definition rate_where (p : params) (r : string * Z * Z) : bool :=
  let '(g, _, den) := r in
  Qle_bool (min_population p) (inject_Z den) && geo_filters p g.

Definition rate_key (r : string * Z * Z) : string := fst (fst r).

Definition rate_result (x : string * Z * Z * option string) : RankResult :=
  let '(g, num, den, n) := x in
  {| r_geo_id := g;
     r_name := coalesce_name n g;
     r_value := rate_value num den;
     r_unit := percent;
     r_national_percentile := None |}.

(** [ORDER BY value DESC|ASC] of the rate query. *)
Definition rate_leb (p : params) (a b : string * Z * Z * option string) : bool :=
  value_leb (is_desc (order p)) (r_value (rate_result a)) (r_value (rate_result b)).

Definition rate_rows (db : database) (p : params) (nums dens : list string)
    : list RankResult :=
  map rate_result
      (Sql.limit (limit p)
         (order_by (rate_leb p)
            (filter (fun x => rate_where p (fst x))
               (left_join_name db rate_key (joined db nums dens))))).

Definition rate_count (db : database) (p : params) (nums dens : list string) : nat :=
  length (filter (rate_where p) (joined db nums dens)).

(** The WHERE clause of the sum query and of its count. *)
Definition sum_where (p : params) (ids : list string) (r : acs_row) : bool :=
  uid_in ids r && geo_filters p (a_geo_id r).

Definition opt_eqb (a b : option string) : bool :=
  match a, b with
  | Some x, Some y => (x =? y)%string
  | None, None => true
  | _, _ => false
  end.

(** Equality of the grouping columns [p.geo_id, t.name]. *)
Definition group_key_eqb (a b : string * option string) : bool :=
  (fst a =? fst b)%string && opt_eqb (snd a) (snd b).

Definition group_key (x : acs_row * option string) : string * option string :=
  (a_geo_id (fst x), snd x).

Definition sum_result (x : (string * option string) * Z) : RankResult :=
  let '((g, n), total) := x in
  {| r_geo_id := g;
     r_name := coalesce_name n g;
     r_value := Some (inject_Z total);
     r_unit := count;
     r_national_percentile := None |}.

(** [ORDER BY value DESC|ASC] of the sum query. *)
Definition sum_leb (p : params) (a b : (string * option string) * Z) : bool :=
  value_leb (is_desc (order p)) (Some (inject_Z (snd a))) (Some (inject_Z (snd b))).

Definition sum_rows (db : database) (p : params) (ids : list string)
    : list RankResult :=
  map sum_result
      (Sql.limit (limit p)
         (order_by (sum_leb p)
            (group_sum group_key_eqb group_key (fun x => estimate (fst x))
               (filter (fun x => sum_where p ids (fst x))
                  (left_join_name db a_geo_id (acs_with_percentiles db)))))).

(** [SELECT COUNT(DISTINCT geo_id) ..] *)
Definition sum_count (db : database) (p : params) (ids : list string) : nat :=
  length (distinct String.eqb
            (map a_geo_id (filter (sum_where p ids) (acs_with_percentiles db)))).

(** The percentile band of the single-metric query. *)
Definition in_band (p : params) (r : acs_row) : bool :=
  Qle_bool (percentile_min p) (national_percentile r) &&
  Qle_bool (national_percentile r) (percentile_max p).

(** [AND p.summary_level = ?] and [AND p.state_fips = ?], bound values. *)
Definition exact_filters (p : params) (r : acs_row) : bool :=
  match given (p_summary_level p) with
  | Some sl => (summary_level r =? sl)%string
  | None => true
  end &&
  match given (p_state_fips p) with
  | Some st => (state_fips r =? st)%string
  | None => true
  end.

(** [p.uid = ?] with [metricIds[0]]; an absent value binds NULL, to which
    nothing is equal. *)
Definition uid_is (first : option string) (r : acs_row) : bool :=
  match first with
  | Some id => (uid r =? id)%string
  | None => false
  end.

(** The WHERE clause of the single-metric query and of its count. *)
Definition direct_where (p : params) (r : acs_row) : bool :=
  uid_is (hd_error (metricIds p)) r && in_band p r &&
  population_group_filter p (a_geo_id r) && exact_filters p r.

Definition direct_result (x : acs_row * option string) : RankResult :=
  {| r_geo_id := a_geo_id (fst x);
     r_name := coalesce_name (snd x) (a_geo_id (fst x));
     r_value := Some (inject_Z (estimate (fst x)));
     r_unit := count;
     r_national_percentile := Some (national_percentile (fst x)) |}.

(** [ORDER BY p.national_percentile DESC|ASC] *)
Definition direct_leb (p : params) (a b : acs_row * option string) : bool :=
  value_leb (is_desc (order p))
            (Some (national_percentile (fst a))) (Some (national_percentile (fst b))).

(** The single-metric query for a given WHERE clause. *)
Definition direct_rows_with (where_ : acs_row -> bool) (db : database) (p : params)
    : list RankResult :=
  map direct_result
      (Sql.limit (limit p)
         (order_by (direct_leb p)
            (filter (fun x => where_ (fst x))
               (left_join_name db a_geo_id (acs_with_percentiles db))))).

Definition direct_rows (db : database) (p : params) : list RankResult :=
  direct_rows_with (direct_where p) db p.

Definition direct_count (db : database) (p : params) : nat :=
  length (filter (direct_where p) (acs_with_percentiles db)).

(** The three branches. *)
Inductive branch : Type := Rate (dens : list string) | Sum | Direct.

Definition branch_of (p : params) : branch :=
  match denominatorIds p with
  | Some dens => Rate dens
  | None => if isCompound p then Sum else Direct
  end.

(** The call, as far as it is followed. The rate and sum queries splice the
    group, the level and the state into their text, the single-metric query
    the group. With a quote in one of them the engine is sent another query
    than the one written; the code runs it, and its answer is not followed
    here: [AlteredQuery] marks those requests, it is not an exception of the
    code. *)
Definition rankAreasByMetric (db : database) (p : params) : outcome RankAreasResult :=
  let ids := metricIds p in
  let label := metricLabel db p in
  match branch_of p with
  | Rate dens =>
      match ids, dens with
      | [], _ | _, [] => Throw SyntaxError
      | _, _ =>
          if spliced_ok p then
            Ok {| metric := label;
                  results := rate_rows db p ids dens;
                  total_matches := rate_count db p ids dens |}
          else Throw AlteredQuery
      end
  | Sum =>
      if spliced_ok p then
        Ok {| metric := label;
              results := sum_rows db p ids;
              total_matches := sum_count db p ids |}
      else Throw AlteredQuery
  | Direct =>
      if quote_free (population_group p) then
        Ok {| metric := label;
              results := direct_rows db p;
              total_matches := direct_count db p |}
      else Throw AlteredQuery
  end.

(** *** Specification-side notions the ranking claims are stated with *)


(** The same request with another percentile band. *)
Definition set_band (p : params) (lo hi : Q) : params :=
  {| metric_id := metric_id p; denominator_id := denominator_id p;
     order := order p;
     percentile_min := lo; percentile_max := hi;
     p_summary_level := p_summary_level p; p_state_fips := p_state_fips p;
     population_group := population_group p;
     min_population := min_population p; limit := limit p |}.

(** The single-metric query with its two percentile conjuncts removed. *)
Definition direct_where_unbanded (p : params) (r : acs_row) : bool :=
  uid_is (hd_error (metricIds p)) r &&
  population_group_filter p (a_geo_id r) && exact_filters p r.

Definition direct_rows_unbanded (db : database) (p : params) : list RankResult :=
  direct_rows_with (direct_where_unbanded p) db p.

(** The sum of the estimates of the observations of one area over a list of
    metric ids. *)
Definition estimate_sum (db : database) (ids : list string) (g : string) : Z :=
  sum_over (fun r => uid_in ids r && (a_geo_id r =? g)%string)
           estimate (acs_with_percentiles db).

(** round(numeratorSum / denominatorSum * 100, 2), on exact numbers: the
    rate in hundredths, halves away from zero. *)
Definition percent_rate (num den : Z) : Q :=
  inject_Z (round_half_away (inject_Z num / inject_Z den * 100 * 100)) / 100.

(** The text of the query of the request's branch is the text written: no
    value spliced into it holds a quote. The rate and sum queries splice the
    group, the level and the state; the single-metric query splices the group
    and binds the other two. *)
Definition text_intact (p : params) : bool :=
  match branch_of p with
  | Direct => quote_free (population_group p)
  | _ => spliced_ok p
  end.


(** The rows and the count, whatever the outcome carries. *)
Definition rows_of (o : outcome RankAreasResult) : list RankResult :=
  match o with Ok r => results r | Throw _ => [] end.


End Rankings.

(** ** Orders on sort keys *)

(** [ORDER BY k1, k2] on pairs of numbers, as a relation. *)
Definition lex_le (a b : nat * nat) : Prop :=
  (fst a < fst b)%nat \/ (fst a = fst b /\ (snd a <= snd b)%nat).

Definition search_key (t : tiger_row) : nat * nat :=
  (Lookup.search_priority (t_geo_id t), String.length (t_name t)).

Definition resolve_key (t : tiger_row) : nat * nat :=
  (Lookup.resolve_priority (t_geo_id t), String.length (t_name t)).

(** ** Sample stores *)
Module Samples.
Import Lookup Rankings.

Definition west : geometry := fun pt => Qle_bool (fst pt) 0.
Definition nowhere : geometry := fun _ => false.

Definition area (g n : string) (b : geometry) : tiger_row :=
  {| t_geo_id := g; t_name := n; t_geom := b |}.

Definition obs (u g : string) (e : Z) (sl st : string) (np : Q) : acs_row :=
  {| uid := u; a_geo_id := g; estimate := e;
     summary_level := sl; state_fips := st; national_percentile := np |}.

Definition tract_key : string := "1400000US06037701000".

Definition store : database :=
  {| tiger_geometries :=
       [ area "0400000US06" "California" west;
         area "0500000US06037" "Los Angeles County, California" west;
         area tract_key "Census Tract 7010, Los Angeles County, California" west;
         area "860Z200US90210" "Unknown" west;
         area "04000A0US06" "California" west;
         area "0400000US39" "Ohio" nowhere;
         area "0400000US19" "Iowa" nowhere ];
     geo_lookup :=
       [ {| g_geo_id := tract_key; g_title := "B01001 Sex by Age";
            g_universe := "Total population"; g_labels_data := "{}" |} ];
     acs_with_percentiles :=
       [ obs "A" "0500000US06037" 10 "050" "06" (1 # 2);
         obs "B" "0500000US06037" 20 "050" "06" (1 # 4);
         obs "C" "0500000US06037" 20000 "050" "06" (3 # 4);
         obs "A" "0500000US06059" 7 "050" "06" (1 # 3);
         obs "C" "0500000US06059" 30000 "050" "06" 1;
         obs "A" "05000A0US06059" 5 "050" "06" (1 # 5);
         obs "C" "05000A0US06059" 25000 "050" "06" (4 # 5) ];
     table_metadata :=
       [ {| m_table_id := "B01001"; unique_id := "A";
            m_label := "Total"; m_title := "B01001 Sex by Age" |} ] |}.

(** A rate request: (A + B) / C over the counties. *)
Definition rate_request : params :=
  {| metric_id := Many ["A"; "B"]; denominator_id := Some (One "C");
     order := desc; percentile_min := 0; percentile_max := 1;
     p_summary_level := Some "050"; p_state_fips := None;
     population_group := "0000"; min_population := 10000; limit := 10 |}.


Definition sum_request : params :=
  {| metric_id := Many ["A"; "B"]; denominator_id := None;
     order := asc; percentile_min := 0; percentile_max := 1;
     p_summary_level := Some "050"; p_state_fips := Some "06";
     population_group := "0000"; min_population := 10000; limit := 10 |}.

Definition direct_request : params :=
  {| metric_id := One "A"; denominator_id := None;
     order := asc; percentile_min := 0; percentile_max := 1;
     p_summary_level := Some "050"; p_state_fips := Some "06";
     population_group := "0000"; min_population := 10000; limit := 10 |}.

(** A tract with a short name and a ZIP area with a longer one, both matching
    the query "elm". *)
Definition elm_store : database :=
  {| tiger_geometries :=
       [ area "1400000US06037701000" "Elm" west;
         area "860Z200US90210" "Elmwood" west ];
     geo_lookup := []; acs_with_percentiles := []; table_metadata := [] |}.

(** One area with 101 different catalog rows. *)
Definition crowded_row (i : nat) : geo_lookup_row :=
  {| g_geo_id := tract_key; g_title := "B01001 Sex by Age";
     g_universe := "Total population"; g_labels_data := nat_to_string i |}.

Definition crowded_store : database :=
  {| tiger_geometries := [ area tract_key "Census Tract 7010" west ];
     geo_lookup := map crowded_row (seq 0 101);
     acs_with_percentiles := []; table_metadata := [] |}.

(** A parser that accepts every text. *)
Definition parse_any (s : string) : option string := Some s.

End Samples.

(** ** The order of a page of searchLocations, read on its rows *)
Module SearchOrder.
Import Lookup.




End SearchOrder.

(** ** The rankings module: listPopulationGroups *)
Module PopulationGroups.
Import Text Sql.

(** Known population group codes and their names. *)
Definition POPULATION_GROUP_NAMES : list (string * string) :=
  [("0000", "Total population");
   ("00A0", "White alone");
   ("00B0", "Black or African American alone");
   ("00C0", "American Indian and Alaska Native alone");
   ("00D0", "Asian alone");
   ("00E0", "Native Hawaiian and Other Pacific Islander alone");
   ("00F0", "Some other race alone");
   ("00G0", "Two or more races");
   ("00H0", "White alone, not Hispanic or Latino");
   ("00I0", "Hispanic or Latino");
   ("C201", "ACS 5-year estimate variant");
   ("C243", "ACS 5-year estimate variant")].

Record PopulationGroup : Type := {
  code : string;
  pg_name : string;
  record_count : nat
}.

(** [WHERE geo_id LIKE '040%'] *)
Definition state_level (r : acs_row) : bool := like "040%" (a_geo_id r).

(** [SELECT SUBSTRING(geo_id, 4, 4) as group_code, COUNT( * ) as record_count
     FROM acs_with_percentiles WHERE geo_id LIKE '040%'
     GROUP BY SUBSTRING(geo_id, 4, 4)] *)
Definition group_counts (db : database) : list (string * nat) :=
  let rows := filter state_level (acs_with_percentiles db) in
  map (fun g => (g, length (filter (fun r => (group_segment (a_geo_id r) =? g)%string) rows)))
      (distinct String.eqb (map (fun r => group_segment (a_geo_id r)) rows)).

(** [ORDER BY record_count DESC] *)
Definition count_desc (a b : string * nat) : bool := (snd b <=? snd a)%nat.

(** [POPULATION_GROUP_NAMES[code] || `Unknown (${code})`] *)
Definition group_name (c : string) : string :=
  Types.lookup_or POPULATION_GROUP_NAMES c ("Unknown (" ++ c ++ ")").

Definition listPopulationGroups (db : database) : list PopulationGroup :=
  map (fun row => {| code := fst row;
                     pg_name := group_name (fst row);
                     record_count := snd row |})
      (order_by count_desc (group_counts db)).

End PopulationGroups.

(** ** db.js: the values a query returns *)
Module Db.

Section Values.
(** A JavaScript number, and [Number(n)] on a BigInt. *)
Variable number : Type.
Variable Number : Z -> number.

(** The values the driver hands back: rows are objects, an object is the
    list of its own entries in order. *)
#[warnings="-register-all"]
Inductive js_value : Type :=
| JNull
| JUndefined
| JBigInt (n : Z)
| JNumber (x : number)
| JString (s : string)
| JBool (b : bool)
| JArray (items : list js_value)
| JObject (entries : list (string * js_value)).

(** Convert BigInt values to Numbers (DuckDB returns BigInt for aggregates). *)
Fixpoint convertBigInts (obj : js_value) : js_value :=
  match obj with
  | JNull => obj
  | JUndefined => obj
  | JBigInt n => JNumber (Number n)
  | JArray items => JArray (map convertBigInts items)
  | JObject entries =>
      JObject (map (fun kv => let '(key, value) := kv in (key, convertBigInts value))
                   entries)
  | _ => obj
  end.

(** Whether a BigInt occurs anywhere in a value. *)
Fixpoint has_bigint (v : js_value) : bool :=
  match v with
  | JBigInt _ => true
  | JArray items => existsb has_bigint items
  | JObject entries =>
      existsb (fun kv => let '(_, value) := kv in has_bigint value) entries
  | _ => false
  end.

(** [results.length > 0 ? results[0] : null] *)
Definition queryOne (results : list js_value) : option js_value := hd_error results.

End Values.

End Db.

(** ** src/tools/exploration.ts *)
Module Exploration.
Import Text Sql Lookup.

(** Topic category keywords for optional filtering. *)
Definition CATEGORY_KEYWORDS : list (string * list string) :=
  [("demographics", ["age"; "sex"; "race"; "ethnic"; "population"; "citizen"]);
   ("income", ["income"; "poverty"; "earnings"; "wage"; "salary"]);
   ("employment", ["employ"; "occupation"; "labor"; "workforce"; "job"; "unemploy"]);
   ("education", ["education"; "school"; "degree"; "college"; "enroll"]);
   ("housing", ["housing"; "rent"; "mortgage"; "home"; "tenure"; "owner"; "vacant"]);
   ("health", ["health"; "disability"; "insurance"; "disab"]);
   ("transportation", ["transport"; "commut"; "travel"; "vehicle"; "car"]);
   ("language", ["language"; "english"; "foreign"; "native"; "immigr"; "birth"]);
   ("internet", ["internet"; "computer"; "broadband"; "device"]);
   ("family", ["family"; "household"; "marital"; "married"; "child"; "fertil"])].

Fixpoint own_keywords (key : string) (table : list (string * list string))
    : option (list string) :=
  match table with
  | [] => None
  | (k, v) :: rest => if (k =? key)%string then Some v else own_keywords key rest
  end.

(** The all-lower-case names every object inherits: [table[name]] is then a
    truthy value that has no [map]. *)
Definition inherited_key (key : string) : bool :=
  (key =? "constructor")%string || (key =? "__proto__")%string.

Inductive direction_kind : Type := high | low.

Record InterestingFact : Type := {
  f_table_id : string;
  f_title : string;
  f_label : string;
  f_estimate : Z;
  f_national_percentile : Q;
  direction : direction_kind;
  description : string
}.

Record InterestingFactsResult : Type := {
  if_geo_id : string;
  if_name : string;
  facts : list InterestingFact
}.

(** The call returns, or throws a TypeError. *)
Inductive call (A : Type) : Type :=
| Returns (a : A)
| TypeError.
Arguments Returns {A} a.
Arguments TypeError {A}.

(** [Math.round]: the nearest integer, halves upwards. *)
Definition Math_round (x : Q) : Z := Qfloor (x + (1 # 2)).

(** An integer inside a template string. *)
Definition int_to_string (z : Z) : string :=
  DecimalString.NilZero.string_of_int (Z.to_int z).

Definition Qlt_bool (x y : Q) : bool := negb (Qle_bool y x).

(** [p.national_percentile > ? OR p.national_percentile < ?] with
    [1 - threshold] and [threshold]. *)
Definition outlier (threshold : Q) (np : Q) : bool :=
  Qlt_bool (1 - threshold) np || Qlt_bool np threshold.

(** [m.title ILIKE ? OR ..] with [%kw%] for every keyword; no conjunct at all
    without keywords. *)
Definition category_filter (keywords : option (list string)) (m : metadata_row) : bool :=
  match keywords with
  | Some kws => existsb (fun kw => ilike ("%" ++ kw ++ "%") (m_title m)) kws
  | None => true
  end.

(** [ORDER BY ABS(p.national_percentile - 0.5) DESC] *)
Definition extremity (np : Q) : Q := Qabs (np - (1 # 2)).

Definition extremity_desc (a b : acs_row * metadata_row) : bool :=
  Qle_bool (extremity (national_percentile (fst b)))
           (extremity (national_percentile (fst a))).

(** [FROM acs_with_percentiles p JOIN table_metadata m ON p.uid = m.unique_id
     WHERE p.geo_id = ? AND (..) <categoryFilter> ORDER BY .. LIMIT ?] *)
Definition outlier_rows (db : database) (geo : string) (threshold : Q)
    (keywords : option (list string)) (limit : nat) : list (acs_row * metadata_row) :=
  Sql.limit limit
    (order_by extremity_desc
       (filter (fun pm : acs_row * metadata_row =>
                  (a_geo_id (fst pm) =? geo)%string &&
                  outlier threshold (national_percentile (fst pm)) &&
                  category_filter keywords (snd pm))
          (flat_map (fun p => map (fun m => (p, m))
                                  (filter (fun m => (uid p =? unique_id m)%string)
                                          (table_metadata db)))
                    (acs_with_percentiles db)))).

Definition to_fact (row : acs_row * metadata_row) : InterestingFact :=
  let np := national_percentile (fst row) in
  let isHigh := Qlt_bool (1 # 2) np in
  let percentileDisplay :=
    if isHigh then Math_round (np * 100) else Math_round ((1 - np) * 100) in
  {| f_table_id := m_table_id (snd row);
     f_title := m_title (snd row);
     f_label := m_label (snd row);
     f_estimate := estimate (fst row);
     f_national_percentile := np;
     direction := if isHigh then high else low;
     description :=
       if isHigh
       then int_to_string percentileDisplay ++ "th percentile nationally (higher than " ++
            int_to_string percentileDisplay ++ "% of areas)"
       else int_to_string (100 - percentileDisplay) ++
            "th percentile nationally (lower than " ++
            int_to_string percentileDisplay ++ "% of areas)" |}.

Definition getInterestingFacts (db : database) (location : string)
    (threshold : Q) (limit : nat) (category : option string)
    : call (option InterestingFactsResult) :=
  match resolveLocation db location None with
  | None => Returns None
  | Some resolved =>
      let answer keywords :=
        Returns (Some {| if_geo_id := geo_id resolved;
                         if_name := name resolved;
                         facts := map to_fact
                                      (outlier_rows db (geo_id resolved) threshold
                                                    keywords limit) |}) in
      match given category with
      | None => answer None
      | Some c =>
          match own_keywords (lower c) CATEGORY_KEYWORDS with
          | Some kws => answer (Some kws)
          | None => if inherited_key (lower c) then TypeError else answer None
          end
      end
  end.

End Exploration.

(** ** More sample stores *)
Module MoreSamples.
Import Samples.

Definition meta (t u l ti : string) : metadata_row :=
  {| m_table_id := t; unique_id := u; m_label := l; m_title := ti |}.

(** One state with a very high, a very low and a middling observation. *)
Definition facts_store : database :=
  {| tiger_geometries :=
       [ area "0400000US06" "California" west;
         area "0400000US39" "Ohio" nowhere ];
     geo_lookup :=
       [ {| g_geo_id := "0400000US06"; g_title := "B25001 Housing Units";
            g_universe := "Housing units"; g_labels_data := "{}" |};
         {| g_geo_id := "0400000US06"; g_title := "B19013 Median Household Income";
            g_universe := "Households"; g_labels_data := "{}" |} ];
     acs_with_percentiles :=
       [ obs "B25001_001" "0400000US06" 14000000 "040" "06" (99 # 100);
         obs "B19013_001" "0400000US06" 30000 "040" "06" (1 # 100);
         obs "B01001_001" "0400000US06" 39000000 "040" "06" (1 # 2);
         obs "B25001_001" "0400000US39" 5000000 "040" "39" (80 # 100);
         obs "B19013_001" "0400000US39" 60000 "040" "39" (45 # 100) ];
     table_metadata :=
       [ meta "B25001" "B25001_001" "Total" "Housing Units";
         meta "B19013" "B19013_001" "Median household income" "Median Household Income";
         meta "B01001" "B01001_001" "Total" "Sex by Age" ] |}.

End MoreSamples.

(** ** src/tools/summaries.ts *)
Module Summaries.
Import Text Sql Lookup.

Record AreaSummaryResult : Type := {
  as_geo_id : string;
  as_name : string;
  as_summary_level : string;
  land_area_sq_miles : Q;
  tables : list TableData
}.

Record ComparisonMetric : Type := {
  cm_metric_id : string;
  cm_label : string;
  value_a : Z;
  value_b : Z;
  percentile_a : Q;
  percentile_b : Q
}.

Record CompareAreasResult : Type := {
  area_a : GeoLocation;
  area_b : GeoLocation;
  comparisons : list ComparisonMetric
}.

(** Square meters to square miles conversion: [2.59e6]. *)
Definition SQ_METERS_TO_SQ_MILES : Double.double := Double.of_Z 2590000.

(** [Math.round(x * 100) / 100], on JavaScript numbers. *)
Definition round_hundredths (x : Double.double) : Double.double :=
  Double.div (Double.Math_round (Double.mul x (Double.of_Z 100))) (Double.of_Z 100).

Section Columns.
(** Two columns that the row records do not carry, as functions of the row:
    [aland] of tiger_geometries and [table_id] of acs_with_percentiles. *)
Variable aland : tiger_row -> Z.
Variable a_table_id : acs_row -> string.
Variable JSON_parse : string -> option string.

(** [SELECT aland FROM tiger_geometries WHERE geo_id = ?] *)
Definition areaResult (db : database) (g : string) : list Z :=
  map aland (filter (fun t => (t_geo_id t =? g)%string) (tiger_geometries db)).

Definition getAreaSummary (db : database) (location : string)
    (tables : option (list string)) : outcome (option AreaSummaryResult) :=
  match resolveLocation db location None with
  | None => Ok None
  | Some resolved =>
      let summaryLevel := getSummaryLevel (geo_id resolved) in
      let landAreaSqMiles :=
        match areaResult db (geo_id resolved) with
        | a :: _ => Double.div (Double.of_Z a) SQ_METERS_TO_SQ_MILES
        | [] => Double.of_Z 0
        end in
      await tableData <- map_data JSON_parse (data_rows db (geo_id resolved) tables);
      Ok (Some {| as_geo_id := geo_id resolved;
                  as_name := name resolved;
                  as_summary_level := summaryLevel;
                  land_area_sq_miles := Double.to_Q (round_hundredths landAreaSqMiles);
                  tables := tableData |})
  end.

(** [AND a.uid IN (..)] for a non-empty [metric_ids], else
    [AND a.table_id IN (..)] for a non-empty [table_ids], else nothing. *)
Definition metric_filter (metric_ids table_ids : option (list string))
    (a : acs_row) : bool :=
  match metric_ids with
  | Some ((_ :: _) as ids) => mem String.eqb (uid a) ids
  | _ =>
      match table_ids with
      | Some ((_ :: _) as ts) => mem String.eqb (a_table_id a) ts
      | _ => true
      end
  end.

(** [FROM acs_with_percentiles a JOIN acs_with_percentiles b ON a.uid = b.uid
     JOIN table_metadata m ON a.uid = m.unique_id
     WHERE a.geo_id = ? AND b.geo_id = ? <metricFilter> LIMIT 100] *)
Definition comparisonResults (db : database) (ga gb : string)
    (metric_ids table_ids : option (list string))
    : list (acs_row * acs_row * metadata_row) :=
  Sql.limit 100
    (filter (fun x : acs_row * acs_row * metadata_row =>
               let '(a, b, _) := x in
               (a_geo_id a =? ga)%string && (a_geo_id b =? gb)%string &&
               metric_filter metric_ids table_ids a)
       (flat_map
          (fun ab : acs_row * acs_row =>
             map (fun m => (ab, m))
                 (filter (fun m => (uid (fst ab) =? unique_id m)%string)
                         (table_metadata db)))
          (flat_map
             (fun a => map (fun b => (a, b))
                           (filter (fun b => (uid a =? uid b)%string)
                                   (acs_with_percentiles db)))
             (acs_with_percentiles db)))).

Definition to_comparison (x : acs_row * acs_row * metadata_row) : ComparisonMetric :=
  let '(a, b, m) := x in
  {| cm_metric_id := uid a;
     cm_label := m_label m;
     value_a := estimate a;
     value_b := estimate b;
     percentile_a := national_percentile a;
     percentile_b := national_percentile b |}.

Definition compareAreas (db : database) (location_a location_b : string)
    (metric_ids table_ids : option (list string)) : option CompareAreasResult :=
  match resolveLocation db location_a None, resolveLocation db location_b None with
  | Some resolvedA, Some resolvedB =>
      Some {| area_a := {| geo_id := geo_id resolvedA; name := name resolvedA |};
              area_b := {| geo_id := geo_id resolvedB; name := name resolvedB |};
              comparisons :=
                map to_comparison
                    (comparisonResults db (geo_id resolvedA) (geo_id resolvedB)
                                       metric_ids table_ids) |}
  | _, _ => None
  end.

End Columns.

End Summaries.

(** ** dist/tools/discovery.js *)
Module Discovery.
Import Text Sql.

(** [s.split(sep)] for a separator of two characters [c1 c2]. *)
Fixpoint split2_from (c1 c2 : ascii) (s acc : string) : list string :=
  match s with
  | EmptyString => [acc]
  | String c s' =>
      if (c =? c1)%char then
        match s' with
        | String d s'' =>
            if (d =? c2)%char then acc :: split2_from c1 c2 s'' EmptyString
            else split2_from c1 c2 s' (acc ++ String c EmptyString)
        | EmptyString => [acc ++ String c EmptyString]
        end
      else split2_from c1 c2 s' (acc ++ String c EmptyString)
  end.

Definition split2 (c1 c2 : ascii) (s : string) : list string :=
  split2_from c1 c2 s EmptyString.

(** [s.split(/\s+/)]: cut at every run of white space. *)
Fixpoint split_space_from (s acc : string) (gap : bool) : list string :=
  match s with
  | EmptyString => [acc]
  | String c s' =>
      if is_space c then
        if gap then split_space_from s' EmptyString true
        else acc :: split_space_from s' EmptyString true
      else split_space_from s' (acc ++ String c EmptyString) false
  end.

(** [searchQuery.trim().split(/\s+/).filter((w) => w.length > 0)] *)
Definition words_of (searchQuery : string) : list string :=
  filter (fun w => negb (String.length w =? 0)%nat)
         (split_space_from (trim searchQuery) EmptyString false).

(** [STRING_AGG(DISTINCT x, sep ORDER BY x)] over the values of a group. *)
Definition sorted_distinct (l : list string) : list string :=
  order_by String.leb (distinct String.eqb l).

(** [examples ? examples.split(', ').slice(0, 3) : []] *)
Definition example_list (examples : string) : list string :=
  if truthy examples then firstn 3 (split2 "," " " examples) else [].

(** [MAX(x)] over the non-empty list of the values of a group. *)
Definition max_string (l : list string) : string :=
  fold_right (fun x m => if String.leb x m then m else x) EmptyString l.

(** Topic category definitions with keywords for matching. *)
Definition TOPIC_CATEGORIES : list (string * (string * list string)) :=
  [("demographics", ("Demographics",
      ["age"; "sex"; "race"; "ethnic"; "population"; "citizen"]));
   ("income_poverty", ("Income & Poverty",
      ["income"; "poverty"; "earnings"; "wage"; "salary"]));
   ("employment", ("Employment & Occupation",
      ["employ"; "occupation"; "labor"; "workforce"; "job"; "unemploy"]));
   ("education", ("Education",
      ["education"; "school"; "degree"; "college"; "enroll"]));
   ("housing", ("Housing & Rent",
      ["housing"; "rent"; "mortgage"; "home"; "tenure"; "owner"; "vacant"]));
   ("health_disability", ("Health & Disability",
      ["health"; "disability"; "insurance"; "disab"]));
   ("transportation", ("Transportation & Commuting",
      ["transport"; "commut"; "travel"; "vehicle"; "car"]));
   ("language_immigration", ("Language & Immigration",
      ["language"; "english"; "foreign"; "native"; "immigr"; "birth"]));
   ("internet", ("Internet & Computer Access",
      ["internet"; "computer"; "broadband"; "device"]));
   ("family", ("Family & Household Structure",
      ["family"; "household"; "marital"; "married"; "child"; "fertil"]))].

Record Topic : Type := {
  topic_name : string;
  topic_description : string;
  table_count : nat;
  example_tables : list string
}.

(** [title ILIKE ? OR ..] with [%kw%] for every keyword. *)
Definition title_has (keywords : list string) (m : metadata_row) : bool :=
  existsb (fun kw => ilike ("%" ++ kw ++ "%") (m_title m)) keywords.

(** The table ids of a topic: [COUNT(DISTINCT table_id)] counts them,
    [STRING_AGG(DISTINCT table_id, ', ' ORDER BY table_id)] lists them. *)
Definition topic_tables (db : database) (keywords : list string) : list string :=
  sorted_distinct (map m_table_id (filter (title_has keywords) (table_metadata db))).

Definition listTopics (db : database) : list Topic :=
  map (fun entry : string * (string * list string) =>
         let category := snd entry in
         let ids := topic_tables db (snd category) in
         {| topic_name := fst category;
            topic_description := "Tables related to " ++ lower (fst category);
            table_count := length ids;
            example_tables := example_list (String.concat ", " ids) |})
      TOPIC_CATEGORIES.

Record SearchResult : Type := {
  sr_table_id : string;
  sr_title : string;
  sr_universe : string;
  matching_labels : list string
}.

Record SearchDataResult : Type := {
  sd_query : string;
  sd_results : list SearchResult;
  sd_total_matches : nat
}.

Record TableLabel : Type := {
  tl_unique_id : string;
  tl_line : Q;
  tl_label : string
}.

Record DescribeTableResult : Type := {
  dt_table_id : string;
  dt_title : string;
  dt_universe : string;
  labels : list TableLabel
}.

Record UniverseInfo : Type := {
  ui_universe : string;
  ui_table_count : nat;
  ui_example_tables : list string
}.

Record ListUniversesResult : Type := {
  universes : list UniverseInfo;
  lu_total_count : nat
}.

Section Columns.
(** Two columns of table_metadata that the row records do not carry, as
    functions of the row: [universe] and [line]. *)
Variable m_universe : metadata_row -> string.
Variable m_line : metadata_row -> Q.

(** [SELECT universe, COUNT(DISTINCT table_id), STRING_AGG(DISTINCT table_id,
     ', ' ORDER BY table_id) FROM table_metadata GROUP BY universe] *)
Definition universe_groups (db : database) : list (string * list string) :=
  map (fun u => (u, sorted_distinct
                      (map m_table_id
                           (filter (fun m => (m_universe m =? u)%string)
                                   (table_metadata db)))))
      (distinct String.eqb (map m_universe (table_metadata db))).

(** [ORDER BY table_count DESC] *)
Definition tables_desc (a b : string * list string) : bool :=
  (length (snd b) <=? length (snd a))%nat.

Definition listUniverses (db : database) (limit : nat) : ListUniversesResult :=
  let results := Sql.limit limit (order_by tables_desc (universe_groups db)) in
  {| universes :=
       map (fun row : string * list string =>
              {| ui_universe := fst row;
                 ui_table_count := length (snd row);
                 ui_example_tables := example_list (String.concat ", " (snd row)) |})
           results;
     lu_total_count := length results |}.

(** One word of the query against the four searched columns. *)
Definition word_in_row (w : string) (m : metadata_row) : bool :=
  ilike ("%" ++ w ++ "%") (m_table_id m) ||
  ilike ("%" ++ w ++ "%") (m_title m) ||
  ilike ("%" ++ w ++ "%") (m_universe m) ||
  ilike ("%" ++ w ++ "%") (m_label m).

(** The WHERE clause: any word in any column. *)
Definition row_matches (words : list string) (m : metadata_row) : bool :=
  existsb (fun w => word_in_row w m) words.

(** The FILTER of the label aggregate: any word in the label. *)
Definition label_matches (words : list string) (l : string) : bool :=
  existsb (fun w => ilike ("%" ++ w ++ "%") l) words.

(** One group of [GROUP BY table_id]: the id, [MAX(title)], [MAX(universe)]
    and the aggregate of the matching labels ("" for NULL). *)
Definition search_group (db : database) (words : list string) (t : string)
    : string * string * string * string :=
  let rows := filter (fun m => row_matches words m && (m_table_id m =? t)%string)
                     (table_metadata db) in
  (t, max_string (map m_title rows), max_string (map m_universe rows),
   String.concat "; " (distinct String.eqb (filter (label_matches words) (map m_label rows)))).

(** The table ids with a matching row. *)
Definition matching_tables (db : database) (words : list string) : list string :=
  distinct String.eqb (map m_table_id (filter (row_matches words) (table_metadata db))).

(** [CASE WHEN table_id ILIKE .. THEN 0 WHEN MAX(title) ILIKE .. THEN 1
     ELSE 2 END] on the first word. *)
Definition search_rank (first : string) (g : string * string * string * string) : nat :=
  let '(t, title, _, _) := g in
  if ilike ("%" ++ first ++ "%") t then 0
  else if ilike ("%" ++ first ++ "%") title then 1
  else 2.

(** [ORDER BY CASE .. END, table_id] *)
Definition search_group_leb (first : string) (a b : string * string * string * string)
    : bool :=
  let ka := search_rank first a in
  let kb := search_rank first b in
  (ka <? kb)%nat ||
  ((ka =? kb)%nat && String.leb (fst (fst (fst a))) (fst (fst (fst b)))).

Definition searchData (db : database) (searchQuery : string) (limit : nat)
    : SearchDataResult :=
  match words_of searchQuery with
  | [] => {| sd_query := searchQuery; sd_results := []; sd_total_matches := 0 |}
  | (first :: _) as words =>
      let results :=
        Sql.limit limit
          (order_by (search_group_leb first)
             (map (search_group db words) (matching_tables db words))) in
      {| sd_query := searchQuery;
         sd_results :=
           map (fun row : string * string * string * string =>
                  let '(t, title, universe, labels) := row in
                  {| sr_table_id := t;
                     sr_title := title;
                     sr_universe := universe;
                     matching_labels :=
                       if truthy labels then firstn 5 (split2 ";" " " labels) else [] |})
               results;
         sd_total_matches := length (matching_tables db words) |}
  end.

(** [ORDER BY line] *)
Definition line_leb (a b : metadata_row) : bool := Qle_bool (m_line a) (m_line b).

Definition describeTable (db : database) (tableId : string)
    : option DescribeTableResult :=
  match order_by line_leb
          (filter (fun m => (m_table_id m =? tableId)%string) (table_metadata db)) with
  | [] => None
  | (first :: _) as results =>
      Some {| dt_table_id := m_table_id first;
              dt_title := m_title first;
              dt_universe := m_universe first;
              labels := map (fun row => {| tl_unique_id := unique_id row;
                                           tl_line := m_line row;
                                           tl_label := m_label row |})
                            results |}
  end.

End Columns.

End Discovery.

(** ** Notions the discovery facts are stated with *)
Module DiscoveryTerms.
Import Text Discovery.

(** The rank the search orders a result by: 0 when its table id holds the
    first word, 1 when its title does, 2 otherwise. *)
Definition result_rank (first : string) (r : SearchResult) : nat :=
  if ilike ("%" ++ first ++ "%") (sr_table_id r) then 0
  else if ilike ("%" ++ first ++ "%") (sr_title r) then 1
  else 2.

(** [a] may stand before [b] in the results of a search. *)
Definition result_before (first : string) (a b : SearchResult) : Prop :=
  (result_rank first a < result_rank first b)%nat \/
  (result_rank first a = result_rank first b /\
   String.leb (sr_table_id a) (sr_table_id b) = true).

(** Every character of [s] is white space. *)
Fixpoint blank (s : string) : bool :=
  match s with
  | EmptyString => true
  | String c s' => is_space c && blank s'
  end.

(** No character of [s] is white space. *)
Fixpoint spaceless (s : string) : bool :=
  match s with
  | EmptyString => true
  | String c s' => negb (is_space c) && spaceless s'
  end.

(** The characters of [s] that are not white space, in order. *)
Fixpoint letters (s : string) : string :=
  match s with
  | EmptyString => EmptyString
  | String c s' => if is_space c then letters s' else String c (letters s')
  end.

(** The character [c] does not occur in [s]. *)
Fixpoint char_free (c : ascii) (s : string) : bool :=
  match s with
  | EmptyString => true
  | String d s' => negb (d =? c)%char && char_free c s'
  end.

(** A table id that survives the joining with ", " and the splitting again. *)
Definition plain_id (s : string) : bool :=
  char_free "," s && negb (String.length s =? 0)%nat.

End DiscoveryTerms.

(** * Facts *)

(** ** ORDER BY and LIMIT *)
Module SqlFacts.
Import Sql.

Section OrderFacts.
Context {A : Type}.
Variable leb : A -> A -> bool.

Lemma insert_row_perm (x : A) (l : list A) :
  Permutation (insert_row leb x l) (x :: l).
Proof.
  induction l as [|y l IH]; simpl; [reflexivity|].
  destruct (leb x y); [reflexivity|].
  rewrite IH. apply perm_swap.
Qed.

Lemma order_by_perm (l : list A) : Permutation (order_by leb l) l.
Proof.
  induction l as [|x l IH]; simpl; [constructor|].
  rewrite insert_row_perm. now constructor.
Qed.

Lemma order_by_In (x : A) (l : list A) : In x (order_by leb l) <-> In x l.
Proof.
  split; apply Permutation_in; [|symmetry]; apply order_by_perm.
Qed.

Lemma order_by_length (l : list A) : length (order_by leb l) = length l.
Proof. apply Permutation_length, order_by_perm. Qed.

Lemma order_by_nil (l : list A) : order_by leb l = [] -> l = [].
Proof.
  intros H. apply length_zero_iff_nil.
  rewrite <- order_by_length, H. reflexivity.
Qed.

Lemma order_by_head_In (l : list A) (h : A) (t : list A) :
  order_by leb l = h :: t -> In h l.
Proof.
  intros H. apply order_by_In. rewrite H. now left.
Qed.

(** Sortedness needs only that two rows always compare one way or the
    other. *)
Hypothesis leb_total : forall a b, leb a b = false -> leb b a = true.

Lemma insert_row_sorted (x : A) (l : list A) :
  Sorted (fun a b => leb a b = true) l ->
  Sorted (fun a b => leb a b = true) (insert_row leb x l).
Proof.
  induction 1 as [|y l Hs IH Hhd]; simpl.
  - repeat constructor.
  - destruct (leb x y) eqn:E.
    + constructor; [constructor; assumption|]. now constructor.
    + constructor; [assumption|].
      destruct l as [|z l]; simpl in *.
      * constructor. now apply leb_total.
      * destruct (leb x z); constructor;
          [now apply leb_total | now inversion Hhd].
Qed.

Lemma order_by_sorted (l : list A) :
  Sorted (fun a b => leb a b = true) (order_by leb l).
Proof.
  induction l; simpl; [constructor | now apply insert_row_sorted].
Qed.

(** The first row is least for every key the comparison refines. *)
Section Key.
Context {K : Type}.
Variable key : A -> K.
Variable le : K -> K -> Prop.
Hypothesis le_refl : forall k, le k k.
Hypothesis le_trans : forall a b c, le a b -> le b c -> le a c.
Hypothesis leb_le : forall a b, leb a b = true -> le (key a) (key b).

Lemma insert_row_head (x : A) (l : list A) (h : A) (t : list A) :
  (forall h0 t0, l = h0 :: t0 -> forall y, In y l -> le (key h0) (key y)) ->
  insert_row leb x l = h :: t ->
  forall y, In y (x :: l) -> le (key h) (key y).
Proof.
  intros Hmin Hins y Hy.
  destruct l as [|z l]; simpl in Hins.
  - injection Hins as <- <-. destruct Hy as [<-|[]]. apply le_refl.
  - specialize (Hmin z l eq_refl).
    destruct (leb x z) eqn:E; injection Hins as <- <-.
    + destruct Hy as [<-|Hy]; [apply le_refl|].
      eapply le_trans; [apply leb_le, E | now apply Hmin].
    + destruct Hy as [<-|Hy]; [|now apply Hmin].
      apply leb_le, leb_total, E.
Qed.

Lemma order_by_head (l : list A) (h : A) (t : list A) :
  order_by leb l = h :: t ->
  forall y, In y l -> le (key h) (key y).
Proof.
  revert h t. induction l as [|x l IH]; intros h t Hs y Hy; [destruct Hy|].
  simpl in Hs.
  assert (Hin : In y (x :: order_by leb l)).
  { destruct Hy as [->|Hy]; [now left | right; now apply order_by_In]. }
  eapply insert_row_head; [| exact Hs | exact Hin].
  intros h0 t0 E z Hz. eapply IH; [exact E | now apply order_by_In].
Qed.

End Key.

End OrderFacts.

Lemma limit_In {A : Type} (n : nat) (l : list A) (x : A) :
  In x (limit n l) -> In x l.
Proof.
  unfold limit. revert l; induction n; intros [|y l]; simpl; try tauto.
  intros [->|H]; [now left | right; now apply IHn].
Qed.

Lemma limit_length {A : Type} (n : nat) (l : list A) :
  length (limit n l) = Nat.min n (length l).
Proof. apply length_firstn. Qed.

Lemma limit_all {A : Type} (n : nat) (l : list A) :
  (length l <= n)%nat -> limit n l = l.
Proof. apply firstn_all2. Qed.

Lemma limit_sorted {A : Type} (R : A -> A -> Prop) (n : nat) (l : list A) :
  Sorted R l -> Sorted R (limit n l).
Proof.
  unfold limit. intros H. revert n.
  induction H as [|x l Hs IH Hhd]; intros [|n]; simpl; try constructor.
  - apply IH.
  - destruct Hhd; destruct n; simpl; constructor; assumption.
Qed.

Lemma map_sorted {A B : Type} (f : A -> B) (R : B -> B -> Prop) (l : list A) :
  Sorted (fun a b => R (f a) (f b)) l -> Sorted R (map f l).
Proof.
  induction 1 as [|x l Hs IH Hhd]; simpl; constructor; [assumption|].
  destruct Hhd; simpl; constructor; assumption.
Qed.

Lemma limit_head {A : Type} (n : nat) (l : list A) (h : A) (t : list A) :
  limit n l = h :: t -> exists t', l = h :: t'.
Proof.
  unfold limit. destruct n, l; simpl; try discriminate.
  intros H; injection H as <- _. now eexists.
Qed.

End SqlFacts.

(** ** DISTINCT and GROUP BY *)
Module DistinctFacts.
Import Sql.

Section Distinct.
Context {A : Type}.
Variable eqb : A -> A -> bool.
Hypothesis eqb_eq : forall a b, eqb a b = true <-> a = b.

Lemma mem_In (x : A) (l : list A) : mem eqb x l = true <-> In x l.
Proof.
  unfold mem. rewrite existsb_exists. split.
  - intros [y [Hy E]]. apply eqb_eq in E. now subst.
  - intros H. exists x. split; [assumption | now apply eqb_eq].
Qed.

Lemma distinct_from_In (x : A) (l seen : list A) :
  In x (distinct_from eqb seen l) <-> In x l /\ ~ In x seen.
Proof.
  revert seen. induction l as [|y l IH]; intros seen; simpl; [tauto|].
  destruct (mem eqb y seen) eqn:E.
  - apply mem_In in E. rewrite IH. split.
    + intros [H1 H2]. tauto.
    + intros [[->|H1] H2]; tauto.
  - assert (Hy : ~ In y seen).
    { intros H. apply mem_In in H. congruence. }
    simpl. rewrite IH. simpl. split.
    + intros [->|[H1 H2]]; tauto.
    + intros [[->|H1] H2]; [now left|].
      destruct (eqb y x) eqn:Eyx.
      * apply eqb_eq in Eyx. now left.
      * right. split; [assumption|]. intros [->|H]; [|tauto].
        assert (eqb x x = true) by now apply eqb_eq. congruence.
Qed.

Lemma distinct_In (x : A) (l : list A) : In x (distinct eqb l) <-> In x l.
Proof. unfold distinct. rewrite distinct_from_In. simpl. tauto. Qed.

Lemma distinct_from_NoDup (l seen : list A) : NoDup (distinct_from eqb seen l).
Proof.
  revert seen. induction l as [|y l IH]; intros seen; simpl; [constructor|].
  destruct (mem eqb y seen); [apply IH|].
  constructor; [|apply IH].
  rewrite distinct_from_In. simpl. tauto.
Qed.

Lemma distinct_NoDup (l : list A) : NoDup (distinct eqb l).
Proof. apply distinct_from_NoDup. Qed.

End Distinct.

End DistinctFacts.

(** ** Patterns and keys *)
Module TextFacts.
Import Text.

Lemma prefix_cons (a b : ascii) (p s : string) :
  prefix (String a p) (String b s) = if ascii_dec a b then prefix p s else false.
Proof. reflexivity. Qed.

Lemma includes_cons (t : string) (c : ascii) (s : string) :
  includes t (String c s) = prefix t (String c s) || includes t s.
Proof. reflexivity. Qed.

Lemma like_percent (s : string) : like "%" s = true.
Proof. induction s as [|c s IH]; simpl; [reflexivity | exact IH]. Qed.

Lemma like_cons_literal (c : ascii) (p s : string) :
  is_wildcard c = false ->
  like (String c p) s =
  match s with
  | EmptyString => false
  | String d s' => (c =? d)%char && like p s'
  end.
Proof.
  unfold is_wildcard. intros H. apply orb_false_iff in H as [H1 H2].
  simpl. rewrite H1, H2. reflexivity.
Qed.

(** A pattern [l%] with no wildcard in [l] is a prefix test. *)
Lemma like_prefix (l s : string) :
  wildcard_free l = true -> like (l ++ "%") s = prefix l s.
Proof.
  revert s. induction l as [|c l IH]; intros s H.
  - simpl append. rewrite like_percent. now destruct s.
  - simpl in H. apply andb_true_iff in H as [Hc Hl].
    apply negb_true_iff in Hc.
    change (String c l ++ "%") with (String c (l ++ "%")).
    rewrite like_cons_literal by assumption.
    destruct s as [|d s]; [reflexivity|].
    rewrite prefix_cons.
    destruct (ascii_dec c d) as [->|Hne].
    + rewrite Ascii.eqb_refl. simpl. now apply IH.
    + apply Ascii.eqb_neq in Hne. now rewrite Hne.
Qed.

Lemma like_star (p s : string) :
  like (String "%" p) s =
  like p s || match s with
              | EmptyString => false
              | String _ s' => like (String "%" p) s'
              end.
Proof. destruct s; reflexivity. Qed.

(** A pattern [%l%] with no wildcard in [l] is a substring test. *)
Lemma like_contains (l s : string) :
  wildcard_free l = true -> like ("%" ++ (l ++ "%")) s = includes l s.
Proof.
  intros H. change ("%" ++ (l ++ "%")) with (String "%" (l ++ "%")).
  induction s as [|d s IH].
  - rewrite like_star, like_prefix by assumption. reflexivity.
  - rewrite like_star, like_prefix, includes_cons by assumption.
    now rewrite IH.
Qed.

Lemma all_digits_no_US (s : string) :
  all_digits s = true -> includes "US" s = false.
Proof.
  induction s as [|c s IH]; intros H; [reflexivity|].
  simpl in H. apply andb_true_iff in H as [Hc Hs].
  rewrite includes_cons, (IH Hs), orb_false_r, prefix_cons.
  destruct (ascii_dec "U" c) as [<-|]; [discriminate Hc | reflexivity].
Qed.

Lemma five_digits_not_key (s : string) :
  five_digits s = true -> starts_with_digit s && includes "US" s = false.
Proof.
  unfold five_digits. intros H. apply andb_true_iff in H as [_ H].
  rewrite (all_digits_no_US _ H). apply andb_false_r.
Qed.

(** After the zeros come the marker and digits only: the marker cannot sit
    anywhere else. *)
Lemma zeros_then_US_marker (s : string) :
  Lookup.zeros_then_US s = true ->
  forall n, substring n 2 s = "US" ->
  substring 0 n s = substring 0 n (string_of_list_ascii (repeat "0"%char n)).
Proof.
  induction s as [|c s IH]; simpl; [discriminate|].
  intros H n Hn.
  destruct (Ascii.eqb_spec c "0") as [->|Hc0].
  - destruct n as [|n]; [discriminate Hn|].
    simpl in Hn |- *. f_equal. now apply IH.
  - destruct (Ascii.eqb_spec c "U") as [->|HcU]; [|discriminate].
    destruct s as [|d rest]; [discriminate|].
    apply andb_true_iff in H as [H Hd]. apply andb_true_iff in H as [HS _].
    apply Ascii.eqb_eq in HS. subst d.
    destruct n as [|n]; [reflexivity|]. exfalso.
    destruct n as [|n].
    + simpl in Hn. discriminate Hn.
    + simpl in Hn. clear - Hd Hn. revert n Hn.
      induction rest as [|e rest IHr]; intros n Hn.
      * destruct n; discriminate Hn.
      * simpl in Hd. apply andb_true_iff in Hd as [He Hr].
        destruct n as [|n]; simpl in Hn.
        -- destruct rest; [discriminate Hn|].
           injection Hn as -> _. discriminate He.
        -- now apply (IHr Hr n).
Qed.

(** On a key of the fixed format the canonical pattern forces the group
    "0000". *)
Lemma canonical_group (g : string) :
  Lookup.canonical_geo_id g = true ->
  well_formed_key g = true ->
  group_segment g = "0000".
Proof.
  unfold Lookup.canonical_geo_id, well_formed_key, group_segment.
  destruct g as [|a [|b [|c [|z rest]]]]; try discriminate.
  intros H Hw. apply String.eqb_eq in Hw.
  repeat (apply andb_true_iff in H as [H ?]).
  match goal with Hz : (z =? "0")%char = true |- _ => apply Ascii.eqb_eq in Hz; subst z end.
  match goal with Hr : Lookup.zeros_then_US rest = true |- _ =>
    pose proof (zeros_then_US_marker rest Hr 3 Hw) as E end.
  simpl in E |- *. now rewrite E.
Qed.

End TextFacts.

(** ** Location resolution *)
Module LookupFacts.
Import Text Sql Types Lookup SqlFacts DistinctFacts TextFacts.
Local Open Scope nat_scope.

Lemma by_geo_id_nonempty (db : database) (g : string) :
  (exists t, In t (tiger_geometries db) /\ t_geo_id t = g) ->
  by_geo_id db g <> [].
Proof.
  intros [t [Hin Hg]] E. unfold by_geo_id in E.
  apply map_eq_nil in E.
  assert (Hf : In t (filter (fun t => (t_geo_id t =? g)%string) (tiger_geometries db))).
  { apply filter_In. split; [assumption|]. now apply String.eqb_eq. }
  rewrite E in Hf. destruct Hf.
Qed.

(** C3. A five-digit input (after trimming) whose ZIP-equivalent key
    "860Z200US" + digits is in the catalog resolves to exactly that key, with
    the digits as the display name, whatever the level hint. *)
Theorem resolveLocation_zip (db : database) (input : string)
    (summaryLevel : option string) :
  five_digits (trim input) = true ->
  (exists t, In t (tiger_geometries db) /\
             t_geo_id t = "860Z200US" ++ trim input) ->
  resolveLocation db input summaryLevel =
  Some {| geo_id := "860Z200US" ++ trim input; name := trim input |}.
Proof.
  intros H5 Hex. unfold resolveLocation.
  rewrite (five_digits_not_key _ H5), H5.
  destruct (by_geo_id db ("860Z200US" ++ trim input)) eqn:E; [|reflexivity].
  exfalso. now apply (by_geo_id_nonempty db _ Hex).
Qed.

Lemma resolveLocation_zip_witness :
  resolveLocation Samples.store " 90210 " (Some "state") =
  Some {| geo_id := "860Z200US90210"; name := "90210" |}.
Proof.
  apply (resolveLocation_zip Samples.store " 90210 " (Some "state")).
  - reflexivity.
  - exists (Samples.area "860Z200US90210" "Unknown" Samples.west).
    split; [|reflexivity]. simpl. tauto.
Defined.

Lemma name_leb_total (a b : tiger_row) :
  name_leb a b = false -> name_leb b a = true.
Proof.
  unfold name_leb. intros H.
  destruct (String.leb_total (t_name a) (t_name b)); congruence.
Qed.

(** C5. On a catalog whose keys have the fixed format, every key returned by
    listGeographies has the group segment "0000", and the rows are in
    ascending order of display name. *)
Theorem listGeographies_canonical_sorted (db : database) (summaryLevel : string)
    (parentGeoId : option string) (limit : nat) :
  (forall t, In t (tiger_geometries db) -> well_formed_key (t_geo_id t) = true) ->
  (forall r, In r (lg_results (listGeographies db summaryLevel parentGeoId limit)) ->
             group_segment (geo_id r) = "0000") /\
  Sorted (fun a b => String.leb (name a) (name b) = true)
         (lg_results (listGeographies db summaryLevel parentGeoId limit)).
Proof.
  intros Hwf. unfold listGeographies. cbn [lg_results]. split.
  - intros r Hr. apply in_map_iff in Hr as [t [<- Ht]].
    apply limit_In, order_by_In, filter_In in Ht as [Hin Hm].
    unfold list_matches in Hm. apply andb_true_iff in Hm as [_ Hc].
    apply canonical_group; [exact Hc | now apply Hwf].
  - apply map_sorted, limit_sorted.
    apply (order_by_sorted name_leb name_leb_total).
Qed.

Lemma listGeographies_canonical_sorted_witness :
  (forall r, In r (lg_results (listGeographies Samples.store "state" None 10)) ->
             group_segment (geo_id r) = "0000") /\
  Sorted (fun a b => String.leb (name a) (name b) = true)
         (lg_results (listGeographies Samples.store "state" None 10)).
Proof.
  apply (listGeographies_canonical_sorted Samples.store "state" None 10).
  intros t Ht. simpl in Ht.
  repeat (destruct Ht as [<-|Ht]; [reflexivity|]). destruct Ht.
Defined.

(** *** lookupLocation: the area that is selected *)

Ltac level_patterns :=
  change (like "040%") with (like ("040" ++ "%"));
  change (like "050%") with (like ("050" ++ "%"));
  change (like "140%") with (like ("140" ++ "%"));
  change (like "150%") with (like ("150" ++ "%"));
  change (like "310%") with (like ("310" ++ "%"));
  change (like "860%") with (like ("860" ++ "%"));
  rewrite ?like_prefix by reflexivity.



Lemma specificity_leb_total (a b : tiger_row) :
  specificity_leb a b = false -> specificity_leb b a = true.
Proof.
  unfold specificity_leb. intros H.
  apply Nat.leb_gt in H. apply Nat.leb_le. lia.
Qed.


(** The first row of the point query is a containing area of least
    specificity number. *)
Lemma geoResults_head (db : database) (lat lon : Q) :
  containing db lat lon <> [] ->
  exists t rest,
    order_by specificity_leb (containing db lat lon) = t :: rest /\
    In t (containing db lat lon) /\
    forall t', In t' (containing db lat lon) ->
               (specificity (t_geo_id t) <= specificity (t_geo_id t'))%nat.
Proof.
  intros Hne.
  destruct (order_by specificity_leb (containing db lat lon)) as [|t rest] eqn:E.
  - now apply order_by_nil in E.
  - exists t, rest. split; [reflexivity|]. split.
    + eapply order_by_head_In, E.
    + intros t' Ht'.
      apply (order_by_head specificity_leb specificity_leb_total
               (fun t => specificity (t_geo_id t)) le
               Nat.le_refl Nat.le_trans) with (l := containing db lat lon) (t := rest);
        [| exact E | exact Ht'].
      intros a b Hab. now apply Nat.leb_le.
Qed.






(** *** lookupLocation: the data that is attached *)

Lemma data_eqb_eq (a b : string * string * string) :
  data_eqb a b = true <-> a = b.
Proof.
  destruct a as [[t1 u1] l1], b as [[t2 u2] l2]. unfold data_eqb.
  rewrite !andb_true_iff, !String.eqb_eq. split.
  - intros [[-> ->] ->]. reflexivity.
  - intros [= -> -> ->]. auto.
Qed.

Lemma map_data_ok (parse : string -> option string)
    (rows : list (string * string * string)) (ds : list TableData) :
  map_data parse rows = Ok ds -> Forall2 (carries parse) rows ds.
Proof.
  revert ds. induction rows as [|[[t u] l] rows IH]; simpl; intros ds H.
  - injection H as <-. constructor.
  - destruct (parse l) as [parsed|] eqn:El; [|discriminate].
    destruct (map_data parse rows) as [ds'|]; simpl in H; [|discriminate].
    injection H as <-. constructor; [|now apply IH].
    simpl. auto.
Qed.

Lemma Forall2_In_l {A B : Type} (R : A -> B -> Prop) (l : list A) (l' : list B) (x : A) :
  Forall2 R l l' -> In x l -> exists y, In y l' /\ R x y.
Proof.
  induction 1 as [|a b l l' Hab _ IH]; intros Hin; [destruct Hin|].
  destruct Hin as [->|Hin].
  - exists b. split; [now left | assumption].
  - destruct (IH Hin) as [y [Hy HR]]. exists y. split; [now right | assumption].
Qed.

Lemma Forall2_In_r {A B : Type} (R : A -> B -> Prop) (l : list A) (l' : list B) (y : B) :
  Forall2 R l l' -> In y l' -> exists x, In x l /\ R x y.
Proof.
  induction 1 as [|a b l l' Hab _ IH]; intros Hin; [destruct Hin|].
  destruct Hin as [->|Hin].
  - exists a. split; [now left | assumption].
  - destruct (IH Hin) as [x [Hx HR]]. exists x. split; [now right | assumption].
Qed.

Lemma data_rows_In (db : database) (g : string) (tables : option (list string))
    (row : string * string * string) :
  In row (data_rows db g tables) <->
  exists r, In r (geo_lookup db) /\ g_geo_id r = g /\
            table_filter db tables r = true /\
            row = (g_title r, g_universe r, g_labels_data r).
Proof.
  unfold data_rows. rewrite (distinct_In data_eqb data_eqb_eq), in_map_iff.
  split.
  - intros [r [<- Hr]]. apply filter_In in Hr as [Hin Hc].
    apply andb_true_iff in Hc as [Hg Hf]. apply String.eqb_eq in Hg.
    exists r. auto.
  - intros [r [Hin [Hg [Hf ->]]]]. exists r. split; [reflexivity|].
    apply filter_In. split; [assumption|].
    apply andb_true_iff. split; [now apply String.eqb_eq | assumption].
Qed.

(** The answer of a successful lookup, opened up. *)
Lemma lookupLocation_Some (parse : string -> option string) (db : database)
    (lat lon : Q) (tables : option (list string)) (r : LookupLocationResult) :
  lookupLocation parse db lat lon tables = Ok (Some r) ->
  map_data parse (dataResults db (ll_geo_id r) tables) = Ok (data r).
Proof.
  unfold lookupLocation.
  destruct (geoResults db lat lon) as [|geo rest]; [discriminate|].
  destruct (map_data parse (dataResults db (geo_id geo) tables)) as [d|e] eqn:E;
    simpl; [|discriminate].
  intros [= <-]. exact E.
Qed.

(** C8, as the code has it. The data of a successful lookup are at most 100
    rows; each of them carries a catalog row of the selected key that passes
    the table filter; and when that key has at most 100 distinct such rows,
    every one of them is carried by a data row. *)
Theorem lookupLocation_data (parse : string -> option string) (db : database)
    (lat lon : Q) (tables : option (list string)) (r : LookupLocationResult) :
  lookupLocation parse db lat lon tables = Ok (Some r) ->
  length (data r) <= 100 /\
  (forall d, In d (data r) ->
     exists g, In g (geo_lookup db) /\ g_geo_id g = ll_geo_id r /\
               table_filter db tables g = true /\
               carries parse (g_title g, g_universe g, g_labels_data g) d) /\
  (length (data_rows db (ll_geo_id r) tables) <= 100 ->
   forall g, In g (geo_lookup db) -> g_geo_id g = ll_geo_id r ->
             table_filter db tables g = true ->
     exists d, In d (data r) /\
               carries parse (g_title g, g_universe g, g_labels_data g) d).
Proof.
  intros H. apply lookupLocation_Some, map_data_ok in H.
  split; [|split].
  - rewrite <- (Forall2_length H). unfold dataResults.
    rewrite limit_length. lia.
  - intros d Hd.
    destruct (Forall2_In_r _ _ _ _ H Hd) as [row [Hrow Hc]].
    apply limit_In, data_rows_In in Hrow as [g [Hin [Hg [Hf ->]]]].
    exists g. auto.
  - intros Hlen g Hin Hg Hf.
    unfold dataResults in H. rewrite limit_all in H by assumption.
    apply (Forall2_In_l _ _ _ _ H).
    apply data_rows_In. exists g. auto.
Qed.

Lemma lookupLocation_data_witness :
  exists r,
    lookupLocation Samples.parse_any Samples.store 34%Q (-118)%Q None = Ok (Some r) /\
    length (data r) <= 100 /\
    (forall d, In d (data r) ->
       exists g, In g (geo_lookup Samples.store) /\ g_geo_id g = ll_geo_id r /\
                 table_filter Samples.store None g = true /\
                 carries Samples.parse_any (g_title g, g_universe g, g_labels_data g) d).
Proof.
  eexists. split; [vm_compute; reflexivity|].
  split;
    apply (lookupLocation_data Samples.parse_any Samples.store 34%Q (-118)%Q None);
    vm_compute; reflexivity.
Defined.

(** C8 as stated fails: the tract has 101 catalog rows, all different, and
    only 100 are attached; in storage order the last one is left out. *)
Lemma lookupLocation_truncates :
  length (distinct String.eqb
            (map g_labels_data (geo_lookup Samples.crowded_store))) = 101 /\
  exists r,
    lookupLocation Samples.parse_any Samples.crowded_store 34%Q (-118)%Q None
      = Ok (Some r) /\
    In (Samples.crowded_row 100) (geo_lookup Samples.crowded_store) /\
    g_geo_id (Samples.crowded_row 100) = ll_geo_id r /\
    table_filter Samples.crowded_store None (Samples.crowded_row 100) = true /\
    length (data r) = 100 /\
    ~ exists d, In d (data r) /\
                Samples.parse_any (g_labels_data (Samples.crowded_row 100))
                  = Some (labels_data d).
Proof.
  split; [vm_compute; reflexivity|].
  set (o := lookupLocation Samples.parse_any Samples.crowded_store 34%Q (-118)%Q None).
  assert (Hc : match o with
               | Ok (Some r) =>
                   (ll_geo_id r =? Samples.tract_key)%string &&
                   (length (data r) =? 100) &&
                   negb (existsb (fun d => (labels_data d =? "100")%string) (data r))
               | _ => false
               end = true) by (vm_compute; reflexivity).
  destruct o as [[r|]|]; try discriminate Hc.
  apply andb_true_iff in Hc as [Hc Hno]. apply andb_true_iff in Hc as [Hk Hlen].
  apply String.eqb_eq in Hk. apply Nat.eqb_eq in Hlen. apply negb_true_iff in Hno.
  exists r. split; [reflexivity|].
  split; [apply in_map, in_seq; lia|].
  split; [now rewrite Hk|]. split; [reflexivity|]. split; [exact Hlen|].
  intros [d [Hd E]].
  assert (Hb : existsb (fun d => (labels_data d =? "100")%string) (data r) = true).
  { apply existsb_exists. exists d. split; [exact Hd|].
    apply String.eqb_eq. unfold Samples.parse_any in E.
    injection E as E. rewrite <- E. reflexivity. }
  congruence.
Qed.

(** *** searchLocations against the name search of resolveLocation *)

Lemma lex_le_refl (k : nat * nat) : lex_le k k.
Proof. unfold lex_le. lia. Qed.

Lemma lex_le_trans (a b c : nat * nat) : lex_le a b -> lex_le b c -> lex_le a c.
Proof. unfold lex_le. lia. Qed.

(** resolveLocation's CASE is searchLocations' CASE cut off at 4. *)
Lemma resolve_priority_min (g : string) :
  resolve_priority g = Nat.min (search_priority g) 4.
Proof.
  unfold resolve_priority, search_priority. level_patterns.
  destruct (prefix "040" g), (prefix "310" g), (prefix "050" g),
    (prefix "860" g), (prefix "140" g), (prefix "150" g); reflexivity.
Qed.

Lemma search_leb_total (a b : tiger_row) :
  search_leb a b = false -> search_leb b a = true.
Proof.
  unfold search_leb. intros H.
  destruct (String.leb_total (t_name a) (t_name b)) as [E|E];
    rewrite E in *; clear E;
    repeat match goal with
           | |- context [(?x <? ?y)] => destruct (Nat.ltb_spec x y)
           | |- context [(?x =? ?y)] => destruct (Nat.eqb_spec x y)
           | H : context [(?x <? ?y)] |- _ => destruct (Nat.ltb_spec x y)
           | H : context [(?x =? ?y)] |- _ => destruct (Nat.eqb_spec x y)
           end; simpl in *; try reflexivity; try discriminate; try lia.
  all: destruct (String.leb (t_name b) (t_name a)) eqn:E2; try reflexivity;
    destruct (String.leb (t_name a) (t_name b)) eqn:E1; try discriminate;
    destruct (String.leb_total (t_name a) (t_name b)); congruence.
Qed.

Lemma search_leb_key (a b : tiger_row) :
  search_leb a b = true -> lex_le (search_key a) (search_key b).
Proof.
  unfold search_leb, search_key, lex_le. cbn [fst snd]. intros H.
  repeat match goal with
         | H : context [(?x <? ?y)] |- _ => destruct (Nat.ltb_spec x y)
         | H : context [(?x =? ?y)] |- _ => destruct (Nat.eqb_spec x y)
         end; simpl in *; try discriminate; lia.
Qed.

Lemma resolve_leb_key (a b : tiger_row) :
  resolve_leb a b = true <-> lex_le (resolve_key a) (resolve_key b).
Proof.
  unfold resolve_leb, lex2, resolve_key, lex_le. cbn [fst snd].
  rewrite orb_true_iff, andb_true_iff, Nat.ltb_lt, Nat.eqb_eq, Nat.leb_le.
  reflexivity.
Qed.

Lemma resolve_leb_total (a b : tiger_row) :
  resolve_leb a b = false -> resolve_leb b a = true.
Proof.
  intros H. apply resolve_leb_key.
  assert (Hn : ~ lex_le (resolve_key a) (resolve_key b)).
  { intros Hl. apply resolve_leb_key in Hl. congruence. }
  unfold lex_le in *. lia.
Qed.

(** C4 as stated fails: for the query "elm" the name search of
    resolveLocation returns the tract (shorter name, both areas in its class
    "everything else"), while searchLocations ranks the ZIP area first and the
    tract second. *)
Lemma search_order_differs :
  resolveLocation Samples.elm_store "elm" None =
    Some {| geo_id := "1400000US06037701000"; name := "Elm" |} /\
  map geo_id (nameResults Samples.elm_store (trim "elm") None) =
    ["1400000US06037701000"] /\
  map sr_geo_id (results (searchLocations Samples.elm_store "elm" None 20)) =
    ["860Z200US90210"; "1400000US06037701000"] /\
  map t_geo_id (resolve_rows Samples.elm_store (trim "elm") None) =
    ["1400000US06037701000"; "860Z200US90210"].
Proof. repeat split; vm_compute; reflexivity. Qed.

(** C4, as the code has it. Both operations rank the same candidates.
    resolveLocation orders by class (state 1, metro 2, county 3, everything
    else 4) and name length; searchLocations splits the last class (ZIP 4,
    tract 5, block group 6, other 7) and breaks remaining ties by name. The
    two orders disagree on exactly one kind of pair: when resolveLocation
    puts [a] strictly before [b], so does searchLocations whenever one of
    them is a state, metro or county, or the class of [a] in searchLocations
    is not after that of [b] (in particular when both are of one class);
    otherwise searchLocations puts [b] strictly before [a]. And the name
    search of resolveLocation returns a candidate of the class of the first
    match of searchLocations (states, metros, counties, everything else) whose
    name is not longer, and of the same length when that first match is a
    state, metro or county or the two are of one class of searchLocations. *)
Theorem search_agrees_on_top_levels (db : database) (searchQuery : string)
    (summaryLevel : option string) (limit : nat) :
  (forall t, In t (search_rows db (trim searchQuery) summaryLevel) <->
             In t (resolve_rows db (trim searchQuery) summaryLevel)) /\
  (forall g, resolve_priority g = Nat.min (search_priority g) 4) /\
  (forall a b : tiger_row,
     resolve_priority (t_geo_id a) <= 3 \/ resolve_priority (t_geo_id b) <= 3 \/
     search_priority (t_geo_id a) <= search_priority (t_geo_id b) ->
     resolve_leb a b = true -> resolve_leb b a = false ->
     search_leb a b = true /\ search_leb b a = false) /\
  (forall a b : tiger_row,
     4 <= search_priority (t_geo_id b) ->
     search_priority (t_geo_id b) < search_priority (t_geo_id a) ->
     search_leb b a = true /\ search_leb a b = false) /\
  (forall f rest,
     results (searchLocations db searchQuery summaryLevel limit) = f :: rest ->
     exists r,
       nameResults db (trim searchQuery) summaryLevel = [r] /\
       resolve_priority (geo_id r) = Nat.min (search_priority (sr_geo_id f)) 4 /\
       String.length (name r) <= String.length (sr_name f) /\
       (search_priority (sr_geo_id f) <= 3 \/
        search_priority (geo_id r) = search_priority (sr_geo_id f) ->
        String.length (name r) = String.length (sr_name f))).
Proof.
  split; [|split; [exact resolve_priority_min|split; [|split]]].
  - intros t. unfold search_rows, resolve_rows. now rewrite !order_by_In.
  - intros a b Htop Hab Hba.
    apply resolve_leb_key in Hab.
    assert (Hnba : ~ lex_le (resolve_key b) (resolve_key a)).
    { intros Hl. apply resolve_leb_key in Hl. congruence. }
    unfold lex_le, resolve_key in Hab, Hnba. cbn [fst snd] in Hab, Hnba.
    rewrite !resolve_priority_min in *.
    unfold search_leb.
    repeat match goal with
           | |- context [(?x <? ?y)] => destruct (Nat.ltb_spec x y)
           | |- context [(?x =? ?y)] => destruct (Nat.eqb_spec x y)
           end; simpl; split; try reflexivity; lia.
  - intros a b H4 Hlt. unfold search_leb.
    repeat match goal with
           | |- context [(?x <? ?y)] => destruct (Nat.ltb_spec x y)
           | |- context [(?x =? ?y)] => destruct (Nat.eqb_spec x y)
           end; simpl; split; try reflexivity; lia.
  - intros f rest Hres.
    unfold searchLocations in Hres. cbn [results] in Hres.
    destruct (Sql.limit limit (search_rows db (trim searchQuery) summaryLevel))
      as [|t lrest] eqn:El; [discriminate|].
    simpl in Hres. injection Hres as <- _. cbn [sr_geo_id sr_name] in *.
    destruct (limit_head _ _ _ _ El) as [srest Es].
    unfold search_rows in Es.
    set (cands := filter (name_matches (trim searchQuery) summaryLevel)
                         (tiger_geometries db)) in *.
    assert (Ht : In t cands) by (eapply order_by_head_In, Es).
    destruct (order_by resolve_leb cands) as [|r rrest] eqn:Er.
    { apply order_by_nil in Er. rewrite Er in Ht. destruct Ht. }
    assert (Hr : In r cands) by (eapply order_by_head_In, Er).
    pose proof (order_by_head search_leb search_leb_total search_key lex_le
                  lex_le_refl lex_le_trans search_leb_key cands t srest Es r Hr) as Hs.
    pose proof (order_by_head resolve_leb resolve_leb_total resolve_key lex_le
                  lex_le_refl lex_le_trans
                  (fun a b H => proj1 (resolve_leb_key a b) H)
                  cands r rrest Er t Ht) as Hq.
    exists (select_geo r). split.
    + unfold nameResults, resolve_rows. fold cands. rewrite Er. reflexivity.
    + unfold lex_le, search_key, resolve_key in Hs, Hq. cbn [fst snd] in Hs, Hq.
      cbn [select_geo geo_id name].
      rewrite !resolve_priority_min in *. lia.
Qed.

Lemma search_agrees_on_top_levels_witness :
  exists r,
    nameResults Samples.store (trim "cal") None = [r] /\
    resolve_priority (geo_id r) = Nat.min (search_priority "0400000US06") 4 /\
    String.length (name r) <= String.length "California" /\
    (search_priority "0400000US06" <= 3 \/
     search_priority (geo_id r) = search_priority "0400000US06" ->
     String.length (name r) = String.length "California").
Proof.
  destruct (search_agrees_on_top_levels Samples.store "cal" None 1)
    as [_ [_ [_ [_ H]]]].
  apply (H {| sr_geo_id := "0400000US06"; sr_name := "California";
              sr_summary_level := "040"; sr_summary_level_name := "state" |} []).
  vm_compute. reflexivity.
Defined.

End LookupFacts.

(** ** Metric ranking *)
Module RankingFacts.
Import Text Sql Rankings SqlFacts DistinctFacts TextFacts.

(** *** The three branches *)

Lemma rank_branches (db : database) (p : params) (res : RankAreasResult) :
  rankAreasByMetric db p = Ok res ->
  (exists dens, denominatorIds p = Some dens /\
                results res = rate_rows db p (metricIds p) dens /\
                total_matches res = rate_count db p (metricIds p) dens) \/
  (denominatorIds p = None /\ branch_of p = Sum /\
   results res = sum_rows db p (metricIds p) /\
   total_matches res = sum_count db p (metricIds p)) \/
  (denominatorIds p = None /\ branch_of p = Direct /\
   results res = direct_rows db p /\
   total_matches res = direct_count db p).
Proof.
  unfold rankAreasByMetric, branch_of.
  destruct (denominatorIds p) as [dens|] eqn:Ed.
  - intros H. left. exists dens. split; [reflexivity|].
    destruct (metricIds p), dens; try discriminate;
      destruct (spliced_ok p); try discriminate;
      injection H as <-; split; reflexivity.
  - destruct (isCompound p).
    + destruct (spliced_ok p); [|discriminate].
      intros [= <-]. right. left. auto.
    + destruct (quote_free (population_group p)); [|discriminate].
      intros [= <-]. right. right. auto.
Qed.

Lemma branch_of_rate (p : params) (dens : list string) :
  denominatorIds p = Some dens -> branch_of p = Rate dens.
Proof. unfold branch_of. now intros ->. Qed.

(** The single-metric branch is the one with no denominator and at most one
    metric id. *)
Lemma branch_of_direct (p : params) :
  branch_of p = Direct <->
  denominatorIds p = None /\ (length (metricIds p) <= 1)%nat.
Proof.
  unfold branch_of, isCompound.
  destruct (denominatorIds p) as [dens|].
  - split; [discriminate | intros [H _]; discriminate H].
  - rewrite orb_false_r.
    destruct (Nat.ltb_spec 1 (length (metricIds p))); split;
      try discriminate; try (intros [_ H']; lia); auto.
    all: try (intros _; split; [reflexivity | lia]).
Qed.

(** C6. On every row of a returned ranking the unit is "count" when no
    denominator is given (sum branch included) and "percent" when one is
    given; the rows of the sum and rate branches carry no national
    percentile, those of the single-metric, no-denominator branch all do. *)
Theorem rank_units (db : database) (p : params) (res : RankAreasResult)
    (row : RankResult) :
  rankAreasByMetric db p = Ok res ->
  In row (results res) ->
  (denominatorIds p = None -> r_unit row = count) /\
  (denominatorIds p <> None -> r_unit row = percent) /\
  (branch_of p <> Direct -> r_national_percentile row = None) /\
  (branch_of p = Direct -> r_national_percentile row <> None) /\
  (r_national_percentile row <> None ->
   denominatorIds p = None /\ (length (metricIds p) <= 1)%nat).
Proof.
  intros H Hin.
  destruct (rank_branches db p res H)
    as [[dens [Ed [Hr _]]] | [[Ed [Eb [Hr _]]] | [Ed [Eb [Hr _]]]]];
    rewrite Hr in Hin.
  - unfold rate_rows in Hin. apply in_map_iff in Hin as [[[[g num] den] n] [<- _]].
    rewrite (branch_of_rate p dens Ed), Ed. cbn.
    repeat split; congruence.
  - unfold sum_rows in Hin. apply in_map_iff in Hin as [[[g n] total] [<- _]].
    rewrite Eb, Ed. cbn. repeat split; congruence.
  - unfold direct_rows, direct_rows_with in Hin.
    apply in_map_iff in Hin as [x [<- _]].
    rewrite Ed. cbn. repeat split; try congruence.
    all: try (intros _); now apply branch_of_direct.
Qed.

Lemma rank_units_witness :
  Forall (fun row => r_unit row = percent /\ r_national_percentile row = None)
         (rows_of (rankAreasByMetric Samples.store Samples.rate_request)).
Proof.
  apply Forall_forall. intros row Hin.
  destruct (rankAreasByMetric Samples.store Samples.rate_request) as [res|e] eqn:E;
    [|destruct Hin].
  destruct (rank_units Samples.store Samples.rate_request res row E Hin)
    as [_ [Hp [Hn _]]].
  split; [apply Hp | apply Hn]; discriminate.
Defined.

(** *** The percentile band *)

Lemma left_join_In {A : Type} (db : database) (key : A -> string)
    (rows : list A) (x : A * option string) :
  In x (left_join_name db key rows) -> In (fst x) rows.
Proof.
  unfold left_join_name. intros H.
  apply in_flat_map in H as [r [Hr Hx]].
  destruct (filter (fun t => (key r =? t_geo_id t)%string) (tiger_geometries db)).
  - destruct Hx as [<-|[]]. exact Hr.
  - apply in_map_iff in Hx as [t' [<- _]]. exact Hr.
Qed.

Lemma in_band_unit (p : params) (r : acs_row) :
  percentile_min p == 0 -> percentile_max p == 1 ->
  0 <= national_percentile r <= 1 ->
  in_band p r = true.
Proof.
  intros Hlo Hhi [H0 H1]. unfold in_band.
  apply andb_true_iff. split; apply Qle_bool_iff.
  - now rewrite Hlo.
  - now rewrite Hhi.
Qed.

(** C9. When every stored national percentile lies in [0,1], a single-metric
    request with no denominator and the band [0,1] returns exactly the rows of
    the same query without its two percentile conjuncts (the same list, hence
    the same row set), and counts the same matches. *)
Theorem full_band_is_no_band (db : database) (p : params) (res : RankAreasResult) :
  (forall r, In r (acs_with_percentiles db) -> 0 <= national_percentile r <= 1) ->
  percentile_min p == 0 -> percentile_max p == 1 ->
  branch_of p = Direct ->
  rankAreasByMetric db p = Ok res ->
  results res = direct_rows_unbanded db p /\
  Permutation (results res) (direct_rows_unbanded db p) /\
  total_matches res = length (filter (direct_where_unbanded p) (acs_with_percentiles db)).
Proof.
  intros Hinv Hlo Hhi Hb H.
  assert (Hw : forall r, In r (acs_with_percentiles db) ->
                         direct_where p r = direct_where_unbanded p r).
  { intros r Hr. unfold direct_where, direct_where_unbanded.
    rewrite (in_band_unit p r Hlo Hhi (Hinv r Hr)). now rewrite andb_true_r. }
  destruct (rank_branches db p res H)
    as [[dens [Ed _]] | [[_ [Eb _]] | [_ [_ [Hr Ht]]]]].
  - rewrite (branch_of_rate p dens Ed) in Hb. discriminate.
  - congruence.
  - assert (E : results res = direct_rows_unbanded db p).
    { rewrite Hr. unfold direct_rows, direct_rows_unbanded, direct_rows_with.
      do 3 f_equal. apply filter_ext_in. intros x Hx.
      apply Hw. eapply left_join_In, Hx. }
    split; [exact E|]. split; [now rewrite E|].
    rewrite Ht. unfold direct_count. f_equal.
    apply filter_ext_in. exact Hw.
Qed.

Lemma full_band_is_no_band_witness :
  rows_of (rankAreasByMetric Samples.store Samples.direct_request) =
  direct_rows_unbanded Samples.store Samples.direct_request.
Proof.
  destruct (rankAreasByMetric Samples.store Samples.direct_request) as [res|e] eqn:E;
    [|discriminate E].
  apply (full_band_is_no_band Samples.store Samples.direct_request res).
  - intros r Hr. simpl in Hr.
    repeat (destruct Hr as [<-|Hr]; [split; discriminate|]). destruct Hr.
  - reflexivity.
  - reflexivity.
  - reflexivity.
  - exact E.
Defined.

(** C10. Outside the single-metric branch the percentile band is not read:
    a rate request or a compound sum request gives the same outcome (rows,
    count and label, or the same failure) for every band. In the
    single-metric branch it does filter: there the sample request loses a row
    when its band is narrowed. *)
Theorem band_ignored_outside_direct (db : database) (p : params) (lo hi lo' hi' : Q) :
  branch_of p <> Direct ->
  rankAreasByMetric db (set_band p lo hi) = rankAreasByMetric db (set_band p lo' hi') /\
  rankAreasByMetric db (set_band p lo hi) = rankAreasByMetric db p /\
  branch_of Samples.direct_request = Direct /\
  rows_of (rankAreasByMetric Samples.store (set_band Samples.direct_request 0 (1 # 4)))
    <> rows_of (rankAreasByMetric Samples.store Samples.direct_request).
Proof.
  intros Hb.
  assert (E : forall a b, rankAreasByMetric db (set_band p a b) = rankAreasByMetric db p).
  { intros a b. unfold rankAreasByMetric.
    change (branch_of (set_band p a b)) with (branch_of p).
    destruct (branch_of p); [reflexivity | reflexivity | congruence]. }
  split; [now rewrite !E|]. split; [apply E|].
  split; [reflexivity|].
  vm_compute. discriminate.
Qed.

Lemma band_ignored_outside_direct_witness :
  rankAreasByMetric Samples.store (set_band Samples.rate_request (1 # 4) (1 # 2)) =
  rankAreasByMetric Samples.store (set_band Samples.rate_request 0 1).
Proof.
  apply (band_ignored_outside_direct Samples.store Samples.rate_request
           (1 # 4) (1 # 2) 0 1).
  discriminate.
Defined.

(** *** The rate branch *)

Lemma sum_over_filter {A : Type} (f q : A -> bool) (v : A -> Z) (l : list A) :
  sum_over q v (filter f l) = sum_over (fun r => f r && q r) v l.
Proof.
  unfold sum_over. induction l as [|x l IH]; simpl; [reflexivity|].
  destruct (f x); simpl; [|exact IH].
  destruct (q x); simpl; now rewrite IH.
Qed.




(** The rate is rounded from the binary64 quotient, not from the exact one:
    at 201 over 20000 the exact rate 1.005 rounds to 1.01, while the quotient
    is the double just below 1.005 and ROUND gives 1. On the rate of the
    sample both agree. *)
Lemma rate_rounds_the_double :
  rate_value 201 20000 = Some 1 /\ percent_rate 201 20000 == 101 # 100 /\
  rate_value 30 20000 = Some (Double.hundredths 15) /\
  percent_rate 30 20000 == 15 # 100.
Proof. repeat split; vm_compute; reflexivity. Qed.





(** *** The count of all matches *)

Lemma filter_none {A : Type} (f : A -> bool) (l : list A) :
  (forall x, In x l -> f x = false) -> filter f l = [].
Proof.
  induction l as [|x l IH]; intros H; simpl; [reflexivity|].
  rewrite (H x (or_introl eq_refl)). apply IH. intros y Hy. apply H. now right.
Qed.

(** A catalog with one row per key joins at most one row to any key. *)
Lemma catalog_lookup_unique (rows : list tiger_row) (k : string) :
  NoDup (map t_geo_id rows) ->
  (length (filter (fun t => (k =? t_geo_id t)%string) rows) <= 1)%nat.
Proof.
  induction rows as [|t rows IH]; intros Hnd; simpl; [lia|].
  inversion Hnd as [|? ? Hnotin Hnd']; subst.
  destruct (String.eqb_spec k (t_geo_id t)) as [->|Hne]; [|now apply IH].
  rewrite filter_none; [simpl; lia|].
  intros x Hx. apply String.eqb_neq. intros E. apply Hnotin.
  rewrite E. now apply in_map.
Qed.

(** With one row per key the LEFT JOIN adds a column and no row. *)
Lemma left_join_unique (db : database) :
  NoDup (map t_geo_id (tiger_geometries db)) ->
  exists f : string -> option string,
    forall (A : Type) (key : A -> string) (rows : list A),
      left_join_name db key rows = map (fun r => (r, f (key r))) rows.
Proof.
  intros Hnd.
  exists (fun k => match filter (fun t => (k =? t_geo_id t)%string) (tiger_geometries db) with
                   | [] => None
                   | t :: _ => Some (t_name t)
                   end).
  intros A key rows. unfold left_join_name.
  induction rows as [|r rows IH]; [reflexivity|].
  rewrite map_cons, <- IH. clear IH. cbn [flat_map].
  pose proof (catalog_lookup_unique (tiger_geometries db) (key r) Hnd) as Hlen.
  destruct (filter (fun t => (key r =? t_geo_id t)%string) (tiger_geometries db))
    as [|t [|t' ts]]; simpl in Hlen; [reflexivity | reflexivity | lia].
Qed.

Lemma filter_map_fst {A B : Type} (P : A -> bool) (h : A -> B) (l : list A) :
  filter (fun x => P (fst x)) (map (fun r => (r, h r)) l) =
  map (fun r => (r, h r)) (filter P l).
Proof.
  induction l as [|x l IH]; simpl; [reflexivity|].
  destruct (P x); simpl; now rewrite IH.
Qed.

Lemma opt_eqb_refl (o : option string) : opt_eqb o o = true.
Proof. destruct o; simpl; [apply String.eqb_refl | reflexivity]. Qed.

Lemma group_key_eqb_tagged (f : string -> option string) (a b : string) :
  group_key_eqb (a, f a) (b, f b) = (a =? b)%string.
Proof.
  unfold group_key_eqb. cbn [fst snd].
  destruct (String.eqb_spec a b) as [->|]; [apply opt_eqb_refl | reflexivity].
Qed.






(** **** The rows of a page have different keys *)


Lemma NoDup_limit {A : Type} (n : nat) (l : list A) :
  NoDup l -> NoDup (Sql.limit n l).
Proof.
  unfold Sql.limit. intros H. revert n.
  induction H as [|x l Hnotin Hnd IH]; intros [|n]; simpl; try constructor.
  - intros Hin. apply Hnotin. eapply limit_In, Hin.
  - apply IH.
Qed.

Lemma page_keys_NoDup {A B : Type} (k : A -> B) (leb : A -> A -> bool)
    (n : nat) (l : list A) :
  NoDup (map k l) -> NoDup (map k (Sql.limit n (order_by leb l))).
Proof.
  intros H. unfold Sql.limit. rewrite <- firstn_map. apply NoDup_limit.
  eapply Permutation_NoDup; [|exact H].
  apply Permutation_map. symmetry. apply order_by_perm.
Qed.








Lemma group_key_eqb_eq (a b : string * option string) :
  group_key_eqb a b = true <-> a = b.
Proof.
  destruct a as [g1 n1], b as [g2 n2]. unfold group_key_eqb, opt_eqb. cbn [fst snd].
  rewrite andb_true_iff, String.eqb_eq.
  destruct n1 as [x|], n2 as [y|]; rewrite ?String.eqb_eq; split.
  - intros [-> ->]. reflexivity.
  - intros [= -> ->]. auto.
  - intros [_ H]. discriminate H.
  - intros H. discriminate H.
  - intros [_ H]. discriminate H.
  - intros H. discriminate H.
  - intros [-> _]. reflexivity.
  - intros [= ->]. auto.
Qed.







End RankingFacts.

(** ** More on location resolution *)
Module LookupMore.
Import Text Sql Types Lookup SqlFacts DistinctFacts TextFacts LookupFacts SearchOrder.
Local Open Scope nat_scope.

(** *** White space *)

Lemma trim_right_cons (c : ascii) (s : string) :
  is_space c = false -> exists r, trim_right (String c s) = String c r.
Proof.
  intros Hc. simpl. destruct (trim_right s); rewrite ?Hc; eauto.
Qed.

Lemma trim_right_idem (s : string) : trim_right (trim_right s) = trim_right s.
Proof.
  induction s as [|c s IH]; [reflexivity|].
  simpl. destruct (trim_right s) as [|d r] eqn:E.
  - destruct (is_space c) eqn:Hc; [reflexivity|]. simpl. now rewrite Hc.
  - change (trim_right (String c (String d r))) with
      (match trim_right (String d r) with
       | EmptyString => if is_space c then EmptyString else String c EmptyString
       | r0 => String c r0
       end).
    rewrite IH. reflexivity.
Qed.

Lemma trim_left_head (s : string) :
  trim_left s = EmptyString \/
  exists c r, trim_left s = String c r /\ is_space c = false.
Proof.
  induction s as [|c s IH]; [now left|].
  simpl. destruct (is_space c) eqn:Hc; [exact IH|].
  right. eauto.
Qed.

Lemma trim_idem (s : string) : trim (trim s) = trim s.
Proof.
  unfold trim.
  destruct (trim_left_head s) as [E|[c [r [E Hc]]]]; rewrite E.
  - reflexivity.
  - destruct (trim_right_cons c r Hc) as [r' E'].
    rewrite E'. simpl trim_left. rewrite Hc, <- E'. apply trim_right_idem.
Qed.

(** White space around the input never changes the answer: resolveLocation
    and searchLocations give on the trimmed text what they give on the text. *)
Theorem surrounding_space_ignored (db : database) (input : string)
    (summaryLevel : option string) (limit : nat) :
  resolveLocation db (trim input) summaryLevel = resolveLocation db input summaryLevel /\
  results (searchLocations db (trim input) summaryLevel limit) =
    results (searchLocations db input summaryLevel limit) /\
  total_matches (searchLocations db (trim input) summaryLevel limit) =
    total_matches (searchLocations db input summaryLevel limit).
Proof.
  unfold resolveLocation, searchLocations. cbn [results total_matches].
  rewrite !trim_idem. auto.
Qed.

(** *** The outcomes of resolveLocation *)

Lemma key_in_catalog (db : database) (g : string) (r : GeoLocation) (rest : list GeoLocation) :
  by_geo_id db g = r :: rest ->
  exists t, In t (tiger_geometries db) /\ t_geo_id t = g /\ r = select_geo t.
Proof.
  unfold by_geo_id. intros H.
  assert (Hin : In r (map select_geo
                        (filter (fun t => (t_geo_id t =? g)%string) (tiger_geometries db))))
    by (rewrite H; now left).
  apply in_map_iff in Hin as [t [<- Ht]]. apply filter_In in Ht as [Hin Hg].
  apply String.eqb_eq in Hg. eauto.
Qed.

Lemma nameResults_head (db : database) (trimmed : string) (summaryLevel : option string)
    (r : GeoLocation) (rest : list GeoLocation) :
  nameResults db trimmed summaryLevel = r :: rest ->
  exists t, In t (tiger_geometries db) /\ name_matches trimmed summaryLevel t = true /\
            r = select_geo t.
Proof.
  unfold nameResults. intros H.
  assert (Hin : In r (map select_geo (Sql.limit 1 (resolve_rows db trimmed summaryLevel))))
    by (rewrite H; now left).
  apply in_map_iff in Hin as [t [<- Ht]].
  apply limit_In, order_by_In, filter_In in Ht as [Hin Hm]. eauto.
Qed.

Lemma nameResults_nil (db : database) (trimmed : string) (summaryLevel : option string) :
  nameResults db trimmed summaryLevel = [] <->
  forall t, In t (tiger_geometries db) -> name_matches trimmed summaryLevel t = false.
Proof.
  unfold nameResults, resolve_rows. split.
  - intros H t Hin. destruct (name_matches trimmed summaryLevel t) eqn:E; [|reflexivity].
    exfalso.
    assert (Hf : In t (filter (name_matches trimmed summaryLevel) (tiger_geometries db)))
      by (apply filter_In; auto).
    apply (order_by_In resolve_leb) in Hf.
    destruct (order_by resolve_leb
                (filter (name_matches trimmed summaryLevel) (tiger_geometries db)));
      [destruct Hf | discriminate H].
  - intros H. rewrite (RankingFacts.filter_none _ _ H). reflexivity.
Qed.

Lemma resolved_row (db : database) (input : string)
    (summaryLevel : option string) (r : GeoLocation) :
  resolveLocation db input summaryLevel = Some r ->
  exists t, In t (tiger_geometries db) /\ t_geo_id t = geo_id r /\
            (name r = t_name t \/
             (five_digits (trim input) = true /\ name r = trim input /\
              geo_id r = "860Z200US" ++ trim input)).
Proof.
  unfold resolveLocation. intros H.
  destruct (if starts_with_digit (trim input) && includes "US" (trim input)
            then by_geo_id db (trim input) else []) as [|r1 rest1] eqn:E1.
  - destruct (if five_digits (trim input)
              then by_geo_id db ("860Z200US" ++ trim input) else [])
      as [|r2 rest2] eqn:E2.
    + destruct (nameResults db (trim input) summaryLevel) as [|r3 rest3] eqn:E3;
        [discriminate|].
      injection H as <-.
      destruct (nameResults_head _ _ _ _ _ E3) as [t [Hin [_ ->]]].
      exists t. cbn. auto.
    + injection H as <-.
      destruct (five_digits (trim input)) eqn:E5; [|discriminate].
      destruct (key_in_catalog _ _ _ _ E2) as [t [Hin [Hg _]]].
      exists t. cbn. split; [exact Hin|]. split; [exact Hg|]. right. auto.
  - injection H as <-.
    destruct (starts_with_digit (trim input) && includes "US" (trim input));
      [|discriminate].
    destruct (key_in_catalog _ _ _ _ E1) as [t [Hin [Hg ->]]].
    exists t. cbn. auto.
Qed.

(** resolveLocation only ever answers with a key of the catalog: the key of
    the answer is the geo_id of a catalog row, and the name is that row's name
    or, for a five-digit input, the digits. *)
Theorem resolveLocation_in_catalog (db : database) (input : string)
    (summaryLevel : option string) (r : GeoLocation) :
  resolveLocation db input summaryLevel = Some r ->
  exists t, In t (tiger_geometries db) /\ t_geo_id t = geo_id r /\
            (name r = t_name t \/
             (five_digits (trim input) = true /\ name r = trim input /\
              geo_id r = "860Z200US" ++ trim input)).
Proof. apply resolved_row. Qed.

Lemma resolveLocation_in_catalog_witness :
  exists t, In t (tiger_geometries Samples.store) /\
            t_geo_id t = "0400000US06" /\
            ("California" = t_name t \/
             (five_digits (trim "cal") = true /\ "California" = trim "cal" /\
              "0400000US06" = "860Z200US" ++ trim "cal")).
Proof.
  apply (resolveLocation_in_catalog Samples.store "cal" None
           {| geo_id := "0400000US06"; name := "California" |}).
  vm_compute. reflexivity.
Defined.

(** A key-shaped input (first character a digit, "US" inside) that is the
    geo_id of a catalog row is answered with that key and a catalog name of
    it, whatever the level hint. *)
Theorem resolveLocation_direct_key (db : database) (input : string) :
  starts_with_digit (trim input) = true ->
  includes "US" (trim input) = true ->
  (exists t, In t (tiger_geometries db) /\ t_geo_id t = trim input) ->
  exists t, In t (tiger_geometries db) /\ t_geo_id t = trim input /\
            forall summaryLevel,
              resolveLocation db input summaryLevel =
              Some {| geo_id := trim input; name := t_name t |}.
Proof.
  intros Hd Hu Hex. unfold resolveLocation. rewrite Hd, Hu. cbn [andb].
  destruct (by_geo_id db (trim input)) as [|r rest] eqn:E.
  - exfalso. now apply (by_geo_id_nonempty db _ Hex).
  - destruct (key_in_catalog _ _ _ _ E) as [t [Hin [Hg ->]]].
    exists t. split; [exact Hin|]. split; [exact Hg|].
    intros _. cbn. now rewrite Hg.
Qed.

Lemma resolveLocation_direct_key_witness :
  exists t, In t (tiger_geometries Samples.store) /\
            t_geo_id t = trim " 04000A0US06" /\
            forall summaryLevel,
              resolveLocation Samples.store " 04000A0US06" summaryLevel =
              Some {| geo_id := trim " 04000A0US06"; name := t_name t |}.
Proof.
  apply (resolveLocation_direct_key Samples.store " 04000A0US06").
  - reflexivity.
  - reflexivity.
  - exists (Samples.area "04000A0US06" "California" Samples.west).
    split; [simpl; tauto | reflexivity].
Defined.

Lemma by_geo_id_nil (db : database) (g : string) :
  by_geo_id db g = [] <->
  ~ exists t, In t (tiger_geometries db) /\ t_geo_id t = g.
Proof.
  split.
  - intros E Hex. now apply (by_geo_id_nonempty db g Hex).
  - intros H. destruct (by_geo_id db g) as [|r rest] eqn:E; [reflexivity|].
    exfalso. apply H. destruct (key_in_catalog _ _ _ _ E) as [t [Hin [Hg _]]]. eauto.
Qed.

(** resolveLocation answers null exactly when all three steps miss: the input
    is not a key-shaped geo_id of the catalog, it is not five digits whose
    ZIP key is in the catalog, and no catalog row passes the name search. *)
Theorem resolveLocation_null (db : database) (input : string)
    (summaryLevel : option string) :
  resolveLocation db input summaryLevel = None <->
  ~ (starts_with_digit (trim input) = true /\ includes "US" (trim input) = true /\
     exists t, In t (tiger_geometries db) /\ t_geo_id t = trim input) /\
  ~ (five_digits (trim input) = true /\
     exists t, In t (tiger_geometries db) /\ t_geo_id t = "860Z200US" ++ trim input) /\
  (forall t, In t (tiger_geometries db) ->
             name_matches (trim input) summaryLevel t = false).
Proof.
  unfold resolveLocation.
  pose proof (by_geo_id_nil db (trim input)) as N1.
  pose proof (by_geo_id_nil db ("860Z200US" ++ trim input)) as N2.
  pose proof (nameResults_nil db (trim input) summaryLevel) as N3.
  destruct (starts_with_digit (trim input)), (includes "US" (trim input)),
    (five_digits (trim input)); cbn [andb];
    destruct (by_geo_id db (trim input)) as [|r1 l1];
    destruct (by_geo_id db ("860Z200US" ++ trim input)) as [|r2 l2];
    destruct (nameResults db (trim input) summaryLevel) as [|r3 l3];
    (split;
     [ intros H; try discriminate H;
       repeat split; try (apply N3; reflexivity);
       try (intros [? [? ?]]; discriminate);
       try (intros [? ?]; discriminate);
       try (intros [_ [_ Hex]]; now apply (proj1 N1 eq_refl));
       try (intros [_ Hex]; now apply (proj1 N2 eq_refl))
     | intros [H1 [H2 H3]]; try reflexivity; exfalso;
       try (apply N3 in H3; discriminate H3);
       try (assert (E : r1 :: l1 = []) by (apply N1; intros Hex; apply H1; auto);
            discriminate E);
       try (assert (E : r2 :: l2 = []) by (apply N2; intros Hex; apply H2; auto);
            discriminate E) ]).
Qed.

(** *** The level hint *)

Lemma prefix_substring (c g : string) :
  prefix c g = true -> substring 0 (String.length c) g = c.
Proof.
  revert g. induction c as [|a c IH]; intros g H.
  - destruct g; reflexivity.
  - destruct g as [|b g]; [discriminate H|].
    rewrite prefix_cons in H. destruct (ascii_dec a b) as [->|]; [|discriminate H].
    simpl. f_equal. now apply IH.
Qed.

(** With a level hint and an input that does not start with a digit (so that
    only the name search can answer), the answer is at the hinted level: its
    key matches the pattern of the level code, and starts with the code when
    the code has no wildcard; its name matches the input. *)
Theorem resolveLocation_level_hint (db : database) (input sl : string) (r : GeoLocation) :
  starts_with_digit (trim input) = false ->
  sl <> "" ->
  resolveLocation db input (Some sl) = Some r ->
  let code := lookup_or SUMMARY_LEVEL_NAMES sl sl in
  like (code ++ "%") (geo_id r) = true /\
  (wildcard_free code = true -> prefix code (geo_id r) = true) /\
  ilike ("%" ++ trim input ++ "%") (name r) = true.
Proof.
  intros Hd Hsl H code. unfold resolveLocation in H. rewrite Hd in H. cbn [andb] in H.
  assert (H5 : five_digits (trim input) = false).
  { unfold five_digits. destruct (trim input) as [|c s]; [reflexivity|].
    simpl in Hd. simpl. rewrite Hd. apply andb_false_r. }
  rewrite H5 in H.
  destruct (nameResults db (trim input) (Some sl)) as [|r3 rest] eqn:E; [discriminate|].
  injection H as <-.
  destruct (nameResults_head _ _ _ _ _ E) as [t [_ [Hm ->]]]. cbn [select_geo geo_id name].
  unfold name_matches in Hm. apply andb_true_iff in Hm as [Hn Hl].
  assert (Hg : given (Some sl) = Some sl) by (destruct sl; [congruence | reflexivity]).
  rewrite Hg in Hl. fold code in Hl.
  split; [exact Hl|]. split; [|exact Hn].
  intros Hw. now rewrite <- like_prefix.
Qed.

Lemma resolveLocation_level_hint_witness :
  like ("050" ++ "%") "0500000US06037" = true /\
  (wildcard_free "050" = true -> prefix "050" "0500000US06037" = true) /\
  ilike ("%" ++ trim "california" ++ "%") "Los Angeles County, California" = true.
Proof.
  apply (resolveLocation_level_hint Samples.store "california" "county"
           {| geo_id := "0500000US06037"; name := "Los Angeles County, California" |}).
  - reflexivity.
  - discriminate.
  - vm_compute. reflexivity.
Defined.

Lemma level_rows (db : database) (nm code hint : string) :
  hint <> "" ->
  lookup_or SUMMARY_LEVEL_NAMES hint hint = code ->
  wildcard_free code = true ->
  String.length code = 3 ->
  (forall dflt, lookup_or SUMMARY_LEVELS code dflt = nm) ->
  (forall q limit row,
     In row (results (searchLocations db q (Some hint) limit)) ->
     sr_summary_level row = code /\ sr_summary_level_name row = nm) /\
  (forall parent limit,
     lg_summary_level (listGeographies db hint parent limit) = code /\
     lg_summary_level_name (listGeographies db hint parent limit) = nm) /\
  (forall parent limit r,
     In r (lg_results (listGeographies db hint parent limit)) ->
     getSummaryLevel (geo_id r) = code).
Proof.
  intros Hne Hcode Hw Hlen Hnm.
  assert (Hg : given (Some hint) = Some hint) by (destruct hint; [congruence | reflexivity]).
  split; [|split].
  - intros q limit row Hr. unfold searchLocations in Hr. cbn [results] in Hr.
    apply in_map_iff in Hr as [t [<- Ht]].
    apply limit_In, order_by_In, filter_In in Ht as [_ Hm].
    unfold name_matches in Hm. apply andb_true_iff in Hm as [_ Hm].
    rewrite Hg, Hcode, like_prefix in Hm by exact Hw.
    apply prefix_substring in Hm. rewrite Hlen in Hm.
    cbn [sr_summary_level sr_summary_level_name]. unfold getSummaryLevel.
    rewrite Hm. split; [reflexivity | apply Hnm].
  - intros parent limit. unfold listGeographies.
    cbn [lg_summary_level lg_summary_level_name].
    rewrite Hcode. split; [reflexivity | apply Hnm].
  - intros parent limit r Hr. unfold listGeographies in Hr. cbn [lg_results] in Hr.
    apply in_map_iff in Hr as [t [<- Ht]].
    apply limit_In, order_by_In, filter_In in Ht as [_ Hm].
    unfold list_matches in Hm.
    apply andb_true_iff in Hm as [Hm _]. apply andb_true_iff in Hm as [Hm _].
    rewrite Hcode, like_prefix in Hm by exact Hw.
    apply prefix_substring in Hm. rewrite Hlen in Hm. exact Hm.
Qed.

(** The two tables of types.js are inverse to each other, and both operations
    report through them: with one of the six level names, or its code, as the
    level, every row of searchLocations and of listGeographies is at that
    level, and carries (or is listed under) that code and that name. *)
Theorem level_names_round_trip (db : database) (nm code hint : string) :
  In (nm, code) SUMMARY_LEVEL_NAMES ->
  hint = nm \/ hint = code ->
  In (code, nm) SUMMARY_LEVELS /\
  lookup nm SUMMARY_LEVEL_NAMES = Some code /\
  lookup code SUMMARY_LEVELS = Some nm /\
  (forall q limit row,
     In row (results (searchLocations db q (Some hint) limit)) ->
     sr_summary_level row = code /\ sr_summary_level_name row = nm) /\
  (forall parent limit,
     lg_summary_level (listGeographies db hint parent limit) = code /\
     lg_summary_level_name (listGeographies db hint parent limit) = nm) /\
  (forall parent limit r,
     In r (lg_results (listGeographies db hint parent limit)) ->
     getSummaryLevel (geo_id r) = code).
Proof.
  intros Hin Hh. simpl in Hin.
  assert (Hcases : (nm, code) = ("state", "040") \/ (nm, code) = ("county", "050") \/
                   (nm, code) = ("tract", "140") \/ (nm, code) = ("block_group", "150") \/
                   (nm, code) = ("metro", "310") \/ (nm, code) = ("zip", "860"))
    by (intuition congruence).
  clear Hin.
  destruct Hcases as [E|[E|[E|[E|[E|E]]]]]; injection E as -> ->;
    (split; [simpl; tauto|]); (split; [reflexivity|]); (split; [reflexivity|]);
    destruct Hh as [-> | ->];
    apply level_rows; (discriminate || reflexivity).
Qed.

Lemma level_names_round_trip_witness :
  Forall (fun row => sr_summary_level row = "040" /\ sr_summary_level_name row = "state")
         (results (searchLocations Samples.store "o" (Some "state") 5)).
Proof.
  apply Forall_forall. intros row Hr.
  apply (level_names_round_trip Samples.store "state" "040" "state") with (q := "o") (limit := 5).
  - simpl. tauto.
  - now left.
  - exact Hr.
Defined.

(** *** Pages of searchLocations *)










Lemma like_percent_percent (s : string) : like "%%" s = true.
Proof.
  change "%%" with (String "%" "%"). rewrite like_star, like_percent. reflexivity.
Qed.

(** A blank query (empty, or white space only) matches every name: with no
    level given searchLocations counts the whole catalog and returns its
    first [limit] rows in the order of the query. *)
Theorem search_blank_query (db : database) (q : string) (limit : nat) :
  trim q = "" ->
  total_matches (searchLocations db q None limit) = length (tiger_geometries db) /\
  length (results (searchLocations db q None limit)) =
    Nat.min limit (length (tiger_geometries db)) /\
  (forall t, In t (tiger_geometries db) ->
             limit >= length (tiger_geometries db) ->
             exists row, In row (results (searchLocations db q None limit)) /\
                         sr_geo_id row = t_geo_id t /\ sr_name row = t_name t).
Proof.
  intros Hq. unfold searchLocations, search_rows. cbn [results total_matches]. rewrite Hq.
  assert (Hall : filter (name_matches "" None) (tiger_geometries db) = tiger_geometries db).
  { apply forallb_filter_id. apply forallb_forall. intros t _.
    unfold name_matches, ilike. cbn. rewrite like_percent_percent. reflexivity. }
  rewrite Hall. split; [reflexivity|]. split.
  - now rewrite length_map, limit_length, order_by_length.
  - intros t Hin Hlim.
    eexists. split.
    + apply in_map. rewrite limit_all by (rewrite order_by_length; lia).
      apply order_by_In. exact Hin.
    + split; reflexivity.
Qed.

Lemma search_blank_query_witness :
  total_matches (searchLocations Samples.store "   " None 3) = 7 /\
  length (results (searchLocations Samples.store "   " None 3)) = 3.
Proof.
  destruct (search_blank_query Samples.store "   " 3 eq_refl) as [Ht [Hl _]].
  split; [exact Ht | exact Hl].
Defined.

(** *** What listGeographies can return *)

Lemma canonical_shape (g : string) :
  canonical_geo_id g = true ->
  substring 3 1 g = "0" /\ all_digits (substring 0 3 g) = true.
Proof.
  unfold canonical_geo_id.
  destruct g as [|a [|b [|c [|z rest]]]]; try discriminate.
  intros H.
  apply andb_true_iff in H as [H _]. apply andb_true_iff in H as [H Hz].
  apply andb_true_iff in H as [H Hc]. apply andb_true_iff in H as [Ha Hb].
  apply Ascii.eqb_eq in Hz. subst z.
  split; [destruct rest; reflexivity|].
  simpl. now rewrite Ha, Hb, Hc.
Qed.

(** listGeographies returns only keys whose first three characters are digits
    and whose fourth is "0". So a level whose keys all carry another
    character there (the ZIP areas "860Z200US.." and the metros
    "310M700US..") is listed empty, with a count of zero. *)
Theorem listGeographies_zero_group (db : database) (summaryLevel : string)
    (parentGeoId : option string) (limit : nat) :
  (forall r, In r (lg_results (listGeographies db summaryLevel parentGeoId limit)) ->
             substring 3 1 (geo_id r) = "0" /\
             all_digits (substring 0 3 (geo_id r)) = true) /\
  ((forall t, In t (tiger_geometries db) ->
              like (lookup_or SUMMARY_LEVEL_NAMES summaryLevel summaryLevel ++ "%")
                   (t_geo_id t) = true ->
              substring 3 1 (t_geo_id t) <> "0") ->
   lg_results (listGeographies db summaryLevel parentGeoId limit) = [] /\
   total_count (listGeographies db summaryLevel parentGeoId limit) = 0).
Proof.
  unfold listGeographies. cbn [lg_results total_count]. split.
  - intros r Hr. apply in_map_iff in Hr as [t [<- Ht]].
    apply limit_In, order_by_In, filter_In in Ht as [_ Hm].
    unfold list_matches in Hm. apply andb_true_iff in Hm as [_ Hc].
    now apply canonical_shape.
  - intros Hno.
    rewrite RankingFacts.filter_none;
      [split; [simpl; unfold Sql.limit; now rewrite firstn_nil | reflexivity]|].
    intros t Hin. unfold list_matches.
    destruct (like (lookup_or SUMMARY_LEVEL_NAMES summaryLevel summaryLevel ++ "%")
                   (t_geo_id t)) eqn:El; [|reflexivity].
    destruct (canonical_geo_id (t_geo_id t)) eqn:Ec; [|apply andb_false_r].
    exfalso. apply (Hno t Hin El). now apply canonical_shape.
Qed.

Lemma listGeographies_zero_group_witness :
  lg_results (listGeographies Samples.store "zip" None 10) = [] /\
  total_count (listGeographies Samples.store "zip" None 10) = 0.
Proof.
  apply (listGeographies_zero_group Samples.store "zip" None 10).
  intros t Hin. simpl in Hin.
  repeat (destruct Hin as [<-|Hin]; [vm_compute; discriminate|]). destruct Hin.
Defined.

(** The parent filter reads only the last two characters of the parent key:
    every listed key contains "US" followed by them (when they hold no LIKE
    wildcard), and two parents that end in the same two characters give the
    same rows and the same count. *)
Theorem listGeographies_parent (db : database) (summaryLevel parent parent' : string)
    (limit : nat) :
  parent <> "" -> parent' <> "" ->
  slice_last 2 parent = slice_last 2 parent' ->
  (wildcard_free (slice_last 2 parent) = true ->
   forall r, In r (lg_results (listGeographies db summaryLevel (Some parent) limit)) ->
             includes ("US" ++ slice_last 2 parent) (geo_id r) = true) /\
  lg_results (listGeographies db summaryLevel (Some parent) limit) =
    lg_results (listGeographies db summaryLevel (Some parent') limit) /\
  total_count (listGeographies db summaryLevel (Some parent) limit) =
    total_count (listGeographies db summaryLevel (Some parent') limit).
Proof.
  intros Hp Hp' Hs.
  assert (Hg : given (Some parent) = Some parent)
    by (destruct parent; [congruence | reflexivity]).
  assert (Hg' : given (Some parent') = Some parent')
    by (destruct parent'; [congruence | reflexivity]).
  assert (Hm : forall code t, list_matches code (Some parent) t =
                              list_matches code (Some parent') t).
  { intros code t. unfold list_matches. now rewrite Hg, Hg', Hs. }
  unfold listGeographies. cbn [lg_results total_count].
  split; [|split].
  - intros Hw r Hr. apply in_map_iff in Hr as [t [<- Ht]].
    apply limit_In, order_by_In, filter_In in Ht as [_ Ht].
    unfold list_matches in Ht. rewrite Hg in Ht.
    apply andb_true_iff in Ht as [Ht _]. apply andb_true_iff in Ht as [_ Ht].
    cbn [select_geo geo_id].
    rewrite <- like_contains by exact Hw. exact Ht.
  - do 3 f_equal. apply filter_ext. intros t. apply Hm.
  - f_equal. apply filter_ext. intros t. apply Hm.
Qed.

Lemma listGeographies_parent_witness :
  lg_results (listGeographies Samples.store "county" (Some "0400000US06") 10) =
  lg_results (listGeographies Samples.store "county" (Some "0500000US37006") 10).
Proof.
  apply (listGeographies_parent Samples.store "county" "0400000US06" "0500000US37006" 10).
  - discriminate.
  - discriminate.
  - reflexivity.
Defined.

(** *** lookupLocation with a table filter that names no known table *)

Lemma mem_false {A : Type} (eqb : A -> A -> bool) (x : A) : mem eqb x [] = false.
Proof. reflexivity. Qed.

(** When none of the given table ids is in the metadata, the lookup still
    answers with the most specific area, with no data attached. *)
Theorem lookupLocation_unknown_tables (parse : string -> option string)
    (db : database) (lat lon : Q) (tables : list string) :
  tables <> [] ->
  (forall m, In m (table_metadata db) -> mem String.eqb (m_table_id m) tables = false) ->
  containing db lat lon <> [] ->
  exists r, lookupLocation parse db lat lon (Some tables) = Ok (Some r) /\
            data r = [] /\
            exists t, In t (containing db lat lon) /\ ll_geo_id r = t_geo_id t.
Proof.
  intros Hne Hno Hc.
  destruct (geoResults_head db lat lon Hc) as [t [rest [E [Hin _]]]].
  unfold lookupLocation, geoResults. rewrite E. cbn [map select_geo geo_id name].
  assert (Hd : dataResults db (t_geo_id t) (Some tables) = []).
  { unfold dataResults, data_rows.
    rewrite RankingFacts.filter_none; [reflexivity|].
    intros g _. unfold table_filter, titles_of_tables.
    destruct tables as [|x ts]; [congruence|].
    rewrite (RankingFacts.filter_none _ _ Hno). simpl. apply andb_false_r. }
  rewrite Hd. simpl. eexists. split; [reflexivity|].
  split; [reflexivity|]. exists t. auto.
Qed.

Lemma lookupLocation_unknown_tables_witness :
  exists r, lookupLocation Samples.parse_any Samples.store 34%Q (-118)%Q
              (Some ["B99999"]) = Ok (Some r) /\
            data r = [] /\
            exists t, In t (containing Samples.store 34%Q (-118)%Q) /\
                      ll_geo_id r = t_geo_id t.
Proof.
  apply (lookupLocation_unknown_tables Samples.parse_any Samples.store
           34%Q (-118)%Q ["B99999"]).
  - discriminate.
  - intros m Hm. simpl in Hm. destruct Hm as [<-|[]]. reflexivity.
  - intros H. vm_compute in H. discriminate H.
Defined.

End LookupMore.

(** ** More on metric ranking *)
Module RankingMore.
Import Text Sql Rankings SqlFacts DistinctFacts TextFacts RankingFacts.

(** *** Names *)

Lemma left_join_names {A : Type} (db : database) (key : A -> string)
    (rows : list A) (r : A) (n : option string) :
  In (r, n) (left_join_name db key rows) ->
  (exists t, In t (tiger_geometries db) /\ t_geo_id t = key r /\ n = Some (t_name t)) \/
  ((forall t, In t (tiger_geometries db) -> t_geo_id t <> key r) /\ n = None).
Proof.
  unfold left_join_name. intros H.
  apply in_flat_map in H as [r' [_ H]].
  destruct (filter (fun t => (key r' =? t_geo_id t)%string) (tiger_geometries db))
    as [|t0 ts] eqn:E.
  - destruct H as [H|[]]. injection H as -> <-. right. split; [|reflexivity].
    intros t Hin Ht.
    assert (Hf : In t (filter (fun t => (key r =? t_geo_id t)%string) (tiger_geometries db))).
    { apply filter_In. split; [exact Hin|]. apply String.eqb_eq. congruence. }
    rewrite E in Hf. destruct Hf.
  - apply in_map_iff in H as [t [H Ht]]. injection H as -> <-.
    rewrite <- E in Ht. apply filter_In in Ht as [Hin Hk].
    apply String.eqb_eq in Hk. left. exists t. auto.
Qed.

(** For a request whose spliced values hold no quote, every row of the
    ranking is named from the catalog when the catalog has a row for its key,
    and by the key itself when it has none. *)
Theorem rank_names (db : database) (p : params) (res : RankAreasResult)
    (row : RankResult) :
  text_intact p = true ->
  rankAreasByMetric db p = Ok res ->
  In row (results res) ->
  (exists t, In t (tiger_geometries db) /\ t_geo_id t = r_geo_id row /\
             r_name row = t_name t) \/
  ((forall t, In t (tiger_geometries db) -> t_geo_id t <> r_geo_id row) /\
   r_name row = r_geo_id row).
Proof.
  intros _ H Hin.
  destruct (rank_branches db p res H)
    as [[dens [_ [Hr _]]] | [[_ [_ [Hr _]]] | [_ [_ [Hr _]]]]];
    rewrite Hr in Hin.
  - unfold rate_rows in Hin. apply in_map_iff in Hin as [[[[g a] b] n] [<- Hx]].
    apply limit_In, order_by_In, filter_In in Hx as [Hx _].
    apply left_join_names in Hx. cbn in Hx |- *.
    destruct Hx as [[t [Ht [Hk ->]]] | [Hno ->]]; [left; exists t; auto | right; auto].
  - unfold sum_rows in Hin. apply in_map_iff in Hin as [[[g n] total] [<- Hx]].
    apply limit_In, order_by_In in Hx. unfold group_sum in Hx.
    apply in_map_iff in Hx as [gk [E Hk]]. injection E as -> _.
    apply (proj1 (distinct_In group_key_eqb group_key_eqb_eq _ _)) in Hk.
    apply in_map_iff in Hk as [[r n'] [E Hx]]. unfold group_key in E.
    cbn [fst snd] in E. injection E as <- ->.
    apply filter_In in Hx as [Hx _]. apply left_join_names in Hx. cbn.
    destruct Hx as [[t [Ht [Hk ->]]] | [Hno ->]]; [left; exists t; auto | right; auto].
  - unfold direct_rows, direct_rows_with in Hin.
    apply in_map_iff in Hin as [[r n] [<- Hx]].
    apply limit_In, order_by_In, filter_In in Hx as [Hx _].
    apply left_join_names in Hx. cbn.
    destruct Hx as [[t [Ht [Hk ->]]] | [Hno ->]]; [left; exists t; auto | right; auto].
Qed.

Lemma rank_names_witness :
  Forall (fun row =>
            (exists t, In t (tiger_geometries Samples.store) /\
                       t_geo_id t = r_geo_id row /\ r_name row = t_name t) \/
            ((forall t, In t (tiger_geometries Samples.store) ->
                        t_geo_id t <> r_geo_id row) /\
             r_name row = r_geo_id row))
         (rows_of (rankAreasByMetric Samples.store Samples.rate_request)).
Proof.
  apply Forall_forall. intros row Hin.
  destruct (rankAreasByMetric Samples.store Samples.rate_request) as [res|e] eqn:E;
    [|destruct Hin].
  exact (rank_names Samples.store Samples.rate_request res row eq_refl E Hin).
Defined.

(** *** Order of the rows *)

Lemma Qle_bool_total (x y : Q) : Qle_bool x y = false -> Qle_bool y x = true.
Proof.
  intros H. apply Qle_bool_iff. apply Qlt_le_weak, Qnot_le_lt.
  intros Hle. apply Qle_bool_iff in Hle. congruence.
Qed.


Lemma Sorted_weaken {A : Type} (R R' : A -> A -> Prop) (l : list A) :
  (forall a b, R a b -> R' a b) -> Sorted R l -> Sorted R' l.
Proof.
  intros HR. induction 1 as [|x l Hs IH Hhd]; constructor; [exact IH|].
  destruct Hhd; constructor. now apply HR.
Qed.



(** *** The single-metric branch *)

(** For a single-metric request whose population group holds no quote (the
    one value its query splices), every row of the ranking is an observation
    of that metric: its key and estimate, its national percentile inside the
    band (bounds included), its group segment as asked (if asked), and its
    stored level and state equal to the ones given. *)
Theorem direct_rows_sound (db : database) (p : params) (res : RankAreasResult)
    (row : RankResult) :
  quote_free (population_group p) = true ->
  rankAreasByMetric db p = Ok res ->
  branch_of p = Direct ->
  In row (results res) ->
  exists o id,
    In o (acs_with_percentiles db) /\
    hd_error (metricIds p) = Some id /\ uid o = id /\
    r_geo_id row = a_geo_id o /\
    r_value row = Some (inject_Z (estimate o)) /\
    r_national_percentile row = Some (national_percentile o) /\
    percentile_min p <= national_percentile o <= percentile_max p /\
    (population_group p <> "" -> group_segment (a_geo_id o) = population_group p) /\
    (forall sl, given (p_summary_level p) = Some sl -> summary_level o = sl) /\
    (forall st, given (p_state_fips p) = Some st -> state_fips o = st).
Proof.
  intros _ H Hb Hin.
  destruct (rank_branches db p res H)
    as [[dens [Ed _]] | [[_ [Eb _]] | [_ [_ [Hr _]]]]].
  - rewrite (branch_of_rate p dens Ed) in Hb. discriminate.
  - congruence.
  - rewrite Hr in Hin. unfold direct_rows, direct_rows_with in Hin.
    apply in_map_iff in Hin as [[o n] [<- Hx]].
    apply limit_In, order_by_In, filter_In in Hx as [Hx Hw].
    apply left_join_In in Hx. cbn [fst] in Hx, Hw.
    unfold direct_where in Hw.
    apply andb_true_iff in Hw as [Hw Hex]. apply andb_true_iff in Hw as [Hw Hpg].
    apply andb_true_iff in Hw as [Hu Hband].
    unfold uid_is in Hu. destruct (hd_error (metricIds p)) as [id|]; [|discriminate].
    apply String.eqb_eq in Hu.
    unfold in_band in Hband. apply andb_true_iff in Hband as [Hlo Hhi].
    apply Qle_bool_iff in Hlo, Hhi.
    unfold exact_filters in Hex. apply andb_true_iff in Hex as [Hsl Hst].
    exists o, id. cbn.
    repeat split; auto.
    + intros Hne. unfold population_group_filter in Hpg.
      destruct (population_group p); [congruence|]. simpl in Hpg.
      now apply String.eqb_eq in Hpg.
    + intros sl E. rewrite E in Hsl. now apply String.eqb_eq in Hsl.
    + intros st E. rewrite E in Hst. now apply String.eqb_eq in Hst.
Qed.

Lemma direct_rows_sound_witness :
  Forall (fun row =>
            exists o id,
              In o (acs_with_percentiles Samples.store) /\
              hd_error (metricIds Samples.direct_request) = Some id /\ uid o = id /\
              r_geo_id row = a_geo_id o /\
              r_value row = Some (inject_Z (estimate o)) /\
              r_national_percentile row = Some (national_percentile o) /\
              percentile_min Samples.direct_request <= national_percentile o
                <= percentile_max Samples.direct_request /\
              (population_group Samples.direct_request <> "" ->
               group_segment (a_geo_id o) = population_group Samples.direct_request) /\
              (forall sl, given (p_summary_level Samples.direct_request) = Some sl ->
                          summary_level o = sl) /\
              (forall st, given (p_state_fips Samples.direct_request) = Some st ->
                          state_fips o = st))
         (rows_of (rankAreasByMetric Samples.store Samples.direct_request)).
Proof.
  apply Forall_forall. intros row Hin.
  destruct (rankAreasByMetric Samples.store Samples.direct_request) as [res|e] eqn:E;
    [|destruct Hin].
  exact (direct_rows_sound Samples.store Samples.direct_request res row
           eq_refl E eq_refl Hin).
Defined.

(** *** The sum branch *)

Lemma sum_over_ext {A : Type} (f q : A -> bool) (v : A -> Z) (l : list A) :
  (forall x, In x l -> f x = q x) -> sum_over f v l = sum_over q v l.
Proof.
  intros H. unfold sum_over. now rewrite (filter_ext_in _ _ _ H).
Qed.

Lemma sum_over_map {A B : Type} (h : A -> B) (f : B -> bool) (v : B -> Z) (l : list A) :
  sum_over f v (map h l) = sum_over (fun x => f (h x)) (fun x => v (h x)) l.
Proof.
  unfold sum_over. induction l as [|x l IH]; simpl; [reflexivity|].
  destruct (f (h x)); simpl; now rewrite IH.
Qed.

(** For a compound sum request whose group, level and state hold no quote,
    on a catalog with one row per key, every row of the ranking carries the
    sum of the estimates of all the observations of its key over the metric
    ids, and its key passes the group, level and state filters. *)
Theorem sum_rows_value (db : database) (p : params) (res : RankAreasResult)
    (row : RankResult) :
  spliced_ok p = true ->
  rankAreasByMetric db p = Ok res ->
  branch_of p = Sum ->
  NoDup (map t_geo_id (tiger_geometries db)) ->
  In row (results res) ->
  r_value row = Some (inject_Z (estimate_sum db (metricIds p) (r_geo_id row))) /\
  geo_filters p (r_geo_id row) = true /\
  exists o, In o (acs_with_percentiles db) /\
            uid_in (metricIds p) o = true /\ a_geo_id o = r_geo_id row.
Proof.
  intros _ H Hb Hnd Hin.
  destruct (rank_branches db p res H)
    as [[dens [Ed _]] | [[_ [_ [Hr _]]] | [_ [Eb _]]]].
  - rewrite (branch_of_rate p dens Ed) in Hb. discriminate.
  - rewrite Hr in Hin. clear Hr H Hb.
    destruct (left_join_unique db Hnd) as [f Hf].
    unfold sum_rows in Hin. apply in_map_iff in Hin as [[[g n] total] [<- Hx]].
    apply limit_In, order_by_In in Hx. unfold group_sum in Hx.
    apply in_map_iff in Hx as [gk [E Hk]]. injection E as -> <-.
    rewrite Hf in Hk |- *.
    rewrite (filter_map_fst (sum_where p (metricIds p)) (fun r => f (a_geo_id r))) in Hk |- *.
    apply (proj1 (distinct_In group_key_eqb group_key_eqb_eq _ _)) in Hk.
    rewrite map_map in Hk. apply in_map_iff in Hk as [o [E Ho]].
    unfold group_key in E. cbn [fst snd] in E. injection E as <- <-.
    apply filter_In in Ho as [Ho Hw]. unfold sum_where in Hw.
    apply andb_true_iff in Hw as [Hu Hg].
    cbn [sum_result r_geo_id r_value].
    split; [|split; [exact Hg | exists o; auto]].
    do 2 f_equal. rewrite sum_over_map, sum_over_filter. unfold estimate_sum.
    apply sum_over_ext. intros x _. unfold group_key, sum_where. cbn [fst snd].
    rewrite (group_key_eqb_tagged f).
    destruct (String.eqb_spec (a_geo_id x) (a_geo_id o)) as [->|];
      [now rewrite Hg, !andb_true_r | now rewrite !andb_false_r].
  - congruence.
Qed.

Lemma sum_rows_value_witness :
  Forall (fun row =>
            r_value row =
            Some (inject_Z (estimate_sum Samples.store ["A"; "B"] (r_geo_id row))))
         (rows_of (rankAreasByMetric Samples.store Samples.sum_request)).
Proof.
  apply Forall_forall. intros row Hin.
  destruct (rankAreasByMetric Samples.store Samples.sum_request) as [res|e] eqn:E;
    [|destruct Hin].
  apply (sum_rows_value Samples.store Samples.sum_request res row eq_refl E eq_refl);
    [|exact Hin].
  simpl. repeat (constructor; [simpl; intuition discriminate|]). constructor.
Defined.

(** *** The rate branch, the other way round *)



End RankingMore.

(** ** Population groups *)
Module PopulationGroupFacts.
Import Text Sql PopulationGroups SqlFacts DistinctFacts.
Local Open Scope nat_scope.

Lemma indicator_sum (a : string) (D : list string) :
  NoDup D -> In a D ->
  list_sum (map (fun g => if (a =? g)%string then 1 else 0) D) = 1.
Proof.
  induction 1 as [|g D Hnotin Hnd IH]; intros Hin; [destruct Hin|].
  simpl. destruct (String.eqb_spec a g) as [->|Hne].
  - f_equal. clear IH Hin.
    induction D as [|h D IHD]; [reflexivity|].
    simpl. destruct (String.eqb_spec g h) as [->|_].
    + exfalso. apply Hnotin. now left.
    + apply IHD; [intros H; apply Hnotin; now right | now inversion Hnd].
  - destruct Hin as [->|Hin]; [congruence|]. now apply IH.
Qed.

(** Grouping loses no row: the sizes of the groups add up to the table. *)
Lemma group_sizes_sum {A : Type} (k : A -> string) (l : list A) (D : list string) :
  NoDup D -> (forall x, In x l -> In (k x) D) ->
  list_sum (map (fun g => length (filter (fun r => (k r =? g)%string) l)) D) = length l.
Proof.
  intros Hnd. induction l as [|x l IH]; intros Hall.
  - clear. induction D; simpl; auto.
  - assert (E : map (fun g => length (filter (fun r => (k r =? g)%string) (x :: l))) D =
                map (fun g => (if (k x =? g)%string then 1 else 0) +
                              length (filter (fun r => (k r =? g)%string) l)) D).
    { apply map_ext. intros g. simpl. destruct (k x =? g)%string; reflexivity. }
    rewrite E. clear E.
    assert (S : forall (f h : string -> nat) (L : list string),
              list_sum (map (fun g => f g + h g) L) =
              list_sum (map f L) + list_sum (map h L)).
    { intros f h L. induction L; simpl; [reflexivity| rewrite IHL; lia]. }
    rewrite S, indicator_sum, IH; simpl; auto.
    + intros y Hy. apply Hall. now right.
    + apply Hall. now left.
Qed.

(** listPopulationGroups partitions the state-level observations by the group
    code of their key: the codes listed are different from one another, each
    is listed with the number (at least one) of state-level observations of
    that code, the counts add up to the number of state-level observations,
    and the groups come by falling count. A code of the table is listed under
    its name, any other as "Unknown (code)". *)
Theorem population_groups_partition (db : database) :
  let groups := listPopulationGroups db in
  let states := filter state_level (acs_with_percentiles db) in
  NoDup (map code groups) /\
  (forall g, In g groups ->
             record_count g =
               length (filter (fun r => (group_segment (a_geo_id r) =? code g)%string) states) /\
             record_count g >= 1 /\
             pg_name g = match Types.lookup (code g) POPULATION_GROUP_NAMES with
                         | Some n => n
                         | None => "Unknown (" ++ code g ++ ")"
                         end) /\
  (forall r, In r states -> exists g, In g groups /\ code g = group_segment (a_geo_id r)) /\
  list_sum (map record_count groups) = length states /\
  Sorted (fun a b => record_count b <= record_count a) groups.
Proof.
  intros groups states. subst groups. unfold listPopulationGroups.
  set (D := distinct String.eqb (map (fun r => group_segment (a_geo_id r)) states)).
  assert (HD : NoDup D) by apply (distinct_NoDup String.eqb String.eqb_eq).
  assert (Hgc : group_counts db =
                map (fun g => (g, length (filter (fun r => (group_segment (a_geo_id r) =? g)%string)
                                                 states))) D) by reflexivity.
  assert (Hperm : Permutation (order_by count_desc (group_counts db)) (group_counts db))
    by apply order_by_perm.
  split; [|split; [|split; [|split]]].
  - rewrite map_map. cbn [code].
    eapply Permutation_NoDup; [apply Permutation_map; symmetry; exact Hperm|].
    rewrite Hgc, map_map. cbn [fst]. now rewrite map_id.
  - intros g Hg. apply in_map_iff in Hg as [[c n] [<- Hin]]. cbn [code record_count pg_name fst snd].
    apply order_by_In in Hin. rewrite Hgc in Hin.
    apply in_map_iff in Hin as [c' [E Hc]]. injection E as -> <-.
    split; [reflexivity|]. split.
    + apply (proj1 (distinct_In String.eqb String.eqb_eq _ _)) in Hc.
      apply in_map_iff in Hc as [r [Hr Hin]].
      assert (Hf : In r (filter (fun r => (group_segment (a_geo_id r) =? c)%string) states))
        by (apply filter_In; split; [exact Hin | now apply String.eqb_eq]).
      destruct (filter (fun r => (group_segment (a_geo_id r) =? c)%string) states);
        [destruct Hf | simpl; lia].
    + unfold group_name, Types.lookup_or.
      destruct (Types.lookup c POPULATION_GROUP_NAMES) as [n|] eqn:El; [|reflexivity].
      assert (Ht : truthy n = true).
      { simpl in El.
        repeat match type of El with
               | (if ?b then _ else _) = _ =>
                   destruct b; [injection El as <-; reflexivity|]
               end. discriminate El. }
      now rewrite Ht.
  - intros r Hr.
    exists {| code := group_segment (a_geo_id r);
              pg_name := group_name (group_segment (a_geo_id r));
              record_count := length (filter (fun r' => (group_segment (a_geo_id r') =?
                                                          group_segment (a_geo_id r))%string)
                                             states) |}.
    split; [|reflexivity].
    apply in_map_iff. eexists (_, _). split; [reflexivity|].
    apply order_by_In. rewrite Hgc. apply in_map_iff.
    exists (group_segment (a_geo_id r)). split; [reflexivity|].
    apply (distinct_In String.eqb String.eqb_eq).
    now apply (in_map (fun r => group_segment (a_geo_id r))).
  - rewrite map_map. cbn [record_count].
    rewrite (map_ext _ snd) by reflexivity.
    rewrite (Permutation_list_sum (Permutation_map snd Hperm)), Hgc, map_map.
    cbn [snd].
    apply group_sizes_sum; [exact HD|].
    intros x Hx. apply (distinct_In String.eqb String.eqb_eq).
    now apply (in_map (fun r => group_segment (a_geo_id r))).
  - apply map_sorted.
    eapply RankingMore.Sorted_weaken;
      [|apply (order_by_sorted count_desc)].
    + intros a b Hab. unfold count_desc in Hab. now apply Nat.leb_le.
    + intros a b Hab. unfold count_desc in *.
      apply Nat.leb_gt in Hab. apply Nat.leb_le. lia.
Qed.

End PopulationGroupFacts.

(** ** db.js: BigInt conversion *)
Module DbFacts.
Import Db.

Section Values.
Variable number : Type.
Variable Number : Z -> number.

Abbreviation value := (js_value number).

Section Induction.
Variable P : value -> Prop.
Hypothesis P_null : P (JNull number).
Hypothesis P_undefined : P (JUndefined number).
Hypothesis P_bigint : forall n, P (JBigInt number n).
Hypothesis P_number : forall x, P (JNumber number x).
Hypothesis P_string : forall s, P (JString number s).
Hypothesis P_bool : forall b, P (JBool number b).
Hypothesis P_array : forall items, Forall P items -> P (JArray number items).
Hypothesis P_object :
  forall entries, Forall (fun kv => P (snd kv)) entries -> P (JObject number entries).

(** Induction through the arrays and the objects. *)
Fixpoint value_ind (v : value) : P v :=
  match v with
  | JNull _ => P_null
  | JUndefined _ => P_undefined
  | JBigInt _ n => P_bigint n
  | JNumber _ x => P_number x
  | JString _ s => P_string s
  | JBool _ b => P_bool b
  | JArray _ items =>
      P_array items
        ((fix all (l : list value) : Forall P l :=
            match l with
            | [] => Forall_nil P
            | x :: r => Forall_cons x (value_ind x) (all r)
            end) items)
  | JObject _ entries =>
      P_object entries
        ((fix all (l : list (string * value)) : Forall (fun kv => P (snd kv)) l :=
            match l with
            | [] => Forall_nil _
            | kv :: r =>
                Forall_cons kv
                  (match kv as kv0 return P (snd kv0) with
                   | (_, x) => value_ind x
                   end)
                  (all r)
            end) entries)
  end.

End Induction.

(** convertBigInts leaves no BigInt anywhere in a value, changes nothing in a
    value that has none, and so does nothing when applied a second time. *)
Theorem convertBigInts_clean (v : value) :
  has_bigint number (convertBigInts number Number v) = false /\
  (has_bigint number v = false -> convertBigInts number Number v = v) /\
  convertBigInts number Number (convertBigInts number Number v) =
    convertBigInts number Number v.
Proof.
  assert (Hclean : forall v : value,
             has_bigint number (convertBigInts number Number v) = false).
  { intros u. induction u as [| |n|x|s|b|items IH|entries IH] using value_ind;
      try reflexivity.
    - simpl. induction IH as [|x l Hx _ IHl]; simpl; [reflexivity|].
      now rewrite Hx, IHl.
    - simpl. induction IH as [|[k x] l Hx _ IHl]; simpl; [reflexivity|].
      simpl in Hx. now rewrite Hx, IHl. }
  assert (Hid : forall v : value,
             has_bigint number v = false -> convertBigInts number Number v = v).
  { intros u. induction u as [| |n|x|s|b|items IH|entries IH] using value_ind;
      try reflexivity.
    - discriminate.
    - simpl. intros H. f_equal.
      induction IH as [|x l Hx _ IHl]; simpl in *; [reflexivity|].
      apply orb_false_iff in H as [H1 H2]. now rewrite Hx, IHl.
    - simpl. intros H. f_equal.
      induction IH as [|[k x] l Hx _ IHl]; simpl in *; [reflexivity|].
      apply orb_false_iff in H as [H1 H2]. now rewrite Hx, IHl. }
  split; [apply Hclean|]. split; [apply Hid|].
  apply Hid, Hclean.
Qed.

End Values.

End DbFacts.

(** ** Outlier facts *)
Module ExplorationFacts.
Import Text Sql Lookup Exploration SqlFacts.

Lemma Qlt_bool_lt (x y : Q) : Qlt_bool x y = true <-> x < y.
Proof.
  unfold Qlt_bool. rewrite negb_true_iff. split.
  - intros H. apply Qnot_le_lt. intros Hle. apply Qle_bool_iff in Hle. congruence.
  - intros H. destruct (Qle_bool y x) eqn:E; [|reflexivity].
    apply Qle_bool_iff in E. exfalso. now apply (Qlt_not_le x y).
Qed.

Lemma outlier_rows_In (db : database) (geo : string) (threshold : Q)
    (keywords : option (list string)) (limit : nat) (pm : acs_row * metadata_row) :
  In pm (outlier_rows db geo threshold keywords limit) ->
  In (fst pm) (acs_with_percentiles db) /\ In (snd pm) (table_metadata db) /\
  uid (fst pm) = unique_id (snd pm) /\ a_geo_id (fst pm) = geo /\
  outlier threshold (national_percentile (fst pm)) = true /\
  category_filter keywords (snd pm) = true.
Proof.
  unfold outlier_rows. intros H.
  apply limit_In, order_by_In, filter_In in H as [H Hw].
  apply in_flat_map in H as [p [Hp H]]. apply in_map_iff in H as [m [<- Hm]].
  apply filter_In in Hm as [Hm Hu]. apply String.eqb_eq in Hu.
  cbn [fst snd] in *.
  apply andb_true_iff in Hw as [Hw Hc]. apply andb_true_iff in Hw as [Hg Ho].
  apply String.eqb_eq in Hg. repeat split; assumption.
Qed.

(** The shape of a non-null answer: the resolved area and a page of rows. *)
Lemma facts_answer (db : database) (location : string) (threshold : Q)
    (limit : nat) (category : option string) (r : InterestingFactsResult) :
  getInterestingFacts db location threshold limit category = Returns (Some r) ->
  resolveLocation db location None =
    Some {| geo_id := if_geo_id r; name := if_name r |} /\
  exists keywords,
    facts r = map to_fact (outlier_rows db (if_geo_id r) threshold keywords limit) /\
    (forall kws, keywords = Some kws ->
       exists c, category = Some c /\ own_keywords (lower c) CATEGORY_KEYWORDS = Some kws).
Proof.
  unfold getInterestingFacts.
  destruct (resolveLocation db location None) as [[g n]|]; [|discriminate].
  assert (Hg : forall c, given category = Some c -> category = Some c).
  { intros c. unfold given. destruct category as [x|]; [|discriminate].
    destruct (truthy x); [|discriminate]. now intros [= ->]. }
  destruct (given category) as [c|] eqn:Ec.
  - destruct (own_keywords (lower c) CATEGORY_KEYWORDS) as [kws|] eqn:Ek.
    + intros [= <-]. split; [reflexivity|]. exists (Some kws).
      split; [reflexivity|]. intros k [= <-]. exists c. auto.
    + destruct (inherited_key (lower c)); [discriminate|].
      intros [= <-]. split; [reflexivity|]. exists None.
      split; [reflexivity | discriminate].
  - intros [= <-]. split; [reflexivity|]. exists None.
    split; [reflexivity | discriminate].
Qed.

(** With a threshold of at most one half, every fact of getInterestingFacts
    is a real outlier on the side its direction names: an observation of the
    resolved area, joined to its metadata, that is "high" with a national
    percentile above 1 - threshold or "low" with one below threshold; and
    there are at most [limit] facts. *)
Theorem facts_are_outliers (db : database) (location : string) (threshold : Q)
    (limit : nat) (category : option string) (r : InterestingFactsResult) :
  threshold <= 1 # 2 ->
  getInterestingFacts db location threshold limit category = Returns (Some r) ->
  (length (facts r) <= limit)%nat /\
  forall f, In f (facts r) ->
    exists o m,
      In o (acs_with_percentiles db) /\ In m (table_metadata db) /\
      uid o = unique_id m /\ a_geo_id o = if_geo_id r /\
      f_national_percentile f = national_percentile o /\
      f_estimate f = estimate o /\
      f_table_id f = m_table_id m /\ f_title f = m_title m /\ f_label f = m_label m /\
      ((direction f = high /\ 1 - threshold < national_percentile o) \/
       (direction f = low /\ national_percentile o < threshold)).
Proof.
  intros Ht H. destruct (facts_answer _ _ _ _ _ _ H) as [_ [kws [Hf _]]].
  rewrite Hf. split.
  - rewrite length_map. unfold outlier_rows. rewrite limit_length. lia.
  - intros f Hin. apply in_map_iff in Hin as [[o m] [<- Hpm]].
    apply outlier_rows_In in Hpm as [Ho [Hm [Hu [Hg [Hout _]]]]]. cbn [fst snd] in *.
    exists o, m. unfold to_fact. cbn.
    repeat (split; [assumption || reflexivity|]).
    unfold outlier in Hout. apply orb_true_iff in Hout.
    destruct (Qlt_bool (1 # 2) (national_percentile o)) eqn:Eh.
    + left. split; [reflexivity|]. apply Qlt_bool_lt in Eh.
      destruct Hout as [Hhi|Hlo]; [now apply Qlt_bool_lt|].
      apply Qlt_bool_lt in Hlo. exfalso.
      apply (Qlt_irrefl (1 # 2)).
      eapply Qlt_le_trans; [eapply Qlt_trans; [exact Eh | exact Hlo] | exact Ht].
    + right. split; [reflexivity|].
      destruct Hout as [Hhi|Hlo]; [|now apply Qlt_bool_lt].
      apply Qlt_bool_lt in Hhi. exfalso.
      assert (Hn : ~ 1 # 2 < national_percentile o).
      { intros Hc. apply Qlt_bool_lt in Hc. congruence. }
      apply Hn. eapply Qle_lt_trans; [|exact Hhi].
      apply (Qplus_le_r _ _ (threshold - (1 # 2))). ring_simplify. exact Ht.
Qed.

Lemma facts_are_outliers_witness :
  exists r,
    getInterestingFacts MoreSamples.facts_store "california" (5 # 100) 20 None =
      Returns (Some r) /\
    (length (facts r) <= 20)%nat.
Proof.
  eexists. split; [vm_compute; reflexivity|].
  eapply (facts_are_outliers MoreSamples.facts_store "california" (5 # 100) 20 None).
  - discriminate.
  - vm_compute. reflexivity.
Defined.

Lemma lower_char_idem (c : ascii) : lower_char (lower_char c) = lower_char c.
Proof.
  destruct c as [b0 b1 b2 b3 b4 b5 b6 b7].
  destruct b0, b1, b2, b3, b4, b5, b6, b7; reflexivity.
Qed.

Lemma lower_idem (s : string) : lower (lower s) = lower s.
Proof.
  induction s as [|c s IH]; simpl; [reflexivity|].
  now rewrite lower_char_idem, IH.
Qed.

Lemma given_lower (c : string) :
  given (Some (lower c)) = option_map lower (given (Some c)).
Proof. destruct c; reflexivity. Qed.

(** The category is looked up in lower case, and a name that is no category
    is dropped without notice: a category gives what its lower-case spelling
    gives, and an unknown one (no key of the table, and not one of the two
    inherited names) gives what no category gives. *)
Theorem facts_category (db : database) (location : string) (threshold : Q)
    (limit : nat) (c : string) :
  getInterestingFacts db location threshold limit (Some c) =
    getInterestingFacts db location threshold limit (Some (lower c)) /\
  (own_keywords (lower c) CATEGORY_KEYWORDS = None ->
   inherited_key (lower c) = false ->
   getInterestingFacts db location threshold limit (Some c) =
     getInterestingFacts db location threshold limit None).
Proof.
  unfold getInterestingFacts.
  destruct (resolveLocation db location None) as [resolved|]; [|split; reflexivity].
  rewrite given_lower.
  destruct (given (Some c)) as [x|] eqn:Eg; cbn [option_map given].
  - assert (x = c) by (destruct c; [discriminate Eg | now injection Eg]). subst x.
    rewrite lower_idem. split; [reflexivity|].
    intros Hk Hi. now rewrite Hk, Hi.
  - split; reflexivity.
Qed.

Lemma facts_category_witness :
  getInterestingFacts MoreSamples.facts_store "california" (5 # 100) 20 (Some "Sports") =
  getInterestingFacts MoreSamples.facts_store "california" (5 # 100) 20 None.
Proof.
  apply (facts_category MoreSamples.facts_store "california" (5 # 100) 20 "Sports");
    reflexivity.
Defined.

(** How a call ends: with null exactly when the location does not resolve;
    with a TypeError exactly when it resolves and the category, in lower case,
    is "constructor" or "__proto__" (names every object inherits, whose value
    has no [map]); otherwise with facts. *)
Theorem facts_outcomes (db : database) (location : string) (threshold : Q)
    (limit : nat) (category : option string) :
  (getInterestingFacts db location threshold limit category = Returns None <->
   resolveLocation db location None = None) /\
  (getInterestingFacts db location threshold limit category = TypeError <->
   resolveLocation db location None <> None /\
   exists c, category = Some c /\
             (lower c = "constructor" \/ lower c = "__proto__")).
Proof.
  unfold getInterestingFacts.
  destruct (resolveLocation db location None) as [resolved|].
  2:{ split; split; try reflexivity; try discriminate. intros [H _]. congruence. }
  assert (Hinh : forall k, inherited_key k = true <->
                           (k = "constructor" \/ k = "__proto__")).
  { intros k. unfold inherited_key. now rewrite orb_true_iff, !String.eqb_eq. }
  assert (Hown : forall k kws, own_keywords k CATEGORY_KEYWORDS = Some kws ->
                               inherited_key k = false).
  { intros k kws Hk. destruct (inherited_key k) eqn:Ei; [|reflexivity].
    apply Hinh in Ei. destruct Ei as [-> | ->]; discriminate Hk. }
  destruct category as [c|]; cbn [given].
  - destruct (truthy c) eqn:Et.
    + destruct (own_keywords (lower c) CATEGORY_KEYWORDS) as [kws|] eqn:Ek.
      * pose proof (Hown _ _ Ek) as Hf.
        split; split; try discriminate.
        intros [_ [c' [[= <-] Hc]]]. apply Hinh in Hc. congruence.
      * destruct (inherited_key (lower c)) eqn:Ei.
        -- split; split; try discriminate.
           ++ intros _. split; [discriminate|]. exists c. split; [reflexivity|].
              now apply Hinh.
           ++ reflexivity.
        -- split; split; try discriminate.
           intros [_ [c' [[= <-] Hc]]]. apply Hinh in Hc. congruence.
    + destruct c; [|discriminate Et].
      split; split; try discriminate.
      intros [_ [c' [[= <-] [Hc|Hc]]]]; discriminate Hc.
  - split; split; try discriminate.
    intros [_ [c' [Hc _]]]. discriminate Hc.
Qed.

Lemma extremity_desc_total (a b : acs_row * metadata_row) :
  extremity_desc a b = false -> extremity_desc b a = true.
Proof. unfold extremity_desc. apply RankingMore.Qle_bool_total. Qed.

(** The facts stand with the most extreme first: in falling order of the
    distance of their national percentile from one half. *)
Theorem facts_sorted (db : database) (location : string) (threshold : Q)
    (limit : nat) (category : option string) (r : InterestingFactsResult) :
  getInterestingFacts db location threshold limit category = Returns (Some r) ->
  Sorted (fun a b => extremity (f_national_percentile b) <=
                     extremity (f_national_percentile a))
         (facts r).
Proof.
  intros H. destruct (facts_answer _ _ _ _ _ _ H) as [_ [kws [Hf _]]].
  rewrite Hf. apply map_sorted. cbn [to_fact f_national_percentile].
  unfold outlier_rows. apply limit_sorted.
  eapply RankingMore.Sorted_weaken; [|apply order_by_sorted, extremity_desc_total].
  intros a b Hab. unfold extremity_desc in Hab. now apply Qle_bool_iff.
Qed.

Lemma facts_sorted_witness :
  exists r,
    getInterestingFacts MoreSamples.facts_store "california" (5 # 100) 20 None =
      Returns (Some r) /\
    Sorted (fun a b => extremity (f_national_percentile b) <=
                       extremity (f_national_percentile a))
           (facts r).
Proof.
  eexists. split; [vm_compute; reflexivity|].
  eapply (facts_sorted MoreSamples.facts_store "california" (5 # 100) 20 None).
  vm_compute. reflexivity.
Defined.

End ExplorationFacts.

(** ** Area summaries and comparisons *)
Module SummariesFacts.
Import Text Sql Lookup Summaries SqlFacts LookupFacts LookupMore.

(** The land area is rounded from the binary64 product: at 2602950 square
    meters the quotient by 2.59e6 is the double just below 1.005, its product
    with 100 is below 100.5, and the area is 1, not 1.01. *)
Lemma land_area_rounds_the_double :
  Double.to_Q (round_hundredths
                 (Double.div (Double.of_Z 2602950) SQ_METERS_TO_SQ_MILES)) = 1 /\
  inject_Z 2602950 / 2590000 == 1005 # 1000.
Proof. split; vm_compute; reflexivity. Qed.

(** A summary is never truncated and never falls back on a zero area: the
    answer of getAreaSummary is the resolved location; its land area is that
    of a catalog row of the key, as JavaScript computes it on numbers (the
    quotient by 2.59e6, times 100, to the nearest integer with halves
    upwards, over 100, each step in binary64); every table row carries a
    catalog row of the key that passes the table filter; and every such
    catalog row is carried, however many there are. *)
Theorem area_summary (aland : tiger_row -> Z) (parse : string -> option string)
    (db : database) (location : string) (tbls : option (list string))
    (r : AreaSummaryResult) :
  getAreaSummary aland parse db location tbls = Ok (Some r) ->
  resolveLocation db location None =
    Some {| geo_id := as_geo_id r; name := as_name r |} /\
  as_summary_level r = getSummaryLevel (as_geo_id r) /\
  (exists t, In t (tiger_geometries db) /\ t_geo_id t = as_geo_id r /\
             land_area_sq_miles r =
               Double.to_Q
                 (round_hundredths
                    (Double.div (Double.of_Z (aland t)) SQ_METERS_TO_SQ_MILES))) /\
  (forall d, In d (tables r) ->
     exists g, In g (geo_lookup db) /\ g_geo_id g = as_geo_id r /\
               table_filter db tbls g = true /\
               carries parse (g_title g, g_universe g, g_labels_data g) d) /\
  (forall g, In g (geo_lookup db) -> g_geo_id g = as_geo_id r ->
             table_filter db tbls g = true ->
     exists d, In d (tables r) /\
               carries parse (g_title g, g_universe g, g_labels_data g) d).
Proof.
  unfold getAreaSummary.
  destruct (resolveLocation db location None) as [[geo nm]|] eqn:Er; [|discriminate].
  cbn [geo_id name].
  destruct (map_data parse (data_rows db geo tbls)) as [ds|e] eqn:Ed; [|discriminate].
  cbn [bind]. intros [= <-].
  cbn [as_geo_id as_name as_summary_level land_area_sq_miles tables].
  apply map_data_ok in Ed.
  split; [reflexivity|]. split; [reflexivity|]. split; [|split].
  - destruct (resolved_row db location None _ Er) as [t [Hin [Hg _]]].
    cbn [geo_id] in Hg.
    unfold areaResult.
    destruct (filter (fun t0 => (t_geo_id t0 =? geo)%string) (tiger_geometries db))
      as [|t0 ts] eqn:Ef.
    + exfalso.
      assert (Hf : In t (filter (fun t0 => (t_geo_id t0 =? geo)%string)
                                (tiger_geometries db)))
        by (apply filter_In; split; [exact Hin | now apply String.eqb_eq]).
      rewrite Ef in Hf. destruct Hf.
    + assert (Hf : In t0 (filter (fun t0 => (t_geo_id t0 =? geo)%string)
                                 (tiger_geometries db)))
        by (rewrite Ef; now left).
      apply filter_In in Hf as [Hin0 Hg0]. apply String.eqb_eq in Hg0.
      exists t0. cbn [map]. auto.
  - intros d Hd.
    destruct (Forall2_In_r _ _ _ _ Ed Hd) as [row [Hrow Hc]].
    apply data_rows_In in Hrow as [g [Hin [Hg [Hf ->]]]].
    exists g. auto.
  - intros g Hin Hg Hf.
    apply (Forall2_In_l _ _ _ _ Ed).
    apply data_rows_In. exists g. auto.
Qed.

Lemma area_summary_witness :
  exists r,
    getAreaSummary (fun _ => 423970000000%Z) Samples.parse_any
                   MoreSamples.facts_store "california" None = Ok (Some r) /\
    resolveLocation MoreSamples.facts_store "california" None =
      Some {| geo_id := as_geo_id r; name := as_name r |} /\
    length (tables r) = 2%nat.
Proof.
  eexists. split; [vm_compute; reflexivity|]. split; [|reflexivity].
  eapply (area_summary (fun _ => 423970000000%Z) Samples.parse_any
            MoreSamples.facts_store "california" None).
  vm_compute. reflexivity.
Defined.

Lemma comparisonResults_In (a_table_id : acs_row -> string) (db : database)
    (ga gb : string) (mids tids : option (list string))
    (a b : acs_row) (m : metadata_row) :
  In (a, b, m) (comparisonResults a_table_id db ga gb mids tids) ->
  In a (acs_with_percentiles db) /\ In b (acs_with_percentiles db) /\
  In m (table_metadata db) /\
  uid a = uid b /\ uid a = unique_id m /\
  a_geo_id a = ga /\ a_geo_id b = gb /\
  metric_filter a_table_id mids tids a = true.
Proof.
  unfold comparisonResults. intros H.
  apply limit_In, filter_In in H as [H Hw].
  apply in_flat_map in H as [[a' b'] [Hab H]].
  apply in_map_iff in H as [m' [E Hm]]. injection E as -> -> ->.
  apply filter_In in Hm as [Hm Hum]. apply String.eqb_eq in Hum.
  apply in_flat_map in Hab as [a' [Ha Hb]].
  apply in_map_iff in Hb as [b' [E Hb]]. injection E as -> ->.
  apply filter_In in Hb as [Hb Hub]. apply String.eqb_eq in Hub.
  apply andb_true_iff in Hw as [Hw Hf]. apply andb_true_iff in Hw as [Hga Hgb].
  apply String.eqb_eq in Hga, Hgb. cbn [fst] in Hum.
  repeat split; assumption.
Qed.

(** compareAreas answers null exactly when one of the two locations does not
    resolve. Otherwise it names the two resolved areas and gives at most 100
    comparisons, each of a metric that is in the metadata and is observed in
    both areas, with the estimate and percentile of either observation, and
    that passes the filter: the metric ids when given, else the table ids. *)
Theorem compare_areas (a_table_id : acs_row -> string) (db : database)
    (location_a location_b : string) (mids tids : option (list string)) :
  (compareAreas a_table_id db location_a location_b mids tids = None <->
   resolveLocation db location_a None = None \/
   resolveLocation db location_b None = None) /\
  (forall r, compareAreas a_table_id db location_a location_b mids tids = Some r ->
     resolveLocation db location_a None = Some (area_a r) /\
     resolveLocation db location_b None = Some (area_b r) /\
     (length (comparisons r) <= 100)%nat /\
     forall c, In c (comparisons r) ->
       exists oa ob m,
         In oa (acs_with_percentiles db) /\ In ob (acs_with_percentiles db) /\
         In m (table_metadata db) /\
         a_geo_id oa = geo_id (area_a r) /\ a_geo_id ob = geo_id (area_b r) /\
         uid oa = cm_metric_id c /\ uid ob = cm_metric_id c /\
         unique_id m = cm_metric_id c /\ cm_label c = m_label m /\
         value_a c = estimate oa /\ value_b c = estimate ob /\
         percentile_a c = national_percentile oa /\
         percentile_b c = national_percentile ob /\
         (forall ids, mids = Some ids -> ids <> [] ->
                      mem String.eqb (cm_metric_id c) ids = true) /\
         ((mids = None \/ mids = Some []) ->
          forall ts, tids = Some ts -> ts <> [] ->
                     mem String.eqb (a_table_id oa) ts = true)).
Proof.
  unfold compareAreas.
  destruct (resolveLocation db location_a None) as [[ga na]|];
    destruct (resolveLocation db location_b None) as [[gb nb]|];
    (split; [split; [try discriminate; auto | intros [H|H]; (discriminate H || reflexivity)]|]);
    try (intros r H; discriminate H).
  intros r [= <-]. cbn [area_a area_b comparisons geo_id name].
  split; [reflexivity|]. split; [reflexivity|]. split.
  - rewrite length_map. unfold comparisonResults. rewrite limit_length. lia.
  - intros c Hc. apply in_map_iff in Hc as [[[oa ob] m] [<- Hx]].
    apply comparisonResults_In in Hx
      as [Ha [Hb [Hm [Hab [Ham [Hga [Hgb Hf]]]]]]].
    exists oa, ob, m. cbn.
    repeat (split; [assumption || reflexivity || congruence|]).
    unfold metric_filter in Hf. split.
    + intros ids -> Hne. destruct ids; [congruence | exact Hf].
    + intros Hmids ts -> Hne.
      destruct Hmids as [-> | ->]; (destruct ts; [congruence | exact Hf]).
Qed.

End SummariesFacts.

(** ** Discovery *)
Module DiscoveryFacts.
Import Text Sql Discovery DiscoveryTerms SqlFacts DistinctFacts.
Local Open Scope nat_scope.

(** *** Joining with ", " and splitting again *)

Lemma append_empty (s : string) : (s ++ "")%string = s.
Proof. induction s as [|c s IH]; simpl; [reflexivity | now rewrite IH]. Qed.

Lemma append_snoc (a : string) (c : ascii) (x : string) :
  ((a ++ String c "") ++ x)%string = (a ++ String c x)%string.
Proof. induction a as [|d a IH]; simpl; [reflexivity | now rewrite IH]. Qed.

Lemma split2_plain (x acc : string) :
  char_free "," x = true ->
  split2_from "," " " x acc = [(acc ++ x)%string] /\
  forall r, split2_from "," " " (x ++ String "," (String " " r)) acc =
            (acc ++ x)%string :: split2_from "," " " r "".
Proof.
  revert acc. induction x as [|c x IH]; intros acc H.
  - rewrite append_empty. split; reflexivity.
  - simpl in H. apply andb_true_iff in H as [Hc Hx]. apply negb_true_iff in Hc.
    destruct (IH (acc ++ String c "")%string Hx) as [IH1 IH2].
    rewrite append_snoc in IH1, IH2.
    split.
    + simpl. rewrite Hc. exact IH1.
    + intros r. simpl. rewrite Hc. apply IH2.
Qed.

Lemma split_concat (l : list string) :
  l <> [] -> Forall (fun x => char_free "," x = true) l ->
  split2 "," " " (String.concat ", " l) = l.
Proof.
  intros Hne Hall. unfold split2.
  induction Hall as [|x l Hx Hl IH]; [congruence|].
  destruct l as [|y l'].
  - simpl. now destruct (split2_plain x "" Hx) as [-> _].
  - change (String.concat ", " (x :: y :: l'))
      with (x ++ String "," (String " " (String.concat ", " (y :: l'))))%string.
    destruct (split2_plain x "" Hx) as [_ ->].
    simpl append. f_equal. apply IH. discriminate.
Qed.

(** The examples read back from the joined text are the first three of the
    list, when no id holds a comma or is empty. *)
Lemma example_list_plain (l : list string) :
  Forall (fun x => plain_id x = true) l ->
  example_list (String.concat ", " l) = firstn 3 l.
Proof.
  intros Hall. unfold example_list.
  destruct l as [|x l]; [reflexivity|].
  assert (Hc : Forall (fun x => char_free "," x = true) (x :: l)).
  { eapply Forall_impl; [|exact Hall]. intros a Ha. unfold plain_id in Ha.
    now apply andb_true_iff in Ha as [Ha _]. }
  assert (Ht : truthy (String.concat ", " (x :: l)) = true).
  { inversion Hall as [|? ? Hx _]; subst. unfold plain_id in Hx.
    apply andb_true_iff in Hx as [_ Hx].
    destruct x as [|c x]; [discriminate Hx|].
    destruct l; reflexivity. }
  rewrite Ht, split_concat; [reflexivity | discriminate | exact Hc].
Qed.

Lemma sorted_distinct_In (x : string) (l : list string) :
  In x (sorted_distinct l) <-> In x l.
Proof.
  unfold sorted_distinct. rewrite order_by_In.
  apply (distinct_In String.eqb String.eqb_eq).
Qed.

Lemma sorted_distinct_NoDup (l : list string) : NoDup (sorted_distinct l).
Proof.
  unfold sorted_distinct.
  eapply Permutation_NoDup; [symmetry; apply order_by_perm|].
  apply (distinct_NoDup String.eqb String.eqb_eq).
Qed.

(** *** listTopics *)

(** listTopics answers with the ten topics of its table, in order. For each,
    the count is the number of different table ids that have a row whose
    title holds one of the topic's keywords; and, the table ids being free of
    commas and not empty, the examples are the first three of those ids in
    rising order, each the id of such a row. *)
Theorem list_topics (db : database) :
  (forall m, In m (table_metadata db) -> plain_id (m_table_id m) = true) ->
  map topic_name (listTopics db) = map (fun e => fst (snd e)) TOPIC_CATEGORIES /\
  Forall2 (fun e t =>
             let ids := topic_tables db (snd (snd e)) in
             NoDup ids /\
             Sorted (fun a b => String.leb a b = true) ids /\
             (forall id, In id ids <->
                         exists m, In m (table_metadata db) /\ m_table_id m = id /\
                                   title_has (snd (snd e)) m = true) /\
             table_count t = length ids /\
             example_tables t = firstn 3 ids)
          TOPIC_CATEGORIES (listTopics db).
Proof.
  intros Hplain. unfold listTopics. split.
  - rewrite map_map. reflexivity.
  - induction TOPIC_CATEGORIES as [|e l IH]; simpl; constructor; [|exact IH].
    cbn [table_count example_tables].
    split; [apply sorted_distinct_NoDup|]. split; [|split; [|split]].
    + unfold topic_tables, sorted_distinct. apply order_by_sorted.
      intros a b H. destruct (String.leb_total a b); congruence.
    + intros id. unfold topic_tables. rewrite sorted_distinct_In, in_map_iff.
      split.
      * intros [m [<- Hm]]. apply filter_In in Hm as [Hin Ht]. eauto.
      * intros [m [Hin [<- Ht]]]. exists m. split; [reflexivity|].
        apply filter_In. auto.
    + reflexivity.
    + apply example_list_plain. apply Forall_forall. intros id Hid.
      unfold topic_tables in Hid. apply (proj1 (sorted_distinct_In _ _)) in Hid.
      apply in_map_iff in Hid as [m [<- Hm]]. apply filter_In in Hm as [Hin _].
      now apply Hplain.
Qed.

Lemma list_topics_witness :
  map topic_name (listTopics MoreSamples.facts_store) =
  map (fun e => fst (snd e)) TOPIC_CATEGORIES.
Proof.
  apply (list_topics MoreSamples.facts_store).
  intros m Hm. simpl in Hm.
  repeat (destruct Hm as [<-|Hm]; [reflexivity|]). destruct Hm.
Defined.

Section ColumnFacts.
Variable m_universe : metadata_row -> string.
Variable m_line : metadata_row -> Q.

(** *** describeTable *)

Lemma line_leb_total (a b : metadata_row) :
  line_leb m_line a b = false -> line_leb m_line b a = true.
Proof.
  unfold line_leb. intros H. apply Qle_bool_iff. apply Qlt_le_weak, Qnot_le_lt.
  intros Hle. apply Qle_bool_iff in Hle. congruence.
Qed.

(** describeTable answers null exactly when no metadata row has the table id
    asked for. Otherwise the answer carries that id, its labels are the rows
    of the table (each once per row) in rising order of line, and its title
    and universe are those of a row of the table whose line is least. *)
Theorem describe_table (db : database) (tableId : string) :
  match describeTable m_universe m_line db tableId with
  | None => forall m, In m (table_metadata db) -> m_table_id m <> tableId
  | Some r =>
      dt_table_id r = tableId /\
      Permutation (labels r)
        (map (fun row => {| tl_unique_id := unique_id row;
                            tl_line := m_line row;
                            tl_label := m_label row |})
             (filter (fun m => (m_table_id m =? tableId)%string) (table_metadata db))) /\
      Sorted (fun a b => (tl_line a <= tl_line b)%Q) (labels r) /\
      exists first,
        In first (table_metadata db) /\ m_table_id first = tableId /\
        dt_title r = m_title first /\ dt_universe r = m_universe first /\
        forall m, In m (table_metadata db) -> m_table_id m = tableId ->
                  (m_line first <= m_line m)%Q
  end.
Proof.
  unfold describeTable.
  set (rows := filter (fun m => (m_table_id m =? tableId)%string) (table_metadata db)).
  destruct (order_by (line_leb m_line) rows) as [|first rest] eqn:E.
  - apply order_by_nil in E. intros m Hm Hid.
    assert (Hin : In m rows).
    { apply filter_In. split; [exact Hm | now apply String.eqb_eq]. }
    rewrite E in Hin. destruct Hin.
  - assert (Hfirst : In first rows) by (eapply order_by_head_In; exact E).
    apply filter_In in Hfirst as [Hfin Hfid]. apply String.eqb_eq in Hfid.
    cbn [dt_table_id dt_title dt_universe labels].
    split; [exact Hfid|]. split; [|split].
    + rewrite <- E. apply Permutation_map, order_by_perm.
    + rewrite <- E. apply map_sorted. cbn [tl_line].
      eapply RankingMore.Sorted_weaken; [|apply order_by_sorted, line_leb_total].
      intros a b H. now apply Qle_bool_iff.
    + exists first. repeat split; try assumption.
      intros m Hm Hid.
      apply (order_by_head (line_leb m_line) line_leb_total m_line Qle
               Qle_refl Qle_trans) with (l := rows) (t := rest); [| exact E |].
      * intros a b H. now apply Qle_bool_iff.
      * apply filter_In. split; [exact Hm | now apply String.eqb_eq].
Qed.

(** *** listUniverses *)

Lemma tables_desc_total (a b : string * list string) :
  tables_desc a b = false -> tables_desc b a = true.
Proof.
  unfold tables_desc. intros H. apply Nat.leb_gt in H. apply Nat.leb_le. lia.
Qed.

Lemma universe_groups_keys (db : database) :
  map fst (universe_groups m_universe db) =
  distinct String.eqb (map m_universe (table_metadata db)).
Proof.
  unfold universe_groups. rewrite map_map. simpl. apply map_id.
Qed.

Lemma universe_groups_In (db : database) (g : string * list string) :
  In g (universe_groups m_universe db) ->
  (exists m, In m (table_metadata db) /\ m_universe m = fst g) /\
  snd g = sorted_distinct
            (map m_table_id
                 (filter (fun m => (m_universe m =? fst g)%string) (table_metadata db))).
Proof.
  unfold universe_groups. intros H. apply in_map_iff in H as [u [<- Hu]].
  apply (proj1 (distinct_In String.eqb String.eqb_eq _ _)) in Hu.
  apply in_map_iff in Hu as [m [<- Hm]]. simpl. split; [eauto | reflexivity].
Qed.

(** listUniverses answers with one entry for each of at most [limit]
    different universes of the metadata, total_count being the number of
    entries answered (not of universes in the data). The entries stand in
    falling order of table count; the count of an entry is the number of
    different table ids with a row of that universe, at least one; and, the
    table ids being free of commas and not empty, its examples are the first
    three of those ids in rising order. *)
Theorem list_universes (db : database) (limit : nat) :
  (forall m, In m (table_metadata db) -> plain_id (m_table_id m) = true) ->
  let r := listUniverses m_universe db limit in
  lu_total_count r = length (universes r) /\
  length (universes r) =
    Nat.min limit (length (distinct String.eqb (map m_universe (table_metadata db)))) /\
  NoDup (map ui_universe (universes r)) /\
  Sorted (fun a b => ui_table_count b <= ui_table_count a) (universes r) /\
  Forall (fun u =>
            let ids := sorted_distinct
                         (map m_table_id
                              (filter (fun m => (m_universe m =? ui_universe u)%string)
                                      (table_metadata db))) in
            (exists m, In m (table_metadata db) /\ m_universe m = ui_universe u) /\
            ui_table_count u = length ids /\
            1 <= ui_table_count u /\
            ui_example_tables u = firstn 3 ids)
         (universes r).
Proof.
  intros Hplain r. unfold r, listUniverses. cbn [universes lu_total_count].
  set (page := Sql.limit limit (order_by tables_desc (universe_groups m_universe db))).
  split; [now rewrite length_map|]. split; [|split; [|split]].
  - rewrite length_map. unfold page.
    rewrite limit_length, order_by_length.
    rewrite <- (length_map fst), universe_groups_keys. reflexivity.
  - rewrite map_map. cbn [ui_universe].
    change (fun x : string * list string => fst x) with (@fst string (list string)).
    unfold page. apply RankingFacts.page_keys_NoDup.
    rewrite universe_groups_keys. apply (distinct_NoDup String.eqb String.eqb_eq).
  - apply map_sorted. cbn [ui_table_count]. unfold page. apply limit_sorted.
    eapply RankingMore.Sorted_weaken; [|apply order_by_sorted, tables_desc_total].
    intros a b H. unfold tables_desc in H. now apply Nat.leb_le in H.
  - apply Forall_forall. intros u Hu. apply in_map_iff in Hu as [g [<- Hg]].
    cbn [ui_universe ui_table_count ui_example_tables].
    unfold page in Hg. apply limit_In in Hg. apply order_by_In in Hg.
    apply universe_groups_In in Hg as [[m [Hm Hu]] Hids].
    rewrite <- Hids. split; [eauto|]. split; [reflexivity|]. split.
    + assert (Hin : In (m_table_id m) (snd g)).
      { rewrite Hids. apply sorted_distinct_In. apply in_map.
        apply filter_In. split; [exact Hm | now apply String.eqb_eq]. }
      destruct (snd g); [destruct Hin | simpl; lia].
    + apply example_list_plain. apply Forall_forall. intros id Hid.
      rewrite Hids in Hid. apply (proj1 (sorted_distinct_In _ _)) in Hid.
      apply in_map_iff in Hid as [m' [<- Hm']]. apply filter_In in Hm' as [Hin _].
      now apply Hplain.
Qed.

End ColumnFacts.

Lemma list_universes_witness :
  lu_total_count (listUniverses (fun m => m_title m) MoreSamples.facts_store 2) = 2.
Proof.
  pose proof (list_universes (fun m => m_title m) MoreSamples.facts_store 2) as H.
  destruct H as [H1 [H2 _]].
  - intros m Hm. simpl in Hm.
    repeat (destruct Hm as [<-|Hm]; [reflexivity|]). destruct Hm.
  - rewrite H1, H2. reflexivity.
Defined.

(** *** The words of a search *)

Lemma split_space_nonempty (s acc : string) (gap : bool) :
  split_space_from s acc gap <> [].
Proof.
  revert acc gap. induction s as [|c s IH]; intros acc gap; simpl; [discriminate|].
  destruct (is_space c); [destruct gap|]; try apply IH. discriminate.
Qed.

Lemma spaceless_snoc (acc : string) (c : ascii) :
  spaceless acc = true -> is_space c = false ->
  spaceless (acc ++ String c "") = true.
Proof.
  intros Ha Hc. induction acc as [|d acc IH]; simpl in *.
  - now rewrite Hc.
  - apply andb_true_iff in Ha as [Hd Ha]. rewrite Hd. now apply IH.
Qed.

Lemma split_space_spaceless (s acc : string) (gap : bool) :
  spaceless acc = true ->
  Forall (fun w => spaceless w = true) (split_space_from s acc gap).
Proof.
  revert acc gap. induction s as [|c s IH]; intros acc gap Ha; simpl.
  - now constructor.
  - destruct (is_space c) eqn:Hc.
    + destruct gap; [now apply IH|]. constructor; [exact Ha | now apply IH].
    + apply IH. now apply spaceless_snoc.
Qed.

Lemma concat_cons (x : string) (l : list string) :
  l <> [] -> String.concat "" (x :: l) = (x ++ String.concat "" l)%string.
Proof. destruct l; [congruence | reflexivity]. Qed.

Lemma split_space_letters (s acc : string) (gap : bool) :
  (gap = true -> acc = "") ->
  String.concat "" (split_space_from s acc gap) = (acc ++ letters s)%string.
Proof.
  revert acc gap. induction s as [|c s IH]; intros acc gap Hgap; simpl.
  - now rewrite append_empty.
  - destruct (is_space c) eqn:Hc.
    + destruct gap.
      * rewrite (Hgap eq_refl). now apply IH.
      * rewrite concat_cons by apply split_space_nonempty.
        now rewrite IH.
    + rewrite IH by discriminate. apply append_snoc.
Qed.

Lemma concat_filter_nonempty (l : list string) :
  String.concat "" (filter (fun w => negb (String.length w =? 0)) l) =
  String.concat "" l.
Proof.
  induction l as [|x l IH]; [reflexivity|].
  assert (Hx : forall r, String.concat "" (x :: r) = (x ++ String.concat "" r)%string).
  { intros [|y r]; [simpl; now rewrite append_empty | reflexivity]. }
  rewrite Hx. simpl filter. destruct x as [|c x].
  - simpl. exact IH.
  - cbn [String.length Nat.eqb negb].
    set (f := filter _ l) in *.
    assert (Hf : forall r, String.concat "" (String c x :: r)
                           = (String c x ++ String.concat "" r)%string).
    { intros [|y r]; [simpl; now rewrite append_empty | reflexivity]. }
    now rewrite Hf, IH.
Qed.

Lemma letters_trim_left (s : string) : letters (trim_left s) = letters s.
Proof.
  induction s as [|c s IH]; [reflexivity|]. simpl.
  destruct (is_space c) eqn:Hc; [exact IH|]. simpl. now rewrite Hc.
Qed.

Lemma letters_trim_right (s : string) : letters (trim_right s) = letters s.
Proof.
  induction s as [|c s IH]; [reflexivity|].
  cbn [trim_right]. destruct (trim_right s) as [|d r] eqn:E.
  - cbn [letters] in *. rewrite <- IH.
    destruct (is_space c) eqn:Hc; [reflexivity|]. cbn [letters]. now rewrite Hc.
  - change (letters (String c (String d r)))
      with (if is_space c then letters (String d r)
            else String c (letters (String d r))).
    rewrite IH. reflexivity.
Qed.

Lemma words_clean (searchQuery : string) :
  Forall (fun w => w <> "" /\ spaceless w = true) (words_of searchQuery).
Proof.
  unfold words_of.
  apply Forall_forall. intros w Hw. apply filter_In in Hw as [Hin Hlen].
  split.
  - intros ->. discriminate Hlen.
  - pose proof (split_space_spaceless (trim searchQuery) "" false eq_refl) as H.
    rewrite Forall_forall in H. now apply H.
Qed.

Lemma words_letters (searchQuery : string) :
  String.concat "" (words_of searchQuery) = letters searchQuery.
Proof.
  unfold words_of.
  rewrite concat_filter_nonempty, split_space_letters by discriminate.
  unfold trim. simpl. now rewrite letters_trim_right, letters_trim_left.
Qed.

Lemma letters_blank (s : string) : letters s = "" <-> blank s = true.
Proof.
  induction s as [|c s IH]; simpl; [tauto|].
  destruct (is_space c); simpl; [exact IH|]. split; discriminate.
Qed.

Lemma words_of_blank (s : string) : words_of s = [] <-> blank s = true.
Proof.
  rewrite <- letters_blank, <- words_letters. split; [now intros ->|].
  intros H. pose proof (words_clean s) as Hc.
  destruct (words_of s) as [|w ws]; [reflexivity|]. exfalso.
  inversion Hc as [|? ? [Hne _] _]; subst.
  destruct w; [congruence|]. destruct ws; discriminate.
Qed.

(** The words a search query is cut into are never empty and hold no white
    space, and together they keep every other character of the query, in
    order: cutting loses white space only. There is no word exactly when the
    query is white space throughout. *)
Theorem words_of_query (searchQuery : string) :
  Forall (fun w => w <> "" /\ spaceless w = true) (words_of searchQuery) /\
  String.concat "" (words_of searchQuery) = letters searchQuery /\
  (words_of searchQuery = [] <-> blank searchQuery = true).
Proof.
  split; [apply words_clean|]. split; [apply words_letters | apply words_of_blank].
Qed.

(** *** searchData *)

Section SearchFacts.
Variable m_universe : metadata_row -> string.

Lemma search_group_leb_total (first : string) (a b : string * string * string * string) :
  search_group_leb first a b = false -> search_group_leb first b a = true.
Proof.
  unfold search_group_leb. cbv zeta.
  intros H. apply orb_false_iff in H as [Hlt H]. apply Nat.ltb_ge in Hlt.
  apply orb_true_iff.
  destruct (Nat.eqb_spec (search_rank first a) (search_rank first b)) as [E|E].
  - right. simpl in H. rewrite <- E, Nat.eqb_refl. simpl.
    destruct (String.leb_total (fst (fst (fst a))) (fst (fst (fst b)))); congruence.
  - left. apply Nat.ltb_lt. lia.
Qed.

Lemma search_group_leb_before (first : string) (a b : string * string * string * string)
    (f : string * string * string * string -> SearchResult) :
  (forall t title u l, sr_table_id (f (t, title, u, l)) = t /\
                       sr_title (f (t, title, u, l)) = title) ->
  search_group_leb first a b = true -> result_before first (f a) (f b).
Proof.
  intros Hf H.
  destruct a as [[[ta tia] ua] la], b as [[[tb tib] ub] lb].
  unfold result_before, result_rank.
  destruct (Hf ta tia ua la) as [-> ->], (Hf tb tib ub lb) as [-> ->].
  unfold search_group_leb, search_rank in H. cbn [fst] in H.
  apply orb_true_iff in H as [H|H].
  - left. now apply Nat.ltb_lt.
  - right. apply andb_true_iff in H as [H1 H2]. now apply Nat.eqb_eq in H1.
Qed.

Lemma matching_tables_In (db : database) (words : list string) (t : string) :
  In t (matching_tables m_universe db words) <->
  exists m, In m (table_metadata db) /\ m_table_id m = t /\
            exists w, In w words /\ word_in_row m_universe w m = true.
Proof.
  unfold matching_tables.
  rewrite (distinct_In String.eqb String.eqb_eq), in_map_iff. split.
  - intros [m [<- Hm]]. apply filter_In in Hm as [Hin Hw].
    apply existsb_exists in Hw. eauto.
  - intros [m [Hin [<- Hw]]]. exists m. split; [reflexivity|].
    apply filter_In. split; [exact Hin | now apply existsb_exists].
Qed.

Lemma matching_tables_none (db : database) : matching_tables m_universe db [] = [].
Proof.
  unfold matching_tables. rewrite RankingFacts.filter_none; reflexivity.
Qed.

Lemma searchData_eq (db : database) (searchQuery : string) (limit : nat) :
  let words := words_of searchQuery in
  searchData m_universe db searchQuery limit =
  {| sd_query := searchQuery;
     sd_results :=
       map (fun row : string * string * string * string =>
              let '(t, title, universe, labels) := row in
              {| sr_table_id := t;
                 sr_title := title;
                 sr_universe := universe;
                 matching_labels :=
                   if truthy labels then firstn 5 (split2 ";" " " labels) else [] |})
           (Sql.limit limit
              (order_by (search_group_leb (hd "" words))
                 (map (search_group m_universe db words)
                      (matching_tables m_universe db words))));
     sd_total_matches := length (matching_tables m_universe db words) |}.
Proof.
  intros words. unfold searchData. fold words.
  destruct words as [|first rest]; [|reflexivity].
  rewrite matching_tables_none. simpl. unfold Sql.limit. now rewrite firstn_nil.
Qed.

(** A search answers with the query as given; its total is the number of
    different table ids that have a row in which one of the words of the
    query occurs, in the id, the title, the universe or the label, and does
    not depend on the limit. The results are the smaller of the limit and
    the total in number, no table twice, each one of those tables, and all
    of them when the limit is not below the total. They stand in the order of
    the search: tables whose id holds the first word, then tables whose title
    does, then the others, by rising id within each. *)
Theorem search_data (db : database) (searchQuery : string) (limit : nat) :
  let words := words_of searchQuery in
  let r := searchData m_universe db searchQuery limit in
  exists ids : list string,
    NoDup ids /\
    (forall t, In t ids <->
               exists m, In m (table_metadata db) /\ m_table_id m = t /\
                         exists w, In w words /\ word_in_row m_universe w m = true) /\
    sd_query r = searchQuery /\
    sd_total_matches r = length ids /\
    length (sd_results r) = Nat.min limit (length ids) /\
    NoDup (map sr_table_id (sd_results r)) /\
    incl (map sr_table_id (sd_results r)) ids /\
    (length ids <= limit -> incl ids (map sr_table_id (sd_results r))) /\
    Sorted (result_before (hd "" words)) (sd_results r).
Proof.
  intros words r. unfold r. rewrite searchData_eq. fold words.
  cbn [sd_query sd_results sd_total_matches].
  set (ids := matching_tables m_universe db words).
  set (f := fun row : string * string * string * string => _).
  set (groups := map (search_group m_universe db words) ids).
  assert (Hf : forall t title u l, sr_table_id (f (t, title, u, l)) = t /\
                                   sr_title (f (t, title, u, l)) = title).
  { intros. split; reflexivity. }
  assert (Hkey : forall l, map sr_table_id (map f l) = map (fun g => fst (fst (fst g))) l).
  { intros l. rewrite map_map. apply map_ext. now intros [[[t ti] u] lb]. }
  assert (Hgroups : map (fun g => fst (fst (fst g))) groups = ids).
  { unfold groups. rewrite map_map. simpl. apply map_id. }
  exists ids. split; [apply (distinct_NoDup String.eqb String.eqb_eq)|].
  split; [apply matching_tables_In|]. split; [reflexivity|]. split; [reflexivity|].
  split; [|split; [|split; [|split]]].
  - rewrite length_map, limit_length, order_by_length. unfold groups.
    now rewrite length_map.
  - rewrite Hkey. apply RankingFacts.page_keys_NoDup. rewrite Hgroups.
    apply (distinct_NoDup String.eqb String.eqb_eq).
  - rewrite Hkey. intros t Ht. apply in_map_iff in Ht as [g [<- Hg]].
    apply limit_In, order_by_In in Hg. rewrite <- Hgroups.
    now apply (in_map (fun g => fst (fst (fst g)))).
  - intros Hlen t Ht. rewrite Hkey, limit_all.
    + rewrite <- Hgroups in Ht. apply in_map_iff in Ht as [g [<- Hg]].
      apply (in_map (fun g => fst (fst (fst g)))). now apply order_by_In.
    + rewrite order_by_length. unfold groups. now rewrite length_map.
  - apply map_sorted, limit_sorted.
    eapply RankingMore.Sorted_weaken;
      [|apply order_by_sorted, search_group_leb_total].
    intros a b H. now apply search_group_leb_before.
Qed.

(** A query that is white space throughout finds nothing, whatever the
    metadata holds: no results and a total of zero. *)
Theorem search_blank (db : database) (searchQuery : string) (limit : nat) :
  blank searchQuery = true ->
  searchData m_universe db searchQuery limit =
  {| sd_query := searchQuery; sd_results := []; sd_total_matches := 0 |}.
Proof.
  intros H. apply words_of_blank in H. unfold searchData. now rewrite H.
Qed.

End SearchFacts.

Lemma search_blank_witness :
  searchData (fun _ => "Housing units") MoreSamples.facts_store "   " 5 =
  {| sd_query := "   "; sd_results := []; sd_total_matches := 0 |}.
Proof.
  apply (search_blank (fun _ => "Housing units") MoreSamples.facts_store "   " 5).
  reflexivity.
Defined.

End DiscoveryFacts.
